(** * docker-worker TaskListener: a shallow embedding of task_listener.js

    The listener is a JavaScript class whose methods mutate the fields of
    [this] and call out to external collaborators (queue client, device
    manager, garbage collector, task handler, host, log and metric sinks).

    - The fields of [this] (and [runtime.capacity], which the listener
      writes) are the record [TaskListener].
    - Every call to a collaborator is recorded as an [Event] appended to the
      [trace] field, in program order.
    - What the collaborators answer is the record [Runtime]: a result or a
      thrown error for each call the source makes.
    - Methods are computations in the monad [M]: state passing over
      [TaskListener] with JavaScript exceptions ([Throw]), [try_catch] and
      [try_finally].
    - [runTask] suspends at [await taskHandler.start()].  It is embedded as
      [runTask_begin] (up to the call of [start()]) and [runTask_resume]
      (from the point where the promise settles), so that cancellation and
      shutdown can be interleaved between the two.

    Calls the source makes without any guard and whose failure the source
    does not handle -- the log and metric sinks, [handler.cancel],
    [device.release()], the shutdown manager's [onIdle]/[onWorking] -- are
    taken to return normally.

    A method runs without interruption up to [await taskHandler.start()]
    and, in the wait loop of the immediate shutdown, up to each 100 ms
    sleep; the other awaits (device probe, [getDevice], sweep, disk probe,
    [claimWork], cache purge) are calls that answer at once.

    The poll timer is not part of the state: [scheduleTaskPoll] answers
    whether it arms one, and [pollTimeout] is the callback it hands to
    [setTimeout].  [reportCapacityState] runs on a [Reporter], the listener
    together with the snapshot the report keeps; the numbers it computes in
    floating point are kept as the expressions the source writes, and
    [host.billingCycleUptime()] is taken to return normally.  [connect],
    [close] and [resume] are not part of the embedding.

    The module [Async] embeds the runner and the poll cycle a second time,
    without the two restrictions above: there [runTask] also suspends at
    each lease of a payload device, the poll cycle gives way to other
    activities at each of its awaits, the device manager answers from the
    history of the calls, and the unguarded calls can throw.  The
    properties that depend on what happens at an await are stated over
    it. *)

From Stdlib Require Import String ZArith List Bool Lia Permutation.
Import ListNotations.

Local Open Scope string_scope.
Local Open Scope list_scope.
Local Open Scope Z_scope.

(** ** Data *)

(** A leased device handle, [{id, release()}]. *)
Record Device := { dev_id : nat }.

(** Entries of [message.payload.status.runs] and [claim.status.runs];
    [reasonResolved] is undefined until the run is resolved. *)
Record Run := { reasonResolved : option string }.

(** Execution options handed to the task handler. *)
Record Options := {
  cpusetCpus : option nat;
  opt_devices : option (list (string * Device))
}.

(** The task handler, [new Task(runtime, task, claim, options)]: the fields
    the listener reads are [handler.status.taskId] and [handler.runId]. *)
Record Task := {
  h_taskId : string;
  h_runId : Z;
  h_options : Options
}.

(** [task.payload.capabilities]. *)
Record Capabilities := { cap_devices : option (list string) }.

(** [claim.task]. *)
Record TaskDef := {
  created : Z;
  capabilities : option Capabilities
}.

(** A claim returned by [claimWork]; [c_task] is [claim.task], which the
    source tests for being defined in its error handler. *)
Record Claim := {
  c_taskId : string;
  c_runs : list Run;
  c_runId : Z;
  c_task : option TaskDef
}.

(** A cancellation message:
    [{payload: {runId, status: {taskId, runs}}}]. *)
Record Message := {
  m_runId : Z;
  m_taskId : string;
  m_runs : list Run
}.

(** The [runningState] object of [runTask].  [devices] is a JavaScript
    object used as a map, kept in insertion order; [handler] is assigned
    only after the handler has been constructed. *)
Record RunningState := {
  startTime : Z;
  devices : list (string * Device);
  taskId : string;
  runId : Z;
  handler : option Task
}.

(** Values logged as fields of a log record. *)
Inductive JSVal :=
| VStr (s : string)
| VNum (z : Z)
| VUndef.

(** Calls to the external collaborators, in the order they are made. *)
Inductive Event :=
| ELog (msg : string) (fields : list (string * JSVal))
| EDebug (msg : string)
| ELogEvent (eventType : string) (task : option Task) (timestamp : option Z)
| ECount (name : string) (n : Z)
| EMeasure (name : string) (v : Z)
| EProbe
| EGetDevice (kind : string)
| ESweep (full : bool)
| EDiskProbe (admissible : Z)
| EClaimWork (n : Z)
| EPurgeCaches
| EStart (h : Task)
| ECancel (h : Task) (reason : string)
| EAbort (h : Task) (reason : string)
| ERelease (d : Device)
| EOnIdle
| EOnWorking
| ESleep (ms : Z)
| EHostShutdown.

(** Result of a call: a value, or a thrown error (its [toString()]). *)
Inductive Res (A : Type) : Type :=
| Ret (a : A)
| Throw (e : string).
Arguments Ret {A} a.
Arguments Throw {A} e.

(** The answers of the collaborators.  [newTask] stands for the [Task]
    constructor, whose class is not part of this file and which may throw;
    [clock] is the sequence of readings of [Date.now()]. *)
Record Runtime := {
  getAvailableCapacity : Res Z;
  getDevice : string -> Res Device;
  sweep : bool -> Res unit;
  exceedsDiskspaceThreshold : Z -> Res bool;
  claimWork : Z -> Res (list Claim);
  purgeCaches : Res unit;
  shouldExit : string;
  newTask : Claim -> Options -> Res Task;
  abort : Task -> Res unit;
  hostShutdown : Res unit;
  clock : nat -> Z
}.

(** The mutable state: the fields of the listener, [runtime.capacity], the
    trace of collaborator calls and the number of clock readings so far. *)
Record TaskListener := {
  capacity : Z;
  restrictCPU : bool;
  runningTasks : list RunningState;
  lastKnownCapacity : Z;
  totalRunTime : Z;
  lastTaskEvent : Z;
  paused : bool;
  trace : list Event;
  ticks : nat
}.

Definition set_capacity (v : Z) (w : TaskListener) : TaskListener :=
  {| capacity := v; restrictCPU := restrictCPU w;
     runningTasks := runningTasks w; lastKnownCapacity := lastKnownCapacity w;
     totalRunTime := totalRunTime w; lastTaskEvent := lastTaskEvent w;
     paused := paused w; trace := trace w; ticks := ticks w |}.

Definition set_runningTasks (v : list RunningState) (w : TaskListener) : TaskListener :=
  {| capacity := capacity w; restrictCPU := restrictCPU w;
     runningTasks := v; lastKnownCapacity := lastKnownCapacity w;
     totalRunTime := totalRunTime w; lastTaskEvent := lastTaskEvent w;
     paused := paused w; trace := trace w; ticks := ticks w |}.

Definition set_lastKnownCapacity (v : Z) (w : TaskListener) : TaskListener :=
  {| capacity := capacity w; restrictCPU := restrictCPU w;
     runningTasks := runningTasks w; lastKnownCapacity := v;
     totalRunTime := totalRunTime w; lastTaskEvent := lastTaskEvent w;
     paused := paused w; trace := trace w; ticks := ticks w |}.

Definition set_totalRunTime (v : Z) (w : TaskListener) : TaskListener :=
  {| capacity := capacity w; restrictCPU := restrictCPU w;
     runningTasks := runningTasks w; lastKnownCapacity := lastKnownCapacity w;
     totalRunTime := v; lastTaskEvent := lastTaskEvent w;
     paused := paused w; trace := trace w; ticks := ticks w |}.

Definition set_lastTaskEvent (v : Z) (w : TaskListener) : TaskListener :=
  {| capacity := capacity w; restrictCPU := restrictCPU w;
     runningTasks := runningTasks w; lastKnownCapacity := lastKnownCapacity w;
     totalRunTime := totalRunTime w; lastTaskEvent := v;
     paused := paused w; trace := trace w; ticks := ticks w |}.

Definition set_paused (v : bool) (w : TaskListener) : TaskListener :=
  {| capacity := capacity w; restrictCPU := restrictCPU w;
     runningTasks := runningTasks w; lastKnownCapacity := lastKnownCapacity w;
     totalRunTime := totalRunTime w; lastTaskEvent := lastTaskEvent w;
     paused := v; trace := trace w; ticks := ticks w |}.

Definition set_trace (v : list Event) (w : TaskListener) : TaskListener :=
  {| capacity := capacity w; restrictCPU := restrictCPU w;
     runningTasks := runningTasks w; lastKnownCapacity := lastKnownCapacity w;
     totalRunTime := totalRunTime w; lastTaskEvent := lastTaskEvent w;
     paused := paused w; trace := v; ticks := ticks w |}.

Definition set_ticks (v : nat) (w : TaskListener) : TaskListener :=
  {| capacity := capacity w; restrictCPU := restrictCPU w;
     runningTasks := runningTasks w; lastKnownCapacity := lastKnownCapacity w;
     totalRunTime := totalRunTime w; lastTaskEvent := lastTaskEvent w;
     paused := paused w; trace := trace w; ticks := v |}.

(** The listener as the constructor leaves it. *)
Definition constructor (cap : Z) (cpu : bool) (now : Z) : TaskListener :=
  {| capacity := cap; restrictCPU := cpu; runningTasks := [];
     lastKnownCapacity := 0; totalRunTime := 0; lastTaskEvent := now;
     paused := false; trace := []; ticks := 0 |}.

(** ** The monad of listener methods *)

Definition M (A : Type) : Type := TaskListener -> Res A * TaskListener.

Definition ret {A} (a : A) : M A := fun w => (Ret a, w).

Definition throw {A} (e : string) : M A := fun w => (Throw e, w).

Definition bind {A B} (m : M A) (f : A -> M B) : M B :=
  fun w =>
    match m w with
    | (Ret a, w') => f a w'
    | (Throw e, w') => (Throw e, w')
    end.

Notation "x <- m ;; k" := (bind m (fun x => k))
  (at level 61, m at next level, right associativity).
Notation "m ;; k" := (bind m (fun _ => k))
  (at level 61, right associativity).

(** [try { m } catch (e) { h e }] *)
Definition try_catch {A} (m : M A) (h : string -> M A) : M A :=
  fun w =>
    match m w with
    | (Ret a, w') => (Ret a, w')
    | (Throw e, w') => h e w'
    end.

(** [try { m } finally { f }] *)
Definition try_finally {A} (m : M A) (f : M unit) : M A :=
  fun w =>
    match m w with
    | (r, w') =>
        match f w' with
        | (Ret _, w'') => (r, w'')
        | (Throw e, w'') => (Throw e, w'')
        end
    end.

Definition gets {A} (f : TaskListener -> A) : M A := fun w => (Ret (f w), w).

Definition modify (f : TaskListener -> TaskListener) : M unit :=
  fun w => (Ret tt, f w).

Definition emit (e : Event) : M unit :=
  modify (fun w => set_trace (trace w ++ [e]) w).

(** A call to a collaborator: record it, then return or throw its answer. *)
Definition call {A} (e : Event) (r : Res A) : M A :=
  emit e ;; (fun w => (r, w)).

(** [for (let x of l) { f x }] *)
Fixpoint forM_ {A} (l : list A) (f : A -> M unit) : M unit :=
  match l with
  | [] => ret tt
  | x :: l' => f x ;; forM_ l' f
  end.

(** The state and the result a computation leaves. *)
Definition exec {A} (m : M A) (w : TaskListener) : TaskListener := snd (m w).
Definition result {A} (m : M A) (w : TaskListener) : Res A := fst (m w).

(** The events appended to the trace between two states. *)
Definition events_since (w w' : TaskListener) : list Event :=
  skipn (length (trace w)) (trace w').

(** Accumulated value of a [monitor.count] counter over a trace. *)
Fixpoint countOf (name : string) (evs : list Event) : Z :=
  match evs with
  | [] => 0
  | ECount n v :: r => (if String.eqb n name then v else 0) + countOf name r
  | _ :: r => countOf name r
  end.

(** ** JavaScript helpers *)

(** [obj[k] = v] on an object used as a map: overwrite in place, or append
    a new key. *)
Fixpoint obj_set {V} (k : string) (v : V) (o : list (string * V)) : list (string * V) :=
  match o with
  | [] => [(k, v)]
  | (k', v') :: r => if String.eqb k' k then (k, v) :: r else (k', v') :: obj_set k v r
  end.

(** [arr[i]] for a number [i]: undefined outside the array. *)
Definition index {A} (l : list A) (i : Z) : option A :=
  if i <? 0 then None else nth_error l (Z.to_nat i).

(** [arr.findIndex(p)], with [None] for -1. *)
Fixpoint findIndex {A} (p : A -> bool) (l : list A) : option nat :=
  match l with
  | [] => None
  | x :: r => if p x then Some O else option_map S (findIndex p r)
  end.

(** [arr.splice(i, 1)] *)
Definition splice1 {A} (i : nat) (l : list A) : list A :=
  firstn i l ++ skipn (S i) l.

(** The device handles a running state holds, in key order. *)
Definition leases (st : RunningState) : list Device := map snd (devices st).

Definition set_device (k : string) (d : Device) (st : RunningState) : RunningState :=
  {| startTime := startTime st; devices := obj_set k d (devices st);
     taskId := taskId st; runId := runId st; handler := handler st |}.

Definition set_handler (h : Task) (st : RunningState) : RunningState :=
  {| startTime := startTime st; devices := devices st;
     taskId := taskId st; runId := runId st; handler := Some h |}.

(** [reason !== 'canceled'] is false exactly for the string "canceled". *)
Definition is_canceled (reason : option string) : bool :=
  match reason with
  | Some r => String.eqb r "canceled"
  | None => false
  end.

(** [this.runningTasks.find(state => handler.status.taskId === taskId &&
    handler.runId === runId)]; the callback throws on a state without a
    handler. *)
Fixpoint find_by_handler (tid : string) (rid : Z) (l : list RunningState)
  : Res (option (RunningState * Task)) :=
  match l with
  | [] => Ret None
  | state :: l' =>
      match handler state with
      | None => Throw "TypeError: Cannot read properties of undefined (reading 'status')"
      | Some h =>
          if String.eqb (h_taskId h) tid && (h_runId h =? rid)
          then Ret (Some (state, h))
          else find_by_handler tid rid l'
      end
  end.

(** The callback of [findIndex] in [removeRunningTask]. *)
Definition same_run (runningState runningTask : RunningState) : bool :=
  String.eqb (taskId runningTask) (taskId runningState)
  && (runId runningTask =? runId runningState).

(** A [runTask] suspended at [await taskHandler.start()]. *)
Record Pending := {
  p_claim : Claim;
  p_task : TaskDef;
  p_state : RunningState;
  p_handler : Task
}.

Definition noOptions : Options := {| cpusetCpus := None; opt_devices := None |}.

(** What a runner does while the poll cycle is suspended: a runner launched
    by this or an earlier cycle reaches its admission, or the [start()] of
    a suspended runner settles. *)
Inductive RunnerStep :=
| Launch (claim : Claim)
| Settle (p : Pending) (started : Res unit).

(** For each wait of the wait loop, the steps the runners take meanwhile. *)
Definition Schedule : Type := list (list RunnerStep).

(** ** The methods of the listener *)

Section Listener.

Variable rt : Runtime.

(** Reify a thrown error, so that the local variables of the enclosing
    block can be threaded past it. *)
Definition attempt {A} (m : M A) : M (Res A) :=
  fun w => (Ret (fst (m w)), snd (m w)).

Definition Date_now : M Z :=
  n <- gets ticks ;;
  modify (set_ticks (S n)) ;;
  ret (clock rt n).

Definition log (msg : string) (fields : list (string * JSVal)) : M unit :=
  emit (ELog msg fields).

Definition debug (msg : string) : M unit := emit (EDebug msg).

Definition logEvent (eventType : string) (task : option Task) (timestamp : option Z) : M unit :=
  emit (ELogEvent eventType task timestamp).

Definition count (name : string) (n : Z) : M unit := emit (ECount name n).

Definition measure (name : string) (v : Z) : M unit := emit (EMeasure name v).

Definition isIdle : M bool :=
  rts <- gets runningTasks ;;
  ret (Nat.eqb (length rts) 0).

(** [cleanupRunningState(state)]: release every device of the state. *)
Definition cleanupRunningState (state : option RunningState) : M unit :=
  match state with
  | None => ret tt
  | Some st => forM_ (devices st) (fun kd => emit (ERelease (snd kd)))
  end.

Definition cancelTask (message : Message) : M unit :=
  let runId := m_runId message in
  match index (m_runs message) runId with
  | None => throw "TypeError: Cannot read properties of undefined (reading 'reasonResolved')"
  | Some run =>
      let reason := reasonResolved run in
      if negb (is_canceled reason) then ret tt
      else
        let taskId := m_taskId message in
        rts <- gets runningTasks ;;
        match find_by_handler taskId runId rts with
        | Throw e => throw e
        | Ret None => debug "task not found to cancel"
        | Ret (Some (state, h)) =>
            log "cancelling task" [("taskId", VStr (m_taskId message))] ;;
            emit (ECancel h "canceled") ;;
            cleanupRunningState (Some state)
        end
  end.

Definition availableCapacity : M Z :=
  deviceCapacity <-
    try_catch (call EProbe (getAvailableCapacity rt))
      (fun e =>
         log "[alert-operator] error determining device capacity"
           [("message", VStr e)] ;;
         ret 0) ;;
  cap <- gets capacity ;;
  rts <- gets runningTasks ;;
  let runningCapacity := Z.max (cap - Z.of_nat (length rts)) 0 in
  let hostCapacity := Z.min runningCapacity deviceCapacity in
  modify (set_lastKnownCapacity hostCapacity) ;;
  (if hostCapacity <? runningCapacity
   then log "[info] host capacity adjusted"
          [("Device", VNum deviceCapacity); ("Running", VNum runningCapacity);
           ("Adjusted Host Capacity", VNum hostCapacity)]
   else ret tt) ;;
  ret hostCapacity.

Definition recordCapacity : M unit :=
  now <- Date_now ;;
  lte <- gets lastTaskEvent ;;
  measure "capacity.duration.lastTaskEvent" (now - lte) ;;
  idle <- gets lastKnownCapacity ;;
  count "capacity.idle" idle ;;
  rts <- gets runningTasks ;;
  count "capacity.runningTasks" (Z.of_nat (length rts)) ;;
  idle' <- gets lastKnownCapacity ;;
  rts' <- gets runningTasks ;;
  count "capacity.total" (idle' + Z.of_nat (length rts')) ;;
  now' <- Date_now ;;
  modify (set_lastTaskEvent now').

Definition addRunningTask (runningState : RunningState) : M unit :=
  recordCapacity ;;
  modify (fun w => set_runningTasks (runningTasks w ++ [runningState]) w).

Definition removeRunningTask (runningState : RunningState) : M unit :=
  rts <- gets runningTasks ;;
  match findIndex (same_run runningState) rts with
  | None =>
      log "[warning] running task removal error"
        [("taskId", VStr (taskId runningState)); ("runId", VNum (runId runningState));
         ("err", VStr "Could not find the task Id in the list of running tasks")] ;;
      cleanupRunningState (Some runningState)
  | Some taskIndex =>
      recordCapacity ;;
      cleanupRunningState (Some runningState) ;;
      now <- Date_now ;;
      modify (fun w => set_totalRunTime (totalRunTime w + (now - startTime runningState)) w) ;;
      modify (fun w => set_runningTasks (splice1 taskIndex (runningTasks w)) w) ;;
      modify (fun w => set_lastKnownCapacity (lastKnownCapacity w + 1) w)
  end.

(** [pause()]; the poll timer it clears is not part of the state. *)
Definition pause : M unit := modify (set_paused true).

Definition shutdown : M unit :=
  pause ;;
  modify (set_capacity 0) ;;
  log "shutdown" [] ;;
  logEvent "instanceShutdown" None None ;;
  log "exit" [] ;;
  call EHostShutdown (hostShutdown rt).

(** *** runTask *)

(** [if (this.runtime.restrictCPU) { ... }] *)
Definition leaseCpu (runningState : RunningState) : M (RunningState * Options * Res unit) :=
  cpu <- gets restrictCPU ;;
  if cpu then
    r <- attempt (call (EGetDevice "cpu") (getDevice rt "cpu")) ;;
    match r with
    | Throw e => ret (runningState, noOptions, Throw e)
    | Ret d =>
        ret (set_device "cpu" d runningState,
             {| cpusetCpus := Some (dev_id d); opt_devices := None |}, Ret tt)
    end
  else ret (runningState, noOptions, Ret tt).

(** [for (let device of Object.keys(taskCapabilities.devices || {}))] *)
Fixpoint leaseDevices (keys : list string) (runningState : RunningState)
    (odevs : list (string * Device))
  : M (RunningState * list (string * Device) * Res unit) :=
  match keys with
  | [] => ret (runningState, odevs, Ret tt)
  | device :: keys' =>
      r <- attempt (call (EGetDevice device) (getDevice rt device)) ;;
      match r with
      | Throw e => ret (runningState, odevs, Throw e)
      | Ret d => leaseDevices keys' (set_device device d runningState) (obj_set device d odevs)
      end
  end.

(** [if (taskCapabilities.devices) { ... }] *)
Definition leasePayloadDevices (task : TaskDef) (runningState : RunningState)
    (options : Options) : M (RunningState * Options * Res unit) :=
  match capabilities task with
  | Some {| cap_devices := Some keys |} =>
      debug "Aquiring task payload specific devices" ;;
      x <- leaseDevices keys runningState [] ;;
      let '(runningState', odevs, r) := x in
      ret (runningState',
           {| cpusetCpus := cpusetCpus options; opt_devices := Some odevs |}, r)
  | _ => ret (runningState, options, Ret tt)
  end.

(** The body of the outer [try] through the device leases (the statements
    before [new Task(...)]).  Returns the local variables [runningState]
    and [task] as they stand when this part is left, with the task
    definition and the options, or the error thrown. *)
Definition runTask_setup (claim : Claim)
  : M (RunningState * option TaskDef * Res (TaskDef * Options)) :=
  now <- Date_now ;;
  let runningState :=
    {| startTime := now; devices := []; taskId := c_taskId claim;
       runId := c_runId claim; handler := None |} in
  log "run task"
    [("taskId", VStr (taskId runningState)); ("runId", VNum (runId runningState))] ;;
  match c_task claim with
  | None =>
      ret (runningState, None,
           Throw "TypeError: Cannot read properties of undefined (reading 'created')")
  | Some task =>
      (if Nat.eqb (length (c_runs claim)) 0
       then now' <- Date_now ;; measure "timeToFirstClaim" (now' - created task)
       else ret tt) ;;
      x <- leaseCpu runningState ;;
      let '(runningState1, options1, r1) := x in
      match r1 with
      | Throw e => ret (runningState1, Some task, Throw e)
      | Ret _ =>
          y <- leasePayloadDevices task runningState1 options1 ;;
          let '(runningState2, options2, r2) := y in
          match r2 with
          | Throw e => ret (runningState2, Some task, Throw e)
          | Ret _ => ret (runningState2, Some task, Ret (task, options2))
          end
      end
  end.

(** The body of the outer [try] up to the point where [start()] has been
    called: the setup, then the construction of the handler, the admission
    to the registry and the first two lifecycle events.  Returns the local
    variables with the pending runner or the error. *)
Definition runTask_try (claim : Claim)
  : M (RunningState * option TaskDef * Res Pending) :=
  x <- runTask_setup claim ;;
  let '(runningState, task', r) := x in
  match r with
  | Throw e => ret (runningState, task', Throw e)
  | Ret (task, options) =>
      match newTask rt claim options with
      | Throw e => ret (runningState, task', Throw e)
      | Ret taskHandler =>
          let runningState' := set_handler taskHandler runningState in
          addRunningTask runningState' ;;
          logEvent "taskQueue" (Some taskHandler) (Some (created task)) ;;
          logEvent "taskStart" (Some taskHandler) None ;;
          emit (EStart taskHandler) ;;
          ret (runningState', task',
               Ret {| p_claim := claim; p_task := task;
                      p_state := runningState'; p_handler := taskHandler |})
      end
  end.

(** The [catch (e)] block of [runTask]. *)
Definition runTask_catch (claim : Claim) (runningState : RunningState)
    (task : option TaskDef) (e : string) : M unit :=
  removeRunningTask runningState ;;
  match task with
  | Some _ =>
      log "task error"
        [("taskId", VStr (c_taskId claim)); ("runId", VUndef); ("message", VStr e)]
  | None => log "task error" [("message", VStr e)]
  end.

(** [runTask] up to its suspension at [await taskHandler.start()], or to
    its end when the setup throws. *)
Definition runTask_begin (claim : Claim) : M (option Pending) :=
  x <- runTask_try claim ;;
  let '(runningState, task, r) := x in
  match r with
  | Ret p => ret (Some p)
  | Throw e =>
      runTask_catch claim runningState task e ;;
      count "task.error" 1 ;;
      ret None
  end.

(** [runTask] from the point where [start()] settles with [started]. *)
Definition runTask_resume (p : Pending) (started : Res unit) : M unit :=
  try_catch
    (try_finally (fun w => (started, w))
       (logEvent "taskFinish" (Some (p_handler p)) None) ;;
     removeRunningTask (p_state p))
    (fun e => runTask_catch (p_claim p) (p_state p) (Some (p_task p)) e) ;;
  count "task.error" 1.

(** A whole [runTask] with nothing interleaved at its suspension. *)
Definition runTask (claim : Claim) (started : Res unit) : M unit :=
  p <- runTask_begin claim ;;
  match p with
  | Some p => runTask_resume p started
  | None => ret tt
  end.

(** *** The poll cycle *)

(** [claims.map(claim => this.runTask(claim))]: each runner runs up to its
    suspension; the suspended ones are returned. *)
Fixpoint launch (claims : list Claim) : M (list Pending) :=
  match claims with
  | [] => ret []
  | claim :: claims' =>
      p <- runTask_begin claim ;;
      ps <- launch claims' ;;
      ret (match p with Some p => p :: ps | None => ps end)
  end.

Definition getTasks : M (list Pending) :=
  availableCapacity' <- availableCapacity ;;
  if availableCapacity' =? 0 then
    debug "not calling claimWork because capacity is zero" ;;
    ret []
  else
    rts <- gets runningTasks ;;
    call (ESweep (Nat.eqb (length rts) 0)) (sweep rt (Nat.eqb (length rts) 0)) ;;
    exceedsThreshold <-
      call (EDiskProbe availableCapacity')
        (exceedsDiskspaceThreshold rt availableCapacity') ;;
    if exceedsThreshold : bool then
      debug "not calling claimWork because not enough disk space" ;;
      ret []
    else
      claims <- call (EClaimWork availableCapacity') (claimWork rt availableCapacity') ;;
      if negb (Nat.eqb (length claims) 0) then
        call EPurgeCaches (purgeCaches rt) ;;
        launch claims
      else ret [].

(** [state.handler.abort('worker-shutdown')] *)
Definition abortHandler (state : RunningState) : M unit :=
  match handler state with
  | None => throw "TypeError: Cannot read properties of undefined (reading 'abort')"
  | Some h => call (EAbort h "worker-shutdown") (abort rt h)
  end.

(** The [for (let state of this.runningTasks)] loop of the immediate
    shutdown. *)
Definition abortRunningTasks : M unit :=
  rts <- gets runningTasks ;;
  forM_ rts (fun state =>
    try_catch (abortHandler state)
      (fun e => debug ("error aborting with worker-shutdown: " ++ e)%string) ;;
    cleanupRunningState (Some state)).

Definition runnerStep (step : RunnerStep) : M unit :=
  match step with
  | Launch claim => runTask_begin claim ;; ret tt
  | Settle p started => runTask_resume p started
  end.

(** [while (!this.isIdle()) { await new Promise(res => setTimeout(res, 100)) }].
    During each wait the runners take the steps listed in the head of
    [sched].  The result is [true] when the loop has been left and [false]
    when the schedule ends with the loop still waiting. *)
Fixpoint drain (sched : Schedule) : M bool :=
  idle <- isIdle ;;
  if idle : bool then ret true
  else
    match sched with
    | [] => ret false
    | settled :: sched' =>
        emit (ESleep 100) ;;
        forM_ settled runnerStep ;;
        drain sched'
    end.

(** [case 'immediate':] of the switch in [taskPoll].  When the schedule
    ends with the wait loop still waiting, [shutdown] has not been reached. *)
Definition immediateExit (sched : Schedule) : M unit :=
  count "spotTermination" 1 ;;
  abortRunningTasks ;;
  drained <- drain sched ;;
  if drained : bool then shutdown else ret tt.

(** [case 'graceful':] of the switch in [taskPoll]. *)
Definition gracefulExit : M unit :=
  modify (set_capacity 0) ;;
  idle <- isIdle ;;
  if idle : bool then shutdown else ret tt.

(** [taskPoll], up to the switch on [shouldExit()]. *)
Definition pollAndReport : M (list Pending) :=
  launched <-
    try_catch getTasks
      (fun e =>
         log "[alert-operator] task retrieval error" [("message", VStr e)] ;;
         ret []) ;;
  idle <- isIdle ;;
  (if idle : bool then emit EOnIdle else emit EOnWorking) ;;
  ret launched.

Definition taskPoll (sched : Schedule) : M (list Pending) :=
  launched <- pollAndReport ;;
  (if String.eqb (shouldExit rt) "immediate" then immediateExit sched
   else if String.eqb (shouldExit rt) "graceful" then gracefulExit
   else ret tt) ;;
  ret launched.

End Listener.

(** * The poll timer and the capacity report *)

(** ** The poll timer *)

(** [scheduleTaskPoll(nextPoll)].  The timer is not part of the state: the
    result tells whether [setTimeout] has been called. *)
Definition scheduleTaskPoll : M bool :=
  p <- gets paused ;;
  if p : bool then ret false else ret true.

(** The callback [scheduleTaskPoll] hands to [setTimeout]:
    [this.taskPoll().catch(err => ...).then(() => this.scheduleTaskPoll())]. *)
Definition pollTimeout (rt : Runtime) (sched : Schedule) : M bool :=
  try_catch (taskPoll rt sched ;; ret tt)
    (fun err => log "error polling tasks" [("message", VStr err)]) ;;
  scheduleTaskPoll.

(** ** The capacity report *)

(** [this.lastCapacityState] *)
Record CapacityState := {
  cs_time : Z;
  cs_idle : Z;
  cs_busy : Z
}.

(** The numbers the report computes in floating point, kept as the
    expressions the source writes: [ms / 1000], [k * (ms / 1000)] and
    [(totalRunTime / (capacity * (uptime * 1000))) * 100]. *)
Inductive Amount :=
| Seconds (ms : Z)
| Times (k : Z) (ms : Z)
| Efficiency (totalRunTime capacity uptime : Z).

(** What the report sends out: [capacityMonitor.count], the "reporting
    efficiency" record of [runtime.log] with its fields [efficiency],
    [uptime], [totalRunTime] and [capacity], and
    [workerTypeMonitor.measure]. *)
Inductive Report :=
| RCount (name : string) (v : Amount)
| RLog (efficiency : Amount) (uptime totalRunTime : Z) (capacity' : JSVal)
| RMeasure (name : string) (v : Amount).

(** The listener with the state of its report. *)
Record Reporter := {
  listener : TaskListener;
  lastCapacityState : CapacityState;
  sent : list Report
}.

Definition set_listener (w : TaskListener) (r : Reporter) : Reporter :=
  {| listener := w; lastCapacityState := lastCapacityState r; sent := sent r |}.

(** [{ time: new Date(), idle: this.lastKnownCapacity,
       busy: this.runningTasks.length }] *)
Definition snapshot (time : Z) (w : TaskListener) : CapacityState :=
  {| cs_time := time; cs_idle := lastKnownCapacity w;
     cs_busy := Z.of_nat (length (runningTasks w)) |}.

(** The part of the constructor that concerns the report. *)
Definition newReporter (cap : Z) (cpu : bool) (now now' : Z) : Reporter :=
  {| listener := constructor cap cpu now;
     lastCapacityState := snapshot now' (constructor cap cpu now);
     sent := [] |}.

(** [if (cond) { this.capacityMonitor.count(name, time); }] *)
Definition countWhen (cond : bool) (name : string) (time : Z) : list Report :=
  if cond then [RCount name (Seconds time)] else [].

(** The counters of [reportCapacityState], for the elapsed [time] in
    milliseconds. *)
Definition capacityCounts (last : CapacityState) (time : Z) : list Report :=
  [RCount "capacity-busy" (Times (cs_busy last) time);
   RCount "capacity-idle" (Times (cs_idle last) time)]
  ++ countWhen (cs_busy last =? 0) "running-eq-0" time
  ++ countWhen (cs_busy last >=? 1) "running-ge-1" time
  ++ countWhen (cs_busy last >=? 2) "running-ge-2" time
  ++ countWhen (cs_busy last >=? 3) "running-ge-3" time
  ++ countWhen (cs_busy last >=? 4) "running-ge-4" time
  ++ countWhen (cs_busy last >=? 6) "running-ge-6" time
  ++ countWhen (cs_busy last >=? 8) "running-ge-8" time
  ++ countWhen (cs_idle last =? 0) "idle-eq-0" time
  ++ countWhen (cs_idle last >=? 1) "idle-ge-1" time
  ++ countWhen (cs_idle last >=? 2) "idle-ge-2" time
  ++ countWhen (cs_idle last >=? 3) "idle-ge-3" time
  ++ countWhen (cs_idle last >=? 4) "idle-ge-4" time
  ++ countWhen (cs_idle last >=? 6) "idle-ge-6" time
  ++ countWhen (cs_idle last >=? 8) "idle-ge-8" time.

(** [this.runningTasks.forEach(task => { totalRunTime += Date.now() - task.startTime; })] *)
Fixpoint sumRunTime (rt : Runtime) (tasks : list RunningState) (totalRunTime' : Z)
  : M Z :=
  match tasks with
  | [] => ret totalRunTime'
  | task :: tasks' =>
      now <- Date_now rt ;;
      sumRunTime rt tasks' (totalRunTime' + (now - startTime task))
  end.

(** What [reportCapacityState] reads from the listener and sends out;
    [uptime] is the answer of [host.billingCycleUptime()].  The [capacity]
    field of the record is [this.capcity], a property the listener does not
    have. *)
Definition capacityReport (rt : Runtime) (uptime : Z) (last : CapacityState)
  : M (CapacityState * list Report) :=
  now <- Date_now rt ;;
  idle <- gets lastKnownCapacity ;;
  rts <- gets runningTasks ;;
  let state := {| cs_time := now; cs_idle := idle; cs_busy := Z.of_nat (length rts) |} in
  let time := cs_time state - cs_time last in
  total <- gets totalRunTime ;;
  rts' <- gets runningTasks ;;
  totalRunTime' <- sumRunTime rt rts' total ;;
  cap <- gets capacity ;;
  let efficiency := Efficiency totalRunTime' cap uptime in
  ret (state,
       capacityCounts last time
       ++ [RLog efficiency uptime totalRunTime' VUndef;
           RMeasure "total-efficiency" efficiency]).

(** [reportCapacityState()] *)
Definition reportCapacityState (rt : Runtime) (uptime : Z) (r : Reporter)
  : Res unit * Reporter :=
  match capacityReport rt uptime (lastCapacityState r) (listener r) with
  | (Ret (state, out), w) =>
      (Ret tt, {| listener := w; lastCapacityState := state;
                   sent := sent r ++ out |})
  | (Throw e, w) => (Throw e, set_listener w r)
  end.

(** * The listener with its suspensions

    Above, a runner runs from its launch to [await taskHandler.start()]
    without interruption, a device manager answers [getDevice(kind)] with
    the same handle every time, and [release()], [handler.cancel()],
    [onIdle()], [onWorking()] and [shouldExit()] return normally.  The
    module [Async] embeds the same methods without these restrictions:

    - [runTask] suspends at every [await this.deviceManager.getDevice(device)]
      of the loop over the payload devices, as well as at
      [await taskHandler.start()]; a suspended runner is a [Runner], and
      [resumeRunner] takes it to its next suspension or to its end;
    - [taskPoll] is embedded from the point where [await this.getTasks()]
      settles; at each later [await] (the 100 ms sleeps of the wait loop,
      [await this.pause()] and [await this.host.shutdown()] in [shutdown])
      and before each handler of the timer callback, other activities take
      the steps the caller lists: suspended runners resume, cancellation
      messages are handled;
    - the wait loop that is still waiting when the listed steps end has not
      returned: the cycle ends [StillWaiting];
    - the device manager answers each lease, and a device each release,
      depending on the calls made before ([Host]); the unguarded calls can
      throw;
    - [Object.keys(state.devices)] lists array indices first, in ascending
      order, and the other keys in the order of their insertion;
      [cap_devices] lists the payload's devices as [Object.keys] does. *)

(** ** Collaborators *)

(** [runtime] answers the gates, the clock, [new Task], [handler.abort] and
    the host's [shutdown()] as before; its [getDevice] and [shouldExit] are
    superseded by [lease] and [exitRequest].  The first argument of [lease],
    [release] and [cancel] is the trace of the calls made before. *)
Record Host := {
  runtime : Runtime;
  lease : list Event -> string -> Res Device;
  release : list Event -> Device -> Res unit;
  cancel : list Event -> Task -> Res unit;
  onIdle : Res unit;
  onWorking : Res unit;
  exitRequest : Res string
}.

(** ** The order of [Object.keys] *)

Definition digit (c : Ascii.ascii) : option N :=
  let n := Ascii.N_of_ascii c in
  if ((48 <=? n) && (n <=? 57))%N then Some (n - 48)%N else None.

Fixpoint digits (s : string) (acc : N) : option N :=
  match s with
  | EmptyString => Some acc
  | String c r =>
      match digit c with
      | Some d => digits r (10 * acc + d)%N
      | None => None
      end
  end.

(** The array index a property name is: a canonical decimal numeral below
    2^32 - 1. *)
Definition array_index (k : string) : option N :=
  match k with
  | EmptyString => None
  | String c r =>
      if (N.eqb (Ascii.N_of_ascii c) 48 && negb (String.eqb r ""))%bool then None
      else
        match digits k 0 with
        | Some n => if (n <? 4294967295)%N then Some n else None
        | None => None
        end
  end.

Fixpoint insert_index {V} (n : N) (kv : string * V) (l : list (N * (string * V)))
  : list (N * (string * V)) :=
  match l with
  | [] => [(n, kv)]
  | (m, kv') :: r =>
      if (n <? m)%N then (n, kv) :: (m, kv') :: r
      else (m, kv') :: insert_index n kv r
  end.

(** The entries of [o] whose keys are array indices, in ascending order. *)
Fixpoint index_entries {V} (o : list (string * V)) : list (N * (string * V)) :=
  match o with
  | [] => []
  | kv :: r =>
      match array_index (fst kv) with
      | Some n => insert_index n kv (index_entries r)
      | None => index_entries r
      end
  end.

(** The entries of [o] in the order of [Object.keys(o)]. *)
Definition own_entries {V} (o : list (string * V)) : list (string * V) :=
  map snd (index_entries o)
  ++ filter (fun kv => match array_index (fst kv) with
                       | Some _ => false
                       | None => true
                       end) o.

(** The device handles a running state holds, in the order of
    [Object.keys(state.devices)]. *)
Definition held_devices (st : RunningState) : list Device :=
  map snd (own_entries (devices st)).

(** ** Suspended runners and the steps of other activities *)

(** A [runTask] between two steps: suspended at
    [await this.deviceManager.getDevice(device)], the call made and its
    answer pending, with the local variables and the keys still to come;
    suspended at [await taskHandler.start()]; or over. *)
Inductive Runner :=
| Leasing (claim : Claim) (task : TaskDef) (runningState : RunningState)
    (options : Options) (odevs : list (string * Device))
    (device : string) (answer : Res Device) (rest : list string)
| Started (p : Pending)
| Finished.

(** What another activity does while the poll cycle is suspended: a
    suspended runner resumes ([started] is what [start()] settles with, for
    a runner suspended there), or a cancellation message is handled. *)
Inductive Step :=
| SResume (r : Runner) (started : Res unit)
| SCancel (message : Message).

(** How an observed poll cycle ends: [taskPoll] has returned, or it is
    still in its wait loop. *)
Inductive PollEnd := Returned | StillWaiting.

Module Async.

Section Listener.

Variable h : Host.

(** [cleanupRunningState(state)] *)
Definition cleanupRunningState (state : option RunningState) : M unit :=
  match state with
  | None => ret tt
  | Some st =>
      forM_ (own_entries (devices st)) (fun kd =>
        t <- gets trace ;;
        call (ERelease (snd kd)) (release h t (snd kd)))
  end.

Definition cancelTask (message : Message) : M unit :=
  let runId := m_runId message in
  match index (m_runs message) runId with
  | None => throw "TypeError: Cannot read properties of undefined (reading 'reasonResolved')"
  | Some run =>
      let reason := reasonResolved run in
      if negb (is_canceled reason) then ret tt
      else
        let taskId := m_taskId message in
        rts <- gets runningTasks ;;
        match find_by_handler taskId runId rts with
        | Throw e => throw e
        | Ret None => debug "task not found to cancel"
        | Ret (Some (state, handler')) =>
            log "cancelling task" [("taskId", VStr (m_taskId message))] ;;
            t <- gets trace ;;
            call (ECancel handler' "canceled") (cancel h t handler') ;;
            cleanupRunningState (Some state)
        end
  end.

Definition removeRunningTask (runningState : RunningState) : M unit :=
  rts <- gets runningTasks ;;
  match findIndex (same_run runningState) rts with
  | None =>
      log "[warning] running task removal error"
        [("taskId", VStr (taskId runningState)); ("runId", VNum (runId runningState));
         ("err", VStr "Could not find the task Id in the list of running tasks")] ;;
      cleanupRunningState (Some runningState)
  | Some taskIndex =>
      recordCapacity (runtime h) ;;
      cleanupRunningState (Some runningState) ;;
      now <- Date_now (runtime h) ;;
      modify (fun w => set_totalRunTime (totalRunTime w + (now - startTime runningState)) w) ;;
      modify (fun w => set_runningTasks (splice1 taskIndex (runningTasks w)) w) ;;
      modify (fun w => set_lastKnownCapacity (lastKnownCapacity w + 1) w)
  end.

(** *** runTask *)

(** The [catch (e)] block of [runTask] and the statement after it. *)
Definition runTask_catch (claim : Claim) (runningState : RunningState)
    (task : option TaskDef) (e : string) : M Runner :=
  removeRunningTask runningState ;;
  match task with
  | Some _ =>
      log "task error"
        [("taskId", VStr (c_taskId claim)); ("runId", VUndef); ("message", VStr e)]
  | None => log "task error" [("message", VStr e)]
  end ;;
  count "task.error" 1 ;;
  ret Finished.

(** From [new Task(...)] to the suspension at [await taskHandler.start()]. *)
Definition admitTask (claim : Claim) (task : TaskDef) (runningState : RunningState)
    (options : Options) : M Runner :=
  match newTask (runtime h) claim options with
  | Throw e => runTask_catch claim runningState (Some task) e
  | Ret taskHandler =>
      let runningState' := set_handler taskHandler runningState in
      addRunningTask (runtime h) runningState' ;;
      logEvent "taskQueue" (Some taskHandler) (Some (created task)) ;;
      logEvent "taskStart" (Some taskHandler) None ;;
      emit (EStart taskHandler) ;;
      ret (Started {| p_claim := claim; p_task := task;
                      p_state := runningState'; p_handler := taskHandler |})
  end.

(** The loop over the payload devices, from the head of an iteration to
    the suspension at its [await], or past the loop. *)
Definition leaseNext (claim : Claim) (task : TaskDef) (runningState : RunningState)
    (options : Options) (odevs : list (string * Device)) (keys : list string)
  : M Runner :=
  match keys with
  | [] =>
      admitTask claim task runningState
        {| cpusetCpus := cpusetCpus options; opt_devices := Some odevs |}
  | device :: rest =>
      t <- gets trace ;;
      emit (EGetDevice device) ;;
      ret (Leasing claim task runningState options odevs device (lease h t device) rest)
  end.

(** [runTask] from its call to its first suspension, or to its end. *)
Definition runTask_begin (claim : Claim) : M Runner :=
  now <- Date_now (runtime h) ;;
  let runningState :=
    {| startTime := now; devices := []; taskId := c_taskId claim;
       runId := c_runId claim; handler := None |} in
  log "run task"
    [("taskId", VStr (taskId runningState)); ("runId", VNum (runId runningState))] ;;
  match c_task claim with
  | None =>
      runTask_catch claim runningState None
        "TypeError: Cannot read properties of undefined (reading 'created')"
  | Some task =>
      (if Nat.eqb (length (c_runs claim)) 0
       then now' <- Date_now (runtime h) ;; measure "timeToFirstClaim" (now' - created task)
       else ret tt) ;;
      cpu <- gets restrictCPU ;;
      x <- (if cpu : bool then
              t <- gets trace ;;
              emit (EGetDevice "cpu") ;;
              match lease h t "cpu" with
              | Throw e => ret (runningState, noOptions, Throw e)
              | Ret d =>
                  ret (set_device "cpu" d runningState,
                       {| cpusetCpus := Some (dev_id d); opt_devices := None |}, Ret tt)
              end
            else ret (runningState, noOptions, Ret tt)) ;;
      let '(runningState1, options1, r1) := x in
      match r1 with
      | Throw e => runTask_catch claim runningState1 (Some task) e
      | Ret _ =>
          match capabilities task with
          | Some {| cap_devices := Some keys |} =>
              debug "Aquiring task payload specific devices" ;;
              leaseNext claim task runningState1 options1 [] keys
          | _ => admitTask claim task runningState1 options1
          end
      end
  end.

(** [runTask] from the point where [start()] settles with [started]. *)
Definition runTask_settle (p : Pending) (started : Res unit) : M Runner :=
  r <- attempt
         (try_finally (fun w => (started, w))
            (logEvent "taskFinish" (Some (p_handler p)) None) ;;
          removeRunningTask (p_state p)) ;;
  match r with
  | Ret _ => count "task.error" 1 ;; ret Finished
  | Throw e => runTask_catch (p_claim p) (p_state p) (Some (p_task p)) e
  end.

(** A suspended runner resumes and runs to its next suspension or to its
    end. *)
Definition resumeRunner (r : Runner) (started : Res unit) : M Runner :=
  match r with
  | Leasing claim task runningState options odevs device answer rest =>
      match answer with
      | Throw e => runTask_catch claim runningState (Some task) e
      | Ret d =>
          leaseNext claim task (set_device device d runningState) options
            (obj_set device d odevs) rest
      end
  | Started p => runTask_settle p started
  | Finished => ret Finished
  end.

(** [claims.map(claim => this.runTask(claim))]: each runner runs to its
    first suspension; a runner that throws has rejected its promise, which
    is dropped.  The result lists the runners as they are left. *)
Fixpoint launch (claims : list Claim) : M (list Runner) :=
  match claims with
  | [] => ret []
  | claim :: claims' =>
      r <- attempt (runTask_begin claim) ;;
      rs <- launch claims' ;;
      ret (match r with Ret r' => r' | Throw _ => Finished end :: rs)
  end.

(** *** The poll cycle after [getTasks] *)

(** A step of another activity; what it throws is not thrown here. *)
Definition step (s : Step) : M unit :=
  attempt
    (match s with
     | SResume r started => resumeRunner r started ;; ret tt
     | SCancel message => cancelTask message
     end) ;;
  ret tt.

(** An [await] of the poll cycle: the steps of other activities that run
    before the cycle resumes. *)
Definition yield (steps : list Step) : M unit := forM_ steps step.

(** [shutdown()]: it is suspended at [await this.pause()] and, once
    [host.shutdown()] has been called, at the [await] of what it answers. *)
Definition shutdown (during after : list Step) : M unit :=
  pause ;;
  yield during ;;
  modify (set_capacity 0) ;;
  log "shutdown" [] ;;
  logEvent "instanceShutdown" None None ;;
  log "exit" [] ;;
  try_finally (call EHostShutdown (hostShutdown (runtime h))) (yield after).

Definition abortRunningTasks : M unit :=
  rts <- gets runningTasks ;;
  forM_ rts (fun state =>
    try_catch (abortHandler (runtime h) state)
      (fun e => debug ("error aborting with worker-shutdown: " ++ e)%string) ;;
    cleanupRunningState (Some state)).

(** [while (!this.isIdle()) { await new Promise(res => setTimeout(res, 100)) }]:
    [true] when the loop has been left, [false] when the rounds listed end
    with the loop still waiting. *)
Fixpoint drain (sched : list (list Step)) : M bool :=
  idle <- isIdle ;;
  if idle : bool then ret true
  else
    match sched with
    | [] => ret false
    | round :: sched' =>
        emit (ESleep 100) ;;
        yield round ;;
        drain sched'
    end.

Definition immediateExit (sched : list (list Step)) (during after : list Step)
  : M PollEnd :=
  count "spotTermination" 1 ;;
  abortRunningTasks ;;
  drained <- drain sched ;;
  if drained : bool then shutdown during after ;; ret Returned
  else ret StillWaiting.

Definition gracefulExit (during after : list Step) : M PollEnd :=
  modify (set_capacity 0) ;;
  idle <- isIdle ;;
  (if idle : bool then shutdown during after else ret tt) ;;
  ret Returned.

(** [taskPoll] from the point where [await this.getTasks()] has settled
    with [got]. *)
Definition taskPoll_rest (got : Res unit) (sched : list (list Step))
    (during after : list Step) : M PollEnd :=
  match got with
  | Ret _ => ret tt
  | Throw e => log "[alert-operator] task retrieval error" [("message", VStr e)]
  end ;;
  idle <- isIdle ;;
  (if idle : bool then call EOnIdle (onIdle h) else call EOnWorking (onWorking h)) ;;
  exit <- (fun w => (exitRequest h, w)) ;;
  if String.eqb exit "immediate" then immediateExit sched during after
  else if String.eqb exit "graceful" then gracefulExit during after
  else ret Returned.

(** The callback of the poll timer, from the same point:
    [this.taskPoll().catch(err => ...).then(() => this.scheduleTaskPoll())].
    The [catch] handler runs one turn after [taskPoll] has settled, the
    [then] handler one turn later; [None] when [taskPoll] has not
    settled. *)
Definition pollTimeout_rest (got : Res unit) (sched : list (list Step))
    (during after settled handled : list Step) : M (option bool) :=
  r <- attempt (taskPoll_rest got sched during after) ;;
  match r with
  | Ret StillWaiting => ret None
  | _ =>
      yield settled ;;
      match r with
      | Throw err => log "error polling tasks" [("message", VStr err)]
      | Ret _ => ret tt
      end ;;
      yield handled ;;
      armed <- scheduleTaskPoll ;;
      ret (Some armed)
  end.

End Listener.

End Async.

(** * Specification vocabulary

    Events of one call, closed forms of the states the methods leave, and
    the classes of events used to frame what a computation can emit. *)

(** The three counters [recordCapacity] emits, as read off a state. *)
Definition capacityCounters (w : TaskListener) : list Event :=
  [ECount "capacity.idle" (lastKnownCapacity w);
   ECount "capacity.runningTasks" (Z.of_nat (length (runningTasks w)));
   ECount "capacity.total" (lastKnownCapacity w + Z.of_nat (length (runningTasks w)))].

Definition recordEvents (rt : Runtime) (w : TaskListener) : list Event :=
  EMeasure "capacity.duration.lastTaskEvent" (clock rt (ticks w) - lastTaskEvent w)
  :: capacityCounters w.

Definition removalWarning (rs : RunningState) : Event :=
  ELog "[warning] running task removal error"
    [("taskId", VStr (taskId rs)); ("runId", VNum (runId rs));
     ("err", VStr "Could not find the task Id in the list of running tasks")].

(** The events of one [removeRunningTask]. *)
Definition removeEvents (rt : Runtime) (rs : RunningState) (w : TaskListener) : list Event :=
  match findIndex (same_run rs) (runningTasks w) with
  | None => removalWarning rs :: map ERelease (leases rs)
  | Some _ => recordEvents rt w ++ map ERelease (leases rs)
  end.

(** The state one [removeRunningTask] leaves. *)
Definition removed (rt : Runtime) (rs : RunningState) (w : TaskListener) : TaskListener :=
  match findIndex (same_run rs) (runningTasks w) with
  | None => set_trace (trace w ++ removeEvents rt rs w) w
  | Some i =>
      {| capacity := capacity w; restrictCPU := restrictCPU w;
         runningTasks := splice1 i (runningTasks w);
         lastKnownCapacity := lastKnownCapacity w + 1;
         totalRunTime := totalRunTime w + (clock rt (S (S (ticks w))) - startTime rs);
         lastTaskEvent := clock rt (S (ticks w));
         paused := paused w;
         trace := trace w ++ removeEvents rt rs w;
         ticks := S (S (S (ticks w))) |}
  end.

(** The device capacity [availableCapacity] works with: the probe's answer,
    or 0 when the probe throws. *)
Definition deviceCapacityOf (rt : Runtime) : Z :=
  match getAvailableCapacity rt with
  | Ret d => d
  | Throw _ => 0
  end.

Definition runningCapacityOf (w : TaskListener) : Z :=
  Z.max (capacity w - Z.of_nat (length (runningTasks w))) 0.

Definition admissible (rt : Runtime) (w : TaskListener) : Z :=
  Z.min (runningCapacityOf w) (deviceCapacityOf rt).

Definition probeAlert (rt : Runtime) : list Event :=
  match getAvailableCapacity rt with
  | Ret _ => []
  | Throw e =>
      [ELog "[alert-operator] error determining device capacity" [("message", VStr e)]]
  end.

Definition adjustedInfo (rt : Runtime) (w : TaskListener) : list Event :=
  if admissible rt w <? runningCapacityOf w
  then [ELog "[info] host capacity adjusted"
          [("Device", VNum (deviceCapacityOf rt));
           ("Running", VNum (runningCapacityOf w));
           ("Adjusted Host Capacity", VNum (admissible rt w))]]
  else [].

(** The events of one [cancelTask]. *)
Definition cancelEvents (message : Message) (w : TaskListener) : list Event :=
  match index (m_runs message) (m_runId message) with
  | None => []
  | Some run =>
      if is_canceled (reasonResolved run) then
        match find_by_handler (m_taskId message) (m_runId message) (runningTasks w) with
        | Throw _ => []
        | Ret None => [EDebug "task not found to cancel"]
        | Ret (Some (state, h)) =>
            ELog "cancelling task" [("taskId", VStr (m_taskId message))]
            :: ECancel h "canceled" :: map ERelease (leases state)
        end
      else []
  end.

(** [emits P m]: whatever the state, [m] only appends to the trace, and
    only events that satisfy [P]. *)
Definition emits {A} (P : Event -> Prop) (m : M A) : Prop :=
  forall w, exists evs, trace (snd (m w)) = trace w ++ evs /\ Forall P evs.

(** Events that are neither lifecycle events nor calls of a handler or of
    the poll cycle's collaborators: logs, measures, counters other than
    spotTermination and task.error, device leases and releases. *)
Definition quiet_event (e : Event) : bool :=
  match e with
  | ELog _ _ | EDebug _ | EMeasure _ _ | EGetDevice _ | ERelease _ => true
  | ECount n _ => negb (String.eqb n "spotTermination") && negb (String.eqb n "task.error")
  | _ => false
  end.

(** The events a task runner can emit: the quiet ones, lifecycle events,
    the start of the handler and the task.error counter. *)
Definition runner_event (e : Event) : bool :=
  match e with
  | ELogEvent _ _ _ | EStart _ => true
  | ECount n _ => negb (String.eqb n "spotTermination")
  | _ => quiet_event e
  end.

Definition quiet (e : Event) : Prop := quiet_event e = true.
Definition runner_only (e : Event) : Prop := runner_event e = true.

Definition taskError (claim : Claim) (e : string) : Event :=
  ELog "task error"
    [("taskId", VStr (c_taskId claim)); ("runId", VUndef); ("message", VStr e)].

(** What [runTask_resume] emits after the retirement: the error log when
    [start()] threw, then the task.error counter. *)
Definition resumeTail (p : Pending) (started : Res unit) : list Event :=
  match started with
  | Ret _ => []
  | Throw e => [taskError (p_claim p) e]
  end ++ [ECount "task.error" 1].

Definition any_event (e : Event) : Prop := True.

(** The arguments of the calls of [gc.sweep] in a trace, in order. *)
Definition sweeps (evs : list Event) : list bool :=
  flat_map (fun e => match e with ESweep full => [full] | _ => [] end) evs.

Definition not_sweep (e : Event) : Prop :=
  match e with ESweep _ => False | _ => True end.

(** [getTasks] from the disk probe on. *)
Definition afterSweep (rt : Runtime) (availableCapacity' : Z) : M (list Pending) :=
  exceedsThreshold <-
    call (EDiskProbe availableCapacity')
      (exceedsDiskspaceThreshold rt availableCapacity') ;;
  if exceedsThreshold : bool then
    debug "not calling claimWork because not enough disk space" ;;
    ret []
  else
    claims <- call (EClaimWork availableCapacity') (claimWork rt availableCapacity') ;;
    if negb (Nat.eqb (length claims) 0) then
      call EPurgeCaches (purgeCaches rt) ;;
      launch rt claims
    else ret [].

(** The calls one iteration of the abort loop makes on the handler: the
    abort, and the debug record when it throws (or when the state has no
    handler to call). *)
Definition abortCall (rt : Runtime) (state : RunningState) : list Event :=
  match handler state with
  | None =>
      [EDebug ("error aborting with worker-shutdown: "
               ++ "TypeError: Cannot read properties of undefined (reading 'abort')")%string]
  | Some h =>
      EAbort h "worker-shutdown"
      :: match abort rt h with
         | Ret _ => []
         | Throw e => [EDebug ("error aborting with worker-shutdown: " ++ e)%string]
         end
  end.

(** The events of the abort loop over a registry: for each entry in turn
    the abort of its handler, then the release of its leases. *)
Definition abortEvents (rt : Runtime) (rts : list RunningState) : list Event :=
  flat_map (fun state => abortCall rt state ++ map ERelease (leases state)) rts.

Definition shutdownEvents : list Event :=
  [ELog "shutdown" []; ELogEvent "instanceShutdown" None None; ELog "exit" [];
   EHostShutdown].

(** What happens while the wait loop waits: 100 ms sleeps, and whatever the
    runners that settle meanwhile emit. *)
Definition wait_only (e : Event) : Prop := e = ESleep 100 \/ runner_only e.

(** Events other than the host shutdown and the spotTermination counter. *)
Definition cycle_event (e : Event) : bool :=
  match e with
  | EHostShutdown => false
  | ECount n _ => negb (String.eqb n "spotTermination")
  | _ => true
  end.

Definition before_exit (e : Event) : Prop := cycle_event e = true.

(** The devices whose [release()] is called in a trace, in order. *)
Definition device_releases (evs : list Event) : list Device :=
  flat_map (fun e => match e with ERelease d => [d] | _ => [] end) evs.

(** What can happen to a registered state while its runner is suspended: a
    cancellation message is handled, or the abort loop of an immediate
    shutdown runs. *)
Inductive Interference :=
| ICancel (message : Message)
| IAbortAll.

(** The state a cancellation message reaches, if any. *)
Definition cancel_target (message : Message) (rts : list RunningState)
  : option RunningState :=
  match index (m_runs message) (m_runId message) with
  | None => None
  | Some run =>
      if is_canceled (reasonResolved run) then
        match find_by_handler (m_taskId message) (m_runId message) rts with
        | Ret (Some (state, _)) => Some state
        | _ => None
        end
      else None
  end.

(** The states of a registry an interference reaches. *)
Definition reached (rts : list RunningState) (a : Interference) : list RunningState :=
  match a with
  | ICancel message =>
      match cancel_target message rts with
      | Some state => [state]
      | None => []
      end
  | IAbortAll => rts
  end.

(** * Runs of the listener *)

(** What happens to a listener between two observations: a poll cycle, a
    step of a runner, or a cancellation message. *)
Inductive Action :=
| APoll (rt : Runtime) (sched : Schedule)
| AStep (rt : Runtime) (step : RunnerStep)
| ACancel (message : Message).

Definition act (a : Action) (w : TaskListener) : TaskListener :=
  match a with
  | APoll rt sched => exec (taskPoll rt sched) w
  | AStep rt step => exec (runnerStep rt step) w
  | ACancel message => exec (cancelTask message) w
  end.

Fixpoint run (actions : list Action) (w : TaskListener) : TaskListener :=
  match actions with
  | [] => w
  | a :: actions' => run actions' (act a w)
  end.

(** [preserves I m]: a state that satisfies [I] still does after [m]. *)
Definition preserves {A} (I : TaskListener -> Prop) (m : M A) : Prop :=
  forall w, I w -> I (snd (m w)).

(** A property of the state that does not look at the trace or at the
    clock readings. *)
Definition silent_blind (I : TaskListener -> Prop) : Prop :=
  (forall t w, I w -> I (set_trace t w))
  /\ (forall n w, I w -> I (set_ticks n w))
  /\ (forall v w, I w -> I (set_lastTaskEvent v w))
  /\ (forall v w, I w -> I (set_totalRunTime v w))
  /\ (forall v w, I w -> I (set_lastKnownCapacity v w)).

(** A property of the state that does not look at the trace or at the
    clock readings, but may look at the counters. *)
Definition clock_blind (I : TaskListener -> Prop) : Prop :=
  (forall t w, I w -> I (set_trace t w))
  /\ (forall n w, I w -> I (set_ticks n w))
  /\ (forall v w, I w -> I (set_lastTaskEvent v w)).

(** [yields Q m]: whatever [m] returns satisfies [Q]. *)
Definition yields {A} (Q : A -> Prop) (m : M A) : Prop :=
  forall w a, fst (m w) = Ret a -> Q a.


(** The calls of the poll cycle's gates. *)
Definition gate_call (e : Event) : bool :=
  match e with
  | EProbe | ESweep _ | EDiskProbe _ | EClaimWork _ | EPurgeCaches => true
  | _ => false
  end.

Definition not_gate (e : Event) : Prop := gate_call e = false.

(** The arguments of the calls of [claimWork] in a trace, in order. *)
Definition claimCalls (evs : list Event) : list Z :=
  flat_map (fun e => match e with EClaimWork n => [n] | _ => [] end) evs.

(** Every registered state has its handler. *)
Definition handlers_set (w : TaskListener) : Prop :=
  Forall (fun st => handler st <> None) (runningTasks w).

(** A property of the state that the runners keep: it does not look at the
    trace, the clock or the counters, and it survives the admission of a
    state that has its handler and the removal of an entry. *)
Definition kept_by_runners (I : TaskListener -> Prop) : Prop :=
  silent_blind I
  /\ (forall rs w, handler rs <> None -> I w ->
        I (set_runningTasks (runningTasks w ++ [rs]) w))
  /\ (forall i w, I w -> I (set_runningTasks (splice1 i (runningTasks w)) w)).

(** A property of the state that all the writes of the listener keep: those
    of the runners, the zeroing of the capacity and the setting of the
    pause flag. *)
Definition kept_by_writes (I : TaskListener -> Prop) : Prop :=
  kept_by_runners I
  /\ (forall w, I w -> I (set_capacity 0 w))
  /\ (forall w, I w -> I (set_paused true w)).

(** The calls of the gates in a trace, in order. *)
Definition gateCalls (evs : list Event) : list Event := filter gate_call evs.

(** The gate calls [getTasks] makes after the sweep has returned, for the
    admissible capacity [v]: the disk probe, then [claimWork] when the disk
    is below the threshold, then [purgeCaches] when some claim came back. *)
Definition gatesAfterSweep (rt : Runtime) (v : Z) : list Event :=
  EDiskProbe v
  :: match exceedsDiskspaceThreshold rt v with
     | Ret false =>
         EClaimWork v
         :: match claimWork rt v with
            | Ret (_ :: _) => [EPurgeCaches]
            | _ => []
            end
     | _ => []
     end.

(** The gate calls of one poll cycle that starts in [w]. *)
Definition gatesOfCycle (rt : Runtime) (w : TaskListener) : list Event :=
  EProbe
  :: (if admissible rt w =? 0 then []
      else
        ESweep (Nat.eqb (length (runningTasks w)) 0)
        :: match sweep rt (Nat.eqb (length (runningTasks w)) 0) with
           | Ret _ => gatesAfterSweep rt (admissible rt w)
           | Throw _ => []
           end).

(** The device capacity every poll of a run works with is not negative. *)
Definition probes_not_negative (actions : list Action) : Prop :=
  Forall (fun a => match a with
                   | APoll rt _ => 0 <= deviceCapacityOf rt
                   | _ => True
                   end) actions.

(** What a poll cycle can emit before it reaches the exit switch: anything
    but the calls on a handler's [abort] and [cancel], the waits, the host
    shutdown and the spotTermination counter. *)
Definition poll_event (e : Event) : bool :=
  match e with
  | EAbort _ _ | ECancel _ _ | ESleep _ | EHostShutdown => false
  | ECount n _ => negb (String.eqb n "spotTermination")
  | _ => true
  end.

Definition poll_only (e : Event) : Prop := poll_event e = true.

(** The reports to the shutdown manager in a trace, in order: [true] for
    [onIdle()], [false] for [onWorking()]. *)
Definition reports (evs : list Event) : list bool :=
  flat_map (fun e => match e with
                     | EOnIdle => [true]
                     | EOnWorking => [false]
                     | _ => []
                     end) evs.

Definition not_report (e : Event) : Prop :=
  match e with EOnIdle | EOnWorking => False | _ => True end.

(** The number of poll cycles in a run. *)
Definition polls (actions : list Action) : nat :=
  length (filter (fun a => match a with APoll _ _ => true | _ => false end) actions).

(** The time the running tasks have run, each measured with a clock
    reading of its own, the first one being reading [n]. *)
Fixpoint runTimes (rt : Runtime) (n : nat) (tasks : list RunningState) : Z :=
  match tasks with
  | [] => 0
  | task :: tasks' => (clock rt n - startTime task) + runTimes rt (S n) tasks'
  end.

(** [devices[key] = device] for each lease in turn, from the object [o]. *)
Definition held (leased o : list (string * Device)) : list (string * Device) :=
  fold_left (fun o kd => obj_set (fst kd) (snd kd) o) leased o.

(** The value of the capacity.total counter: idle plus busy. *)
Definition idlePlusBusy (w : TaskListener) : Z :=
  lastKnownCapacity w + Z.of_nat (length (runningTasks w)).

(** The handlers whose [start()] is called in a trace, in order. *)
Definition starts (evs : list Event) : list Task :=
  flat_map (fun e => match e with EStart h => [h] | _ => [] end) evs.

(** * The listener with its suspensions: vocabulary *)

(** No [release()] throws; no [handler.cancel()] throws. *)
Definition releases_return (h : Host) : Prop := forall t d, release h t d = Ret tt.
Definition cancels_return (h : Host) : Prop := forall t x, cancel h t x = Ret tt.

(** [o[k]] *)
Fixpoint obj_get {V} (k : string) (o : list (string * V)) : option V :=
  match o with
  | [] => None
  | (k', v) :: r => if String.eqb k' k then Some v else obj_get k r
  end.

(** The events of other activities: those of runners, and the calls of
    [handler.cancel]. *)
Definition other_event (e : Event) : bool :=
  match e with
  | ECancel _ _ => true
  | _ => runner_event e
  end.

Definition other_only (e : Event) : Prop := other_event e = true.

(** The events of one [removeRunningTask]. *)
Definition removal_events (h : Host) (rs : RunningState) (w : TaskListener)
  : list Event :=
  match findIndex (same_run rs) (runningTasks w) with
  | None => removalWarning rs :: map ERelease (held_devices rs)
  | Some _ => recordEvents (runtime h) w ++ map ERelease (held_devices rs)
  end.

(** The state one [removeRunningTask] leaves when no release throws. *)
Definition retired (h : Host) (rs : RunningState) (w : TaskListener) : TaskListener :=
  set_trace (trace w ++ removal_events h rs w) (removed (runtime h) rs w).

(** The record of the [catch] block. *)
Definition catchLog (claim : Claim) (task : option TaskDef) (e : string) : Event :=
  match task with
  | Some _ => taskError claim e
  | None => ELog "task error" [("message", VStr e)]
  end.

(** The events of the abort loop over a registry when no release throws:
    for each entry in turn the abort of its handler, then the release of
    the devices it holds. *)
Definition abort_events (h : Host) (rts : list RunningState) : list Event :=
  flat_map (fun state =>
              abortCall (runtime h) state ++ map ERelease (held_devices state)) rts.

(** The events of the waits of the wait loop, from the events of each
    round. *)
Definition wait_events (rounds : list (list Event)) : list Event :=
  flat_map (fun round => ESleep 100 :: round) rounds.

(** What can reach a registered state while its runner is suspended at
    [start()]: the handling of a cancellation message, or the abort loop
    of an immediate shutdown. *)
Definition async_interfere (h : Host) (a : Interference) : M unit :=
  match a with
  | ICancel message => Async.cancelTask h message
  | IAbortAll => Async.abortRunningTasks h
  end.

Fixpoint async_interfere_all (h : Host) (acts : list Interference) (w : TaskListener)
  : TaskListener :=
  match acts with
  | [] => w
  | a :: acts' => async_interfere_all h acts' (exec (async_interfere h a) w)
  end.

(** A step of [runTask] that starts or continues the setup. *)
Inductive SetupStep :=
| Begin (claim : Claim)
| Continue (claim : Claim) (task : TaskDef) (runningState : RunningState)
    (options : Options) (odevs : list (string * Device)) (device : string)
    (answer : Res Device) (rest : list string).

Definition setupStep (h : Host) (s : SetupStep) : M Runner :=
  match s with
  | Begin claim => Async.runTask_begin h claim
  | Continue claim task runningState options odevs device answer rest =>
      Async.resumeRunner h
        (Leasing claim task runningState options odevs device answer rest) (Ret tt)
  end.

(** The events of [taskPoll] from the point where [getTasks] has settled
    with [got] to the switch on [shouldExit()]. *)
Definition reportEvents (got : Res unit) (w : TaskListener) : list Event :=
  match got with
  | Ret _ => []
  | Throw e => [ELog "[alert-operator] task retrieval error" [("message", VStr e)]]
  end
  ++ [if Nat.eqb (length (runningTasks w)) 0 then EOnIdle else EOnWorking].

(** What the shutdown manager answers to the report sent from a state. *)
Definition reportAnswer (h : Host) (w : TaskListener) : Res unit :=
  if Nat.eqb (length (runningTasks w)) 0 then onIdle h else onWorking h.

(** The state in which the switch is reached. *)
Definition atSwitch (got : Res unit) (w : TaskListener) : TaskListener :=
  set_trace (trace w ++ reportEvents got w) w.


(** What [runTask] records before it leases the "cpu" device. *)
Definition beginEvents (h : Host) (claim : Claim) (task : TaskDef) (w : TaskListener)
  : list Event :=
  ELog "run task" [("taskId", VStr (c_taskId claim)); ("runId", VNum (c_runId claim))]
  :: (if Nat.eqb (length (c_runs claim)) 0
      then [EMeasure "timeToFirstClaim" (clock (runtime h) (S (ticks w)) - created task)]
      else []).

(** The running state a setup step taken from [w] has built when it ends:
    the state it started with, holding in addition the handle it has been
    given. *)
Definition built (h : Host) (s : SetupStep) (w : TaskListener) : RunningState :=
  match s with
  | Begin claim =>
      let runningState :=
        {| startTime := clock (runtime h) (ticks w); devices := [];
           taskId := c_taskId claim; runId := c_runId claim; handler := None |} in
      match c_task claim with
      | None => runningState
      | Some task =>
          if restrictCPU w then
            match lease h (trace w ++ beginEvents h claim task w) "cpu" with
            | Ret d => set_device "cpu" d runningState
            | Throw _ => runningState
            end
          else runningState
      end
  | Continue _ _ runningState _ _ device answer _ =>
      match answer with
      | Ret d => set_device device d runningState
      | Throw _ => runningState
      end
  end.

(** The registry once [removeRunningTask(st)] has run on it: the first
    entry with the task and run of [st] has left. *)
Definition without_first (st : RunningState) (rts : list RunningState)
  : list RunningState :=
  match findIndex (same_run st) rts with
  | Some i => splice1 i rts
  | None => rts
  end.

(** How a setup step that has built [st] ends, from [w]: suspended at
    [start()], the state admitted with its handler and nothing released;
    suspended at the next lease, nothing admitted or released; or finished
    through the [catch] block, the devices [st] holds released once and
    nothing admitted. *)
Definition setup_outcome (h : Host) (st : RunningState) (w : TaskListener)
    (run : Res Runner * TaskListener) : Prop :=
  exists evs,
    trace (snd run) = trace w ++ evs
    /\ match fst run with
       | Ret (Started p) =>
           p_state p = set_handler (p_handler p) st
           /\ runningTasks (snd run) = runningTasks w ++ [p_state p]
           /\ device_releases evs = []
       | Ret (Leasing _ _ runningState _ _ _ _ _) =>
           runningState = st
           /\ runningTasks (snd run) = runningTasks w
           /\ device_releases evs = []
       | Ret Finished =>
           device_releases evs = held_devices st
           /\ runningTasks (snd run) = without_first st (runningTasks w)
           /\ countOf "task.error" evs = 1
       | Throw _ => False
       end.

(** Events other than the call of the host's [shutdown()]. *)
Definition not_shutdown (e : Event) : Prop := e <> EHostShutdown.

(** Events other than an abort, a wait and the spotTermination counter. *)
Definition calm_event (e : Event) : bool :=
  match e with
  | EAbort _ _ | ESleep _ => false
  | ECount n _ => negb (String.eqb n "spotTermination")
  | _ => true
  end.

Definition calm (e : Event) : Prop := calm_event e = true.

(** What happens to a listener between two observations, with its
    suspensions: a poll cycle from the point where [getTasks] has settled,
    the launch of the runners of some claims, or a step of another
    activity; each with the collaborators as they answer at that time. *)
Inductive Activity :=
| DoPoll (h : Host) (got : Res unit) (sched : list (list Step))
    (during after : list Step)
| DoLaunch (h : Host) (claims : list Claim)
| DoStep (h : Host) (s : Step).

Definition perform (a : Activity) (w : TaskListener) : TaskListener :=
  match a with
  | DoPoll h got sched during after =>
      exec (Async.taskPoll_rest h got sched during after) w
  | DoLaunch h claims => exec (Async.launch h claims) w
  | DoStep h s => exec (Async.step h s) w
  end.

Fixpoint perform_all (acts : list Activity) (w : TaskListener) : TaskListener :=
  match acts with
  | [] => w
  | a :: acts' => perform_all acts' (perform a w)
  end.

(** One of the gates [getTasks] passes after the capacity check throws
    [e]: the sweep; or, the sweep having returned, the disk probe; or, the
    disk being below the threshold, [claimWork]; or, [claimWork] having
    handed out claims, [purgeCaches]. *)
Definition gate_fails (rt : Runtime) (w : TaskListener) (e : string) : Prop :=
  let v := admissible rt w in
  let full := Nat.eqb (length (runningTasks w)) 0 in
  sweep rt full = Throw e
  \/ (exists u, sweep rt full = Ret u)
     /\ (exceedsDiskspaceThreshold rt v = Throw e
         \/ exceedsDiskspaceThreshold rt v = Ret false
            /\ (claimWork rt v = Throw e
                \/ (exists c claims, claimWork rt v = Ret (c :: claims))
                   /\ purgeCaches rt = Throw e)).

(** The payload devices a claim names. *)
Definition payloadKeys (claim : Claim) : list string :=
  match c_task claim with
  | Some task =>
      match capabilities task with
      | Some {| cap_devices := Some keys |} => keys
      | _ => []
      end
  | None => []
  end.

(** The three ways [runTask] goes on once its state is built. *)
Inductive Continuation (h : Host) (claim : Claim) (st : RunningState)
  : M Runner -> Prop :=
| ToCatch (task : option TaskDef) (e : string) :
    Continuation h claim st (Async.runTask_catch h claim st task e)
| ToAdmit (task : TaskDef) (options : Options) :
    Continuation h claim st (Async.admitTask h claim task st options)
| ToLease (task : TaskDef) (options : Options) :
    Continuation h claim st
      (Async.leaseNext h claim task st options [] (payloadKeys claim)).

(** The leases a trace shows after the history [t]: the key and the handle
    of every call of [getDevice] that answered. *)
Fixpoint leasedIn (h : Host) (t evs : list Event) : list (string * Device) :=
  match evs with
  | [] => []
  | e :: evs' =>
      match e with
      | EGetDevice kind =>
          match lease h t kind with
          | Ret d => [(kind, d)]
          | Throw _ => []
          end
      | _ => []
      end ++ leasedIn h (t ++ [e]) evs'
  end.

(** Events other than a call of [getDevice]. *)
Definition no_lease (e : Event) : Prop :=
  match e with EGetDevice _ => False | _ => True end.

(** [runTask] with nothing interleaved: every suspended step resumes at
    once, [start()] settling with [started]. *)
Fixpoint runAlone (h : Host) (fuel : nat) (r : Runner) (started : Res unit)
  : M Runner :=
  match fuel with
  | O => ret r
  | S fuel' =>
      match r with
      | Finished => ret Finished
      | _ => r' <- Async.resumeRunner h r started ;; runAlone h fuel' r' started
      end
  end.

Definition runTaskAlone (h : Host) (claim : Claim) (started : Res unit) : M Runner :=
  r <- Async.runTask_begin h claim ;;
  runAlone h (S (length (payloadKeys claim))) r started.

(** The steps a suspended runner still has to take. *)
Definition rank (r : Runner) : nat :=
  match r with
  | Leasing _ _ _ _ _ _ _ rest => S (S (length rest))
  | Started _ => 1
  | Finished => 0
  end.

(** A runner that has run alone since the history [t0]: a state in its
    setup holds the latest handle of each key leased so far, and nothing
    has been released; a pending lease has been answered from the history
    of its call; a runner that is over has released what its state held. *)
Definition setup_tracked (h : Host) (t0 : list Event) (st : RunningState)
    (w : TaskListener) : Prop :=
  exists evs,
    trace w = t0 ++ evs /\ device_releases evs = []
    /\ devices st = held (leasedIn h t0 evs) [].

Definition released_held (h : Host) (t0 : list Event) (w : TaskListener) : Prop :=
  exists evs,
    trace w = t0 ++ evs
    /\ device_releases evs = map snd (own_entries (held (leasedIn h t0 evs) [])).

Definition alone (h : Host) (t0 : list Event) (r : Runner) (w : TaskListener) : Prop :=
  match r with
  | Leasing _ _ runningState _ _ device answer _ =>
      exists evs,
        trace w = t0 ++ evs ++ [EGetDevice device] /\ device_releases evs = []
        /\ devices runningState = held (leasedIn h t0 evs) []
        /\ answer = lease h (t0 ++ evs) device
  | Started p => setup_tracked h t0 (p_state p) w
  | Finished => released_held h t0 w
  end.

(** The handlers of the runners suspended at [start()], and the number of
    runners that are over. *)
Definition started_handlers (runners : list Runner) : list Task :=
  flat_map (fun r => match r with Started p => [p_handler p] | _ => [] end) runners.

Definition finished (runners : list Runner) : nat :=
  length (filter (fun r => match r with Finished => true | _ => false end) runners).

(** The claim a runner works on. *)
Definition works_on (claim : Claim) (r : Runner) : Prop :=
  match r with
  | Leasing claim' _ _ _ _ _ _ _ => claim' = claim
  | Started p => p_claim p = claim
  | Finished => True
  end.

(** What a step of the runner of [claim] taken from [w] accounts for: the
    sum of idle and busy slots is raised by one exactly when the step ends
    suspended at [start()], which has then been called once, on the
    runner's handler; and task.error is counted once exactly when the step
    ends the runner. *)
Definition step_accounts (claim : Claim) (w : TaskListener)
    (run : Res Runner * TaskListener) : Prop :=
  exists evs,
    trace (snd run) = trace w ++ evs
    /\ idlePlusBusy (snd run)
       = idlePlusBusy w + match fst run with Ret (Started _) => 1 | _ => 0 end
    /\ starts evs = match fst run with Ret (Started p) => [p_handler p] | _ => [] end
    /\ match fst run with
       | Ret Finished => countOf "task.error" evs = 1
       | Ret r => countOf "task.error" evs = 0 /\ works_on claim r
       | Throw _ => countOf "task.error" evs = 0
       end.

(** * Scenarios *)

(** A handler constructor that keeps the claim's status and run id. *)
Definition mkTask (c : Claim) (o : Options) : Task :=
  {| h_taskId := c_taskId c; h_runId := c_runId c; h_options := o |}.

Definition claimA : Claim :=
  {| c_taskId := "A"; c_runs := []; c_runId := 0;
     c_task := Some {| created := 5;
                       capabilities := Some {| cap_devices := Some ["kvm"] |} |} |}.

Definition claimB : Claim :=
  {| c_taskId := "B"; c_runs := []; c_runId := 0;
     c_task := Some {| created := 6; capabilities := None |} |}.

(** A device manager handing out one handle per kind. *)
Definition deviceOf (kind : string) : Device :=
  {| dev_id := if String.eqb kind "cpu" then 1 else 2 |}.

(** S1: device capacity 4, disk below the threshold, [claimWork] answers
    with the claims A and B, no shutdown requested. *)
Definition rtS1 : Runtime :=
  {| getAvailableCapacity := Ret 4;
     getDevice := fun kind => Ret (deviceOf kind);
     sweep := fun _ => Ret tt;
     exceedsDiskspaceThreshold := fun _ => Ret false;
     claimWork := fun _ => Ret [claimA; claimB];
     purgeCaches := Ret tt;
     shouldExit := "none";
     newTask := fun claim options => Ret (mkTask claim options);
     abort := fun _ => Ret tt;
     hostShutdown := Ret tt;
     clock := fun n => 100 + Z.of_nat n |}.

(** S1 with configured capacity 2: one poll cycle admits both claims, then
    both handlers' [start()] resolve. *)
Definition runS1 : TaskListener :=
  let w0 := constructor 2 false 0 in
  match taskPoll rtS1 [] w0 with
  | (Ret launched, w1) =>
      exec (forM_ launched (fun p => runTask_resume rtS1 p (Ret tt))) w1
  | (Throw _, w1) => w1
  end.

(** A registered state with one cpu lease, and its suspended runner. *)
Definition stateS5 (tid : string) (dev : nat) : RunningState :=
  {| startTime := 10; devices := [("cpu", {| dev_id := dev |})]; taskId := tid;
     runId := 0;
     handler := Some {| h_taskId := tid; h_runId := 0; h_options := noOptions |} |}.

Definition pendingS5 (tid : string) (dev : nat) : Pending :=
  {| p_claim := {| c_taskId := tid; c_runs := []; c_runId := 0;
                   c_task := Some {| created := 5; capabilities := None |} |};
     p_task := {| created := 5; capabilities := None |};
     p_state := stateS5 tid dev;
     p_handler := {| h_taskId := tid; h_runId := 0; h_options := noOptions |} |}.

(** S5: three running states X, Y, Z; [shouldExit()] answers "immediate";
    the abort of Y's handler throws.  During the first wait X's runner
    settles, during the second Y's (its [start()] throwing) and Z's. *)
Definition rtS5 : Runtime :=
  {| getAvailableCapacity := Ret 4;
     getDevice := fun kind => Ret (deviceOf kind);
     sweep := fun _ => Ret tt;
     exceedsDiskspaceThreshold := fun _ => Ret false;
     claimWork := fun _ => Ret [];
     purgeCaches := Ret tt;
     shouldExit := "immediate";
     newTask := fun claim options => Ret (mkTask claim options);
     abort := fun h => if String.eqb (h_taskId h) "Y"
                       then Throw "Error: container already gone" else Ret tt;
     hostShutdown := Ret tt;
     clock := fun n => 100 + Z.of_nat n |}.

Definition wS5 : TaskListener :=
  set_runningTasks [stateS5 "X" 1; stateS5 "Y" 2; stateS5 "Z" 3]
    (constructor 3 true 0).

Definition schedS5 : Schedule :=
  [[Settle (pendingS5 "X" 1) (Ret tt)];
   [Settle (pendingS5 "Y" 2) (Throw "Error: aborted");
    Settle (pendingS5 "Z" 3) (Ret tt)]].

(** A cancellation during a run: the runner of claim A is suspended at
    [start()], holding the kvm device; a cancellation message for (A, 0)
    with reasonResolved "canceled" arrives; then [start()] settles. *)
Definition cancelA : Message :=
  {| m_runId := 0; m_taskId := "A";
     m_runs := [{| reasonResolved := Some "canceled" |}] |}.

Definition pendingA : Pending :=
  {| p_claim := claimA;
     p_task := {| created := 5;
                  capabilities := Some {| cap_devices := Some ["kvm"] |} |};
     p_state :=
       {| startTime := 100; devices := [("kvm", deviceOf "kvm")]; taskId := "A";
          runId := 0;
          handler :=
            Some (mkTask claimA
                    {| cpusetCpus := None;
                       opt_devices := Some [("kvm", deviceOf "kvm")] |}) |};
     p_handler :=
       mkTask claimA
         {| cpusetCpus := None; opt_devices := Some [("kvm", deviceOf "kvm")] |} |}.





(** S6: one running state X; [shouldExit()] answers "graceful"; the queue
    would hand out claim B if asked.  With a failing host for the last
    scenario. *)
Definition rtS6 : Runtime :=
  {| getAvailableCapacity := Ret 4;
     getDevice := fun kind => Ret (deviceOf kind);
     sweep := fun _ => Ret tt;
     exceedsDiskspaceThreshold := fun _ => Ret false;
     claimWork := fun _ => Ret [claimB];
     purgeCaches := Ret tt;
     shouldExit := "graceful";
     newTask := fun claim options => Ret (mkTask claim options);
     abort := fun _ => Ret tt;
     hostShutdown := Ret tt;
     clock := fun n => 100 + Z.of_nat n |}.

Definition rtHostDown : Runtime :=
  {| getAvailableCapacity := Ret 4;
     getDevice := fun kind => Ret (deviceOf kind);
     sweep := fun _ => Ret tt;
     exceedsDiskspaceThreshold := fun _ => Ret false;
     claimWork := fun _ => Ret [];
     purgeCaches := Ret tt;
     shouldExit := "graceful";
     newTask := fun claim options => Ret (mkTask claim options);
     abort := fun _ => Ret tt;
     hostShutdown := Throw "Error: host unreachable";
     clock := fun n => 100 + Z.of_nat n |}.

(** A device manager that answers a negative capacity. *)
Definition rtNegative : Runtime :=
  {| getAvailableCapacity := Ret (-1);
     getDevice := fun kind => Ret (deviceOf kind);
     sweep := fun _ => Ret tt;
     exceedsDiskspaceThreshold := fun _ => Ret false;
     claimWork := fun _ => Ret [];
     purgeCaches := Ret tt;
     shouldExit := "none";
     newTask := fun claim options => Ret (mkTask claim options);
     abort := fun _ => Ret tt;
     hostShutdown := Ret tt;
     clock := fun n => 100 + Z.of_nat n |}.

(** A worker whose cache purge fails after the queue has handed out
    claim A. *)
Definition rtPurgeFails : Runtime :=
  {| getAvailableCapacity := Ret 4;
     getDevice := fun kind => Ret (deviceOf kind);
     sweep := fun _ => Ret tt;
     exceedsDiskspaceThreshold := fun _ => Ret false;
     claimWork := fun _ => Ret [claimA];
     purgeCaches := Throw "Error: purge failed";
     shouldExit := "none";
     newTask := fun claim options => Ret (mkTask claim options);
     abort := fun _ => Ret tt;
     hostShutdown := Ret tt;
     clock := fun n => 100 + Z.of_nat n |}.

(** A task that names the "cpu" device among its capabilities. *)
Definition claimCpu : Claim :=
  {| c_taskId := "C"; c_runs := []; c_runId := 0;
     c_task := Some {| created := 7;
                       capabilities := Some {| cap_devices := Some ["cpu"; "kvm"] |} |} |}.

(** ** Scenarios with suspensions *)

(** A device manager that hands out a new handle at every lease: the
    handle's id is the number of leases made so far. *)
Definition leasesBefore (t : list Event) : nat :=
  length (filter (fun e => match e with EGetDevice _ => true | _ => false end) t).

Definition freshLease (t : list Event) (kind : string) : Res Device :=
  Ret {| dev_id := S (leasesBefore t) |}.

(** Collaborators that answer as [rt] does and whose unguarded calls
    return. *)
Definition hostOf (rt : Runtime) : Host :=
  {| runtime := rt;
     lease := freshLease;
     release := fun _ _ => Ret tt;
     cancel := fun _ _ => Ret tt;
     onIdle := Ret tt;
     onWorking := Ret tt;
     exitRequest := Ret (shouldExit rt) |}.

(** The runner of claim A as [getTasks] leaves it on a listener that has
    leased nothing yet: suspended at the lease of "kvm". *)
Definition leasingA : Runner :=
  Leasing claimA
    {| created := 5; capabilities := Some {| cap_devices := Some ["kvm"] |} |}
    {| startTime := 100; devices := []; taskId := "A"; runId := 0; handler := None |}
    noOptions [] "kvm" (Ret {| dev_id := 1 |}) [].

(** S7: X is running and the runner of A is suspended at its lease when
    the immediate exit is taken; X's runner settles during the first wait;
    A's runner resumes while [shutdown] is suspended at [await this.pause()]. *)
Definition wS7 : TaskListener :=
  set_runningTasks [stateS5 "X" 7] (constructor 2 false 0).


Definition duringS7 : list Step := [SResume leasingA (Ret tt)].

(** S8: a worker that restricts the CPUs runs claim C, which names "cpu"
    and "kvm" among its devices.  The runner leases "cpu" twice, the second
    handle replacing the first in its state; it is suspended at the lease
    of "cpu", then at the lease of "kvm", then at [start()]; a cancellation
    message for (C, 0) arrives; then [start()] settles. *)
Definition wS8 : TaskListener := constructor 2 true 0.

Definition taskC : TaskDef :=
  {| created := 7; capabilities := Some {| cap_devices := Some ["cpu"; "kvm"] |} |}.

Definition leasingC1 : Runner :=
  Leasing claimCpu taskC
    {| startTime := 100; devices := [("cpu", {| dev_id := 1 |})]; taskId := "C";
       runId := 0; handler := None |}
    {| cpusetCpus := Some 1%nat; opt_devices := None |}
    [] "cpu" (Ret {| dev_id := 2 |}) ["kvm"].

Definition stateC2 : RunningState :=
  {| startTime := 100; devices := [("cpu", {| dev_id := 2 |})]; taskId := "C";
     runId := 0; handler := None |}.

Definition leasingC2 : Runner :=
  Leasing claimCpu taskC stateC2
    {| cpusetCpus := Some 1%nat; opt_devices := None |}
    [("cpu", {| dev_id := 2 |})] "kvm" (Ret {| dev_id := 3 |}) [].

Definition lastLeaseC : SetupStep :=
  Continue claimCpu taskC stateC2
    {| cpusetCpus := Some 1%nat; opt_devices := None |}
    [("cpu", {| dev_id := 2 |})] "kvm" (Ret {| dev_id := 3 |}) [].

Definition handlerC : Task :=
  mkTask claimCpu
    {| cpusetCpus := Some 1%nat;
       opt_devices := Some [("cpu", {| dev_id := 2 |}); ("kvm", {| dev_id := 3 |})] |}.

Definition pendingC : Pending :=
  {| p_claim := claimCpu; p_task := taskC;
     p_state :=
       {| startTime := 100;
          devices := [("cpu", {| dev_id := 2 |}); ("kvm", {| dev_id := 3 |})];
          taskId := "C"; runId := 0; handler := Some handlerC |};
     p_handler := handlerC |}.

Definition cancelC : Message :=
  {| m_runId := 0; m_taskId := "C";
     m_runs := [{| reasonResolved := Some "canceled" |}] |}.

(** A task that names a device "7": on a worker that restricts the CPUs
    its state holds "cpu" and "7", which [Object.keys] lists as "7",
    "cpu". *)
Definition claim7 : Claim :=
  {| c_taskId := "D"; c_runs := []; c_runId := 0;
     c_task := Some {| created := 8;
                       capabilities := Some {| cap_devices := Some ["7"] |} |} |}.

(** * Verification *)

(** ** Traces *)

Lemma set_trace_id (w : TaskListener) : set_trace (trace w) w = w.
Proof. destruct w; reflexivity. Qed.

Lemma skipn_length_app {A} (l evs : list A) : skipn (length l) (l ++ evs) = evs.
Proof. induction l; simpl; auto. Qed.

Lemma events_since_app (w w' : TaskListener) (evs : list Event) :
  trace w' = trace w ++ evs -> events_since w w' = evs.
Proof.
  intros H. unfold events_since. rewrite H. apply skipn_length_app.
Qed.

Lemma events_since_refl (w : TaskListener) : events_since w w = [].
Proof. apply events_since_app. now rewrite app_nil_r. Qed.

(** Unfold the monad's combinators and compute. *)
Ltac mrun :=
  unfold exec, result, bind, ret, throw, try_catch, try_finally, gets, modify,
    emit, call, attempt, log, debug, logEvent, count, measure, Date_now in *;
  cbn beta iota zeta delta [fst snd] in *.

(** Put traces in the form [trace w ++ evs]. *)
Ltac norm_trace :=
  repeat rewrite <- app_assoc; cbn [app].

Ltac same_state :=
  unfold set_trace, set_capacity, set_runningTasks, set_lastKnownCapacity,
    set_totalRunTime, set_lastTaskEvent, set_paused, set_ticks;
  cbn; norm_trace; try reflexivity.

(** The same for long runs: compute the combinators, the setters and the
    projections innermost first.  To be used on a state that has been
    destructed into its fields. *)
Ltac mcbv :=
  cbv beta iota zeta delta
    [exec result bind ret throw try_catch try_finally gets modify emit call
     attempt log debug logEvent count measure Date_now
     set_trace set_capacity set_runningTasks set_lastKnownCapacity
     set_totalRunTime set_lastTaskEvent set_paused set_ticks
     capacity restrictCPU runningTasks lastKnownCapacity totalRunTime
     lastTaskEvent paused trace ticks fst snd].

(** ** cleanupRunningState *)

Lemma release_loop (l : list (string * Device)) (w : TaskListener) :
  forM_ l (fun kd => emit (ERelease (snd kd))) w
  = (Ret tt, set_trace (trace w ++ map ERelease (map snd l)) w).
Proof.
  revert w. induction l as [|kd l IH]; intros w; simpl.
  - unfold ret. now rewrite app_nil_r, set_trace_id.
  - unfold bind at 1. unfold emit at 1, modify. rewrite IH. f_equal. same_state.
Qed.

Lemma cleanupRunningState_run (st : RunningState) (w : TaskListener) :
  cleanupRunningState (Some st) w
  = (Ret tt, set_trace (trace w ++ map ERelease (leases st)) w).
Proof. unfold cleanupRunningState, leases. apply release_loop. Qed.

(** ** recordCapacity, addRunningTask, removeRunningTask *)

Lemma recordCapacity_run (rt : Runtime) (w : TaskListener) :
  recordCapacity rt w
  = (Ret tt,
     set_lastTaskEvent (clock rt (S (ticks w)))
       (set_ticks (S (S (ticks w)))
          (set_trace (trace w ++ recordEvents rt w) w))).
Proof. unfold recordCapacity. mrun. f_equal. same_state. Qed.

Lemma addRunningTask_run (rt : Runtime) (rs : RunningState) (w : TaskListener) :
  addRunningTask rt rs w
  = (Ret tt,
     set_runningTasks (runningTasks w ++ [rs])
       (set_lastTaskEvent (clock rt (S (ticks w)))
          (set_ticks (S (S (ticks w)))
             (set_trace (trace w ++ recordEvents rt w) w)))).
Proof.
  unfold addRunningTask. unfold bind at 1. rewrite recordCapacity_run.
  reflexivity.
Qed.

Lemma removeRunningTask_run (rt : Runtime) (rs : RunningState) (w : TaskListener) :
  removeRunningTask rt rs w = (Ret tt, removed rt rs w).
Proof.
  unfold removeRunningTask, removed, removeEvents.
  unfold bind at 1, gets at 1.
  destruct (findIndex (same_run rs) (runningTasks w)) as [i|].
  - unfold bind at 1. rewrite recordCapacity_run.
    unfold bind at 1. rewrite cleanupRunningState_run.
    mrun. f_equal. same_state.
  - unfold bind at 1, log, emit, modify.
    rewrite cleanupRunningState_run. f_equal. same_state.
Qed.

Lemma removed_trace (rt : Runtime) (rs : RunningState) (w : TaskListener) :
  trace (removed rt rs w) = trace w ++ removeEvents rt rs w.
Proof.
  unfold removed. destruct (findIndex (same_run rs) (runningTasks w)); reflexivity.
Qed.


Lemma findIndex_Some {A} (p : A -> bool) (l : list A) (i : nat) :
  findIndex p l = Some i ->
  (i < length l)%nat /\ (exists x, nth_error l i = Some x /\ p x = true)
  /\ (forall j y, (j < i)%nat -> nth_error l j = Some y -> p y = false).
Proof.
  revert i. induction l as [|a l IH]; simpl; intros i H; [discriminate|].
  destruct (p a) eqn:E.
  - inversion H; subst. split; [lia|]. split; [exists a; auto|]. intros; lia.
  - destruct (findIndex p l) as [k|]; simpl in H; [|discriminate].
    inversion H; subst. destruct (IH k eq_refl) as (Hk & Hx & Hlt).
    split; [lia|]. split; [exact Hx|].
    intros [|j] y Hj Hy; simpl in Hy.
    + now inversion Hy; subst.
    + apply (Hlt j); auto; lia.
Qed.


(** ** availableCapacity *)

Lemma availableCapacity_run (rt : Runtime) (w : TaskListener) :
  availableCapacity rt w
  = (Ret (admissible rt w),
     set_lastKnownCapacity (admissible rt w)
       (set_trace (trace w ++ EProbe :: probeAlert rt ++ adjustedInfo rt w) w)).
Proof.
  unfold availableCapacity, adjustedInfo, probeAlert, admissible, deviceCapacityOf,
    runningCapacityOf.
  mrun. destruct (getAvailableCapacity rt) as [d|e]; cbn.
  - destruct (Z.min _ d <? _); cbn; f_equal; same_state.
  - destruct (Z.min _ 0 <? _); cbn; f_equal; same_state.
Qed.

(** C1. [availableCapacity] returns
    min(max(capacity - |runningTasks|, 0), deviceCapacity), where
    deviceCapacity is the probe's answer or 0 when the probe throws, and
    stores that value in [lastKnownCapacity]; it returns normally in both
    cases, the registry and the configured capacity are untouched, and the
    calls it makes are the probe, the alert log when the probe throws, and
    the adjustment record when the device capacity is the smaller one. *)
Theorem availableCapacity_spec (rt : Runtime) (w : TaskListener) :
  let w' := exec (availableCapacity rt) w in
  let deviceCapacity :=
    match getAvailableCapacity rt with Ret d => d | Throw _ => 0 end in
  let v := Z.min (Z.max (capacity w - Z.of_nat (length (runningTasks w))) 0)
             deviceCapacity in
  result (availableCapacity rt) w = Ret v
  /\ lastKnownCapacity w' = v
  /\ runningTasks w' = runningTasks w
  /\ capacity w' = capacity w
  /\ events_since w w'
     = EProbe
       :: match getAvailableCapacity rt with
          | Ret _ => []
          | Throw e =>
              [ELog "[alert-operator] error determining device capacity"
                 [("message", VStr e)]]
          end
       ++ adjustedInfo rt w.
Proof.
  cbv zeta. unfold exec, result. rewrite availableCapacity_run. cbn [fst snd].
  repeat split.
  apply events_since_app. reflexivity.
Qed.

(** ** The registry *)

(** C4. [recordCapacity] runs first in [addRunningTask] and, when the entry
    is found, in [removeRunningTask]: the counters capacity.idle,
    capacity.runningTasks and capacity.total it emits are those of the state
    in which the method was entered, the registry is changed only
    afterwards (the new state appended, respectively the found index spliced
    out), and a removal that finds nothing emits no counter and leaves the
    registry as it is.  In a removal the release of the passed leases lies
    between the counters and the splice. *)
Theorem recordCapacity_before_mutation (rt : Runtime) (rs : RunningState) (w : TaskListener) :
  (let w' := exec (addRunningTask rt rs) w in
   runningTasks w' = runningTasks w ++ [rs]
   /\ events_since w w'
      = EMeasure "capacity.duration.lastTaskEvent" (clock rt (ticks w) - lastTaskEvent w)
        :: [ECount "capacity.idle" (lastKnownCapacity w);
            ECount "capacity.runningTasks" (Z.of_nat (length (runningTasks w)));
            ECount "capacity.total"
              (lastKnownCapacity w + Z.of_nat (length (runningTasks w)))])
  /\
  (let w' := exec (removeRunningTask rt rs) w in
   match findIndex (same_run rs) (runningTasks w) with
   | Some i =>
       runningTasks w' = splice1 i (runningTasks w)
       /\ events_since w w'
          = EMeasure "capacity.duration.lastTaskEvent"
              (clock rt (ticks w) - lastTaskEvent w)
            :: [ECount "capacity.idle" (lastKnownCapacity w);
                ECount "capacity.runningTasks" (Z.of_nat (length (runningTasks w)));
                ECount "capacity.total"
                  (lastKnownCapacity w + Z.of_nat (length (runningTasks w)))]
            ++ map ERelease (leases rs)
   | None =>
       runningTasks w' = runningTasks w
       /\ events_since w w' = removalWarning rs :: map ERelease (leases rs)
   end).
Proof.
  split; cbv zeta; unfold exec.
  - rewrite addRunningTask_run. cbn [snd]. split; [reflexivity|].
    apply events_since_app. reflexivity.
  - rewrite removeRunningTask_run. cbn [snd].
    pose proof (removed_trace rt rs w) as Ht.
    unfold removed, removeEvents in *.
    destruct (findIndex (same_run rs) (runningTasks w)) as [i|].
    + split; [reflexivity|]. apply events_since_app. exact Ht.
    + split; [reflexivity|]. apply events_since_app. exact Ht.
Qed.



(** ** cancelTask *)


Lemma find_by_handler_Some (tid : string) (rid : Z) (l : list RunningState)
    (st : RunningState) (h : Task) :
  find_by_handler tid rid l = Ret (Some (st, h)) ->
  In st l /\ handler st = Some h /\ h_taskId h = tid /\ h_runId h = rid.
Proof.
  induction l as [|a l IH]; simpl; [discriminate|].
  destruct (handler a) as [ha|] eqn:Ha; [|discriminate].
  destruct (String.eqb (h_taskId ha) tid && (h_runId ha =? rid)) eqn:E.
  - intros H. inversion H; subst.
    apply andb_true_iff in E. destruct E as [E1 E2].
    apply String.eqb_eq in E1. apply Z.eqb_eq in E2. auto.
  - intros H. destruct (IH H) as (? & ? & ? & ?). auto.
Qed.


Lemma cancelTask_exec (message : Message) (w : TaskListener) :
  exec (cancelTask message) w = set_trace (trace w ++ cancelEvents message w) w.
Proof.
  unfold exec, cancelTask, cancelEvents.
  destruct (index (m_runs message) (m_runId message)) as [run|].
  2:{ cbn. now rewrite app_nil_r, set_trace_id. }
  destruct (is_canceled (reasonResolved run)); cbn [negb].
  2:{ cbn. now rewrite app_nil_r, set_trace_id. }
  unfold bind at 1, gets at 1.
  destruct (find_by_handler _ _ (runningTasks w)) as [[[state h]|]|e].
  - unfold bind at 1, log at 1, emit at 1, modify at 1.
    unfold bind at 1, emit at 1, modify at 1.
    rewrite cleanupRunningState_run. cbn [snd]. same_state.
  - reflexivity.
  - cbn. now rewrite app_nil_r, set_trace_id.
Qed.

(** A message whose referenced run does not exist makes [cancelTask] throw
    before it has done anything. *)
Lemma cancelTask_no_run (message : Message) (w : TaskListener) :
  index (m_runs message) (m_runId message) = None ->
  exists e, cancelTask message w = (Throw e, w).
Proof. intros H. unfold cancelTask. rewrite H. eexists. reflexivity. Qed.



(** C10. [cancelTask] leaves the registry as it is, whatever the message:
    the state after it differs from the state before it in the trace only,
    and every device released by it is a lease of the state the handler
    lookup matched. *)
Theorem cancelTask_keeps_registry (message : Message) (w : TaskListener) :
  let w' := exec (cancelTask message) w in
  runningTasks w' = runningTasks w
  /\ length (runningTasks w') = length (runningTasks w)
  /\ w' = set_trace (trace w') w
  /\ (forall d, In (ERelease d) (events_since w w') ->
        exists state h,
          find_by_handler (m_taskId message) (m_runId message) (runningTasks w)
          = Ret (Some (state, h))
          /\ In state (runningTasks w) /\ In d (leases state)).
Proof.
  cbv zeta. rewrite cancelTask_exec. cbn [runningTasks set_trace trace].
  repeat split.
  intros d Hd.
  rewrite (events_since_app w _ (cancelEvents message w)) in Hd by reflexivity.
  unfold cancelEvents in Hd.
  destruct (index (m_runs message) (m_runId message)) as [run|]; [|destruct Hd].
  destruct (is_canceled (reasonResolved run)); [|destruct Hd].
  destruct (find_by_handler _ _ (runningTasks w)) as [[[state h]|]|e] eqn:Hf.
  - destruct Hd as [Hd|[Hd|Hd]]; try discriminate.
    apply in_map_iff in Hd. destruct Hd as (d' & Heq & Hin).
    inversion Heq; subst.
    exists state, h. split; [reflexivity|].
    split; [apply (find_by_handler_Some _ _ _ _ _ Hf)|assumption].
  - destruct Hd as [Hd|[]]. discriminate.
  - destruct Hd.
Qed.

(** ** Which events a computation can emit *)

Lemma emits_silent {A} (P : Event -> Prop) (m : M A) :
  (forall w, trace (snd (m w)) = trace w) -> emits P m.
Proof. intros H w. exists []. rewrite app_nil_r. auto. Qed.

Lemma emits_ret {A} (P : Event -> Prop) (a : A) : emits P (ret a).
Proof. now apply emits_silent. Qed.

Lemma emits_throw {A} (P : Event -> Prop) (e : string) : emits P (@throw A e).
Proof. now apply emits_silent. Qed.

Lemma emits_gets {A} (P : Event -> Prop) (f : TaskListener -> A) : emits P (gets f).
Proof. now apply emits_silent. Qed.

Lemma emits_lift {A} (P : Event -> Prop) (r : Res A) : emits P (fun w => (r, w)).
Proof. now apply emits_silent. Qed.

Lemma emits_modify (P : Event -> Prop) (f : TaskListener -> TaskListener) :
  (forall w, trace (f w) = trace w) -> emits P (modify f).
Proof. intros H. apply emits_silent. exact H. Qed.

Lemma emits_emit (P : Event -> Prop) (e : Event) : P e -> emits P (emit e).
Proof. intros H w. exists [e]. split; [reflexivity|]. auto. Qed.

Lemma emits_bind {A B} (P : Event -> Prop) (m : M A) (f : A -> M B) :
  emits P m -> (forall a, emits P (f a)) -> emits P (bind m f).
Proof.
  intros Hm Hf w. unfold bind.
  destruct (Hm w) as (e1 & H1 & F1).
  destruct (m w) as [[a|e] w1]; cbn [snd] in *.
  - destruct (Hf a w1) as (e2 & H2 & F2).
    exists (e1 ++ e2). rewrite H2, H1, app_assoc. split; [reflexivity|].
    apply Forall_app; auto.
  - exists e1. auto.
Qed.

Lemma emits_try_catch {A} (P : Event -> Prop) (m : M A) (h : string -> M A) :
  emits P m -> (forall e, emits P (h e)) -> emits P (try_catch m h).
Proof.
  intros Hm Hh w. unfold try_catch.
  destruct (Hm w) as (e1 & H1 & F1).
  destruct (m w) as [[a|e] w1]; cbn [snd] in *.
  - exists e1. auto.
  - destruct (Hh e w1) as (e2 & H2 & F2).
    exists (e1 ++ e2). rewrite H2, H1, app_assoc. split; [reflexivity|].
    apply Forall_app; auto.
Qed.

Lemma emits_try_finally {A} (P : Event -> Prop) (m : M A) (f : M unit) :
  emits P m -> emits P f -> emits P (try_finally m f).
Proof.
  intros Hm Hf w. unfold try_finally.
  destruct (Hm w) as (e1 & H1 & F1).
  destruct (m w) as [r w1]; cbn [snd] in *.
  destruct (Hf w1) as (e2 & H2 & F2).
  exists (e1 ++ e2).
  destruct (f w1) as [[u|e] w2]; cbn [snd] in *;
    rewrite H2, H1, app_assoc; (split; [reflexivity|apply Forall_app; auto]).
Qed.

Lemma emits_attempt {A} (P : Event -> Prop) (m : M A) : emits P m -> emits P (attempt m).
Proof. intros Hm w. exact (Hm w). Qed.

Lemma emits_call {A} (P : Event -> Prop) (e : Event) (r : Res A) : P e -> emits P (call e r).
Proof.
  intros H w. exists [e]. split; [|auto].
  unfold call, bind, emit, modify. reflexivity.
Qed.

Lemma emits_weaken {A} (P : Event -> Prop) (Q : Event -> Prop) (m : M A) :
  (forall e, Q e -> P e) -> emits Q m -> emits P m.
Proof.
  intros HQ Hm w. destruct (Hm w) as (evs & H & F).
  exists evs. split; [exact H|]. eapply Forall_impl; eauto.
Qed.

Lemma emits_forM_ {A} (P : Event -> Prop) (l : list A) (f : A -> M unit) :
  (forall x, emits P (f x)) -> emits P (forM_ l f).
Proof.
  intros Hf. induction l as [|x l IH]; simpl.
  - apply emits_ret.
  - apply emits_bind; auto.
Qed.

Lemma emits_events {A} (P : Event -> Prop) (m : M A) (w : TaskListener) :
  emits P m -> Forall P (events_since w (exec m w)).
Proof.
  intros Hm. destruct (Hm w) as (evs & H & F).
  unfold exec. now rewrite (events_since_app _ _ _ H).
Qed.

(** Break a goal [emits P m] down along the structure of [m]. *)
Ltac emits_step :=
  match goal with
  | |- emits _ (bind _ _) => apply emits_bind; [|intros ?]
  | |- emits _ (ret _) => apply emits_ret
  | |- emits _ (throw _) => apply emits_throw
  | |- emits _ (gets _) => apply emits_gets
  | |- emits _ (modify _) => apply emits_modify; intros ?; reflexivity
  | |- emits _ (emit _) => apply emits_emit
  | |- emits _ (call _ _) => apply emits_call
  | |- emits _ (attempt _) => apply emits_attempt
  | |- emits _ (try_catch _ _) => apply emits_try_catch; [|intros ?]
  | |- emits _ (try_finally _ _) => apply emits_try_finally
  | |- emits _ (forM_ _ _) => apply emits_forM_; intros ?
  | |- emits _ (fun w => (_, w)) => apply emits_lift
  | |- emits _ (if ?b then _ else _) => destruct b
  | |- emits _ (match ?x with _ => _ end) => destruct x
  | |- emits _ (let '(_, _) := ?x in _) => destruct x
  end.

Ltac emits_auto :=
  repeat emits_step; try exact I; try reflexivity; auto.

Lemma quiet_runner (e : Event) : quiet e -> runner_only e.
Proof.
  unfold quiet, runner_only. destruct e; simpl; auto.
  intros H. now apply andb_true_iff in H.
Qed.

Lemma recordCapacity_emits (rt : Runtime) : emits quiet (recordCapacity rt).
Proof. unfold recordCapacity, Date_now, measure, count. emits_auto. Qed.

Lemma cleanupRunningState_emits (state : option RunningState) :
  emits quiet (cleanupRunningState state).
Proof. unfold cleanupRunningState. emits_auto. Qed.

Lemma removeRunningTask_emits (rt : Runtime) (rs : RunningState) :
  emits quiet (removeRunningTask rt rs).
Proof.
  unfold removeRunningTask, log, Date_now.
  pose proof (recordCapacity_emits rt).
  pose proof (cleanupRunningState_emits (Some rs)).
  emits_auto.
Qed.

Lemma runTask_catch_emits (rt : Runtime) (claim : Claim) (rs : RunningState)
    (task : option TaskDef) (e : string) :
  emits quiet (runTask_catch rt claim rs task e).
Proof.
  unfold runTask_catch, log.
  pose proof (removeRunningTask_emits rt rs).
  emits_auto.
Qed.

Lemma runTask_resume_emits (rt : Runtime) (p : Pending) (started : Res unit) :
  emits runner_only (runTask_resume rt p started).
Proof.
  unfold runTask_resume, logEvent, count.
  pose proof (emits_weaken _ _ _ quiet_runner (removeRunningTask_emits rt (p_state p))).
  pose proof (fun e => emits_weaken _ _ _ quiet_runner
                (runTask_catch_emits rt (p_claim p) (p_state p) (Some (p_task p)) e)).
  emits_auto.
Qed.

Lemma leaseDevices_emits (rt : Runtime) (keys : list string) (rs : RunningState)
    (od : list (string * Device)) :
  emits quiet (leaseDevices rt keys rs od).
Proof.
  revert rs od. induction keys as [|k keys IH]; intros rs od; simpl.
  - apply emits_ret.
  - emits_auto.
Qed.

Lemma runTask_setup_emits (rt : Runtime) (claim : Claim) :
  emits quiet (runTask_setup rt claim).
Proof.
  unfold runTask_setup, leaseCpu, leasePayloadDevices, Date_now, log, measure, debug.
  pose proof (leaseDevices_emits rt).
  emits_auto.
Qed.

Lemma runTask_try_emits (rt : Runtime) (claim : Claim) :
  emits runner_only (runTask_try rt claim).
Proof.
  unfold runTask_try, addRunningTask, logEvent.
  pose proof (emits_weaken _ _ _ quiet_runner (recordCapacity_emits rt)).
  pose proof (emits_weaken _ _ _ quiet_runner (runTask_setup_emits rt claim)).
  emits_auto.
Qed.

Lemma runTask_begin_emits (rt : Runtime) (claim : Claim) :
  emits runner_only (runTask_begin rt claim).
Proof.
  unfold runTask_begin, count.
  pose proof (runTask_try_emits rt claim).
  pose proof (fun rs task e =>
                emits_weaken _ _ _ quiet_runner (runTask_catch_emits rt claim rs task e)).
  emits_auto.
Qed.

Lemma launch_emits (rt : Runtime) (claims : list Claim) :
  emits runner_only (launch rt claims).
Proof.
  induction claims as [|c claims IH]; simpl.
  - apply emits_ret.
  - pose proof (runTask_begin_emits rt c). emits_auto.
Qed.

(** ** runTask *)

Lemma leaseDevices_frame (rt : Runtime) (keys : list string) (rs : RunningState)
    (od : list (string * Device)) (w : TaskListener) :
  exists rs' od' r t,
    leaseDevices rt keys rs od w = (Ret (rs', od', r), set_trace t w)
    /\ taskId rs' = taskId rs /\ runId rs' = runId rs.
Proof.
  revert rs od w. induction keys as [|k keys IH]; intros rs od w; simpl.
  - exists rs, od, (Ret tt), (trace w). now rewrite set_trace_id.
  - unfold bind at 1, attempt, call, bind, emit, modify. cbn [fst snd].
    destruct (getDevice rt k) as [d|e].
    + destruct (IH (set_device k d rs) (obj_set k d od)
                  (set_trace (trace w ++ [EGetDevice k]) w))
        as (rs' & od' & r & t & Heq & H1 & H2).
      exists rs', od', r, t. rewrite Heq. auto.
    + exists rs, od, (Throw e), (trace w ++ [EGetDevice k]). auto.
Qed.

Lemma leaseCpu_frame (rt : Runtime) (rs : RunningState) (w : TaskListener) :
  exists rs' o r t,
    leaseCpu rt rs w = (Ret (rs', o, r), set_trace t w)
    /\ taskId rs' = taskId rs /\ runId rs' = runId rs.
Proof.
  unfold leaseCpu. mrun. destruct (restrictCPU w).
  - destruct (getDevice rt "cpu") as [d|e]; do 4 eexists; (split; [reflexivity|auto]).
  - exists rs, noOptions, (Ret tt), (trace w). now rewrite set_trace_id.
Qed.

Lemma leasePayloadDevices_frame (rt : Runtime) (task : TaskDef) (rs : RunningState)
    (o : Options) (w : TaskListener) :
  exists rs' o' r t,
    leasePayloadDevices rt task rs o w = (Ret (rs', o', r), set_trace t w)
    /\ taskId rs' = taskId rs /\ runId rs' = runId rs.
Proof.
  unfold leasePayloadDevices.
  destruct (capabilities task) as [[[keys|]]|];
    try (exists rs, o, (Ret tt), (trace w); now rewrite set_trace_id).
  unfold bind at 1, debug, emit, modify.
  unfold bind at 1.
  match goal with
  | |- context [leaseDevices rt keys rs [] ?w0] =>
      destruct (leaseDevices_frame rt keys rs [] w0)
        as (rs' & od' & r & t & Heq & H1 & H2); rewrite Heq
  end.
  do 4 eexists. split; [reflexivity|auto].
Qed.

Lemma runTask_setup_frame (rt : Runtime) (claim : Claim) (w : TaskListener) :
  exists rs task r n t,
    runTask_setup rt claim w = (Ret (rs, task, r), set_ticks n (set_trace t w))
    /\ taskId rs = c_taskId claim /\ runId rs = c_runId claim
    /\ (forall t' o, r = Ret (t', o) -> task = Some t' /\ c_task claim = Some t').
Proof.
  unfold runTask_setup.
  unfold bind at 1, Date_now at 1. unfold bind at 1, gets at 1.
  unfold bind at 1, modify at 1, ret at 1.
  unfold bind at 1, log at 1, emit at 1, modify at 1.
  destruct (c_task claim) as [task|].
  2:{ do 5 eexists. split; [reflexivity|]. repeat split; discriminate. }
  unfold bind at 1.
  match goal with
  | |- context [(if ?b then ?m1 else ?m2) ?w0] =>
      assert (Hfirst : exists n t, (if b then m1 else m2) w0
                                   = (Ret tt, set_ticks n (set_trace t w)))
  end.
  { destruct (Nat.eqb (length (c_runs claim)) 0); mrun; do 2 eexists; reflexivity. }
  destruct Hfirst as (n1 & t1 & Hfirst). rewrite Hfirst. clear Hfirst.
  unfold bind at 1.
  match goal with
  | |- context [leaseCpu rt ?rs0 ?w0] =>
      destruct (leaseCpu_frame rt rs0 w0) as (rs1 & o1 & r1 & t2 & Heq1 & Ha1 & Hb1);
      rewrite Heq1
  end.
  destruct r1 as [[]|e1].
  2:{ do 5 eexists. split; [reflexivity|]. repeat split; auto; discriminate. }
  unfold bind at 1.
  match goal with
  | |- context [leasePayloadDevices rt task rs1 o1 ?w0] =>
      destruct (leasePayloadDevices_frame rt task rs1 o1 w0)
        as (rs2 & o2 & r2 & t3 & Heq2 & Ha2 & Hb2);
      rewrite Heq2
  end.
  simpl in Ha1, Hb1.
  destruct r2 as [[]|e2].
  - do 5 eexists. split; [reflexivity|].
    repeat split; try congruence.
  - do 5 eexists. split; [reflexivity|].
    repeat split; try congruence; discriminate.
Qed.

Lemma runTask_setup_run (rt : Runtime) (claim : Claim) (w : TaskListener) :
  exists rs task r n evs,
    runTask_setup rt claim w
    = (Ret (rs, task, r), set_ticks n (set_trace (trace w ++ evs) w))
    /\ Forall quiet evs
    /\ taskId rs = c_taskId claim /\ runId rs = c_runId claim
    /\ (forall t' o, r = Ret (t', o) -> task = Some t' /\ c_task claim = Some t').
Proof.
  destruct (runTask_setup_frame rt claim w) as (rs & task & r & n & t & Heq & H).
  destruct (runTask_setup_emits rt claim w) as (evs & Ht & Hq).
  rewrite Heq in Ht. cbn in Ht. subst t.
  exists rs, task, r, n, evs. auto.
Qed.

Lemma removeEvents_set_trace (rt : Runtime) (rs : RunningState) (t : list Event)
    (w : TaskListener) :
  removeEvents rt rs (set_trace t w) = removeEvents rt rs w.
Proof. reflexivity. Qed.

Lemma runTask_resume_run (rt : Runtime) (p : Pending) (started : Res unit)
    (w : TaskListener) :
  runTask_resume rt p started w
  = (Ret tt,
     let wr := removed rt (p_state p)
                 (set_trace (trace w ++ [ELogEvent "taskFinish" (Some (p_handler p)) None]) w) in
     set_trace (trace wr ++ resumeTail p started) wr).
Proof.
  unfold runTask_resume, resumeTail, runTask_catch, taskError.
  unfold bind at 1, try_catch, bind at 1, try_finally, logEvent, emit, modify.
  destruct started as [[]|e].
  - rewrite removeRunningTask_run. unfold count, emit, modify. reflexivity.
  - unfold bind at 1. rewrite removeRunningTask_run.
    unfold log, count, emit, modify. cbn. f_equal. same_state.
Qed.

Lemma runTask_resume_events (rt : Runtime) (p : Pending) (started : Res unit)
    (w : TaskListener) :
  events_since w (exec (runTask_resume rt p started) w)
  = ELogEvent "taskFinish" (Some (p_handler p)) None
    :: removeEvents rt (p_state p) w ++ resumeTail p started.
Proof.
  apply events_since_app. unfold exec. rewrite runTask_resume_run.
  cbn [snd set_trace trace]. rewrite removed_trace.
  rewrite removeEvents_set_trace. cbn [trace set_trace].
  now rewrite <- !app_assoc.
Qed.

Lemma recordEvents_quiet (rt : Runtime) (w : TaskListener) :
  Forall quiet (recordEvents rt w).
Proof. repeat constructor. Qed.

(** The two ways [runTask_begin] can end: the setup threw and the runner
    finished through its catch block without any lifecycle event, or the
    runner is suspended at [start()], its state admitted to the registry. *)
Lemma runTask_begin_run (rt : Runtime) (claim : Claim) (w : TaskListener) :
  let w1 := exec (runTask_begin rt claim) w in
  (exists pre,
     result (runTask_begin rt claim) w = Ret None
     /\ Forall quiet pre
     /\ events_since w w1 = pre ++ [ECount "task.error" 1]
     /\ length (runningTasks w1) <= length (runningTasks w))%nat
  \/
  (exists task rs h pre,
     c_task claim = Some task
     /\ result (runTask_begin rt claim) w
        = Ret (Some {| p_claim := claim; p_task := task; p_state := rs; p_handler := h |})
     /\ handler rs = Some h
     /\ taskId rs = c_taskId claim /\ runId rs = c_runId claim
     /\ Forall quiet pre
     /\ events_since w w1
        = pre ++ [ELogEvent "taskQueue" (Some h) (Some (created task));
                  ELogEvent "taskStart" (Some h) None; EStart h]
     /\ runningTasks w1 = runningTasks w ++ [rs]).
Proof.
  cbv zeta. unfold exec, result.
  destruct (runTask_setup_run rt claim w)
    as (rs & task & r & n & evs & Heq & Hq & Hid1 & Hid2 & Hr).
  set (ws := set_ticks n (set_trace (trace w ++ evs) w)) in *.
  assert (Hfail : forall e,
            runTask_try rt claim w = (Ret (rs, task, Throw e), ws) ->
            exists pre,
              fst (runTask_begin rt claim w) = Ret None
              /\ Forall quiet pre
              /\ events_since w (snd (runTask_begin rt claim w))
                 = pre ++ [ECount "task.error" 1]
              /\ (length (runningTasks (snd (runTask_begin rt claim w)))
                  <= length (runningTasks w))%nat).
  { intros e Htry.
    destruct (runTask_catch_emits rt claim rs task e ws) as (ev2 & Ht & Hq2).
    assert (Hret : fst (runTask_catch rt claim rs task e ws) = Ret tt).
    { unfold runTask_catch. unfold bind. rewrite removeRunningTask_run.
      destruct task; reflexivity. }
    assert (Hrun : runTask_begin rt claim w
              = (Ret None,
                 set_trace
                   (trace (snd (runTask_catch rt claim rs task e ws))
                    ++ [ECount "task.error" 1])
                   (snd (runTask_catch rt claim rs task e ws)))).
    { unfold runTask_begin. unfold bind at 1. rewrite Htry.
      unfold bind at 1.
      destruct (runTask_catch rt claim rs task e ws) as [rc wc].
      cbn [fst snd] in *. subst rc. reflexivity. }
    rewrite Hrun. cbn [fst snd]. exists (evs ++ ev2).
    split; [reflexivity|].
    split; [apply Forall_app; auto|].
    split.
    - apply events_since_app.
      cbn [trace set_trace]. rewrite Ht. unfold ws. cbn [trace set_trace set_ticks].
      now rewrite <- !app_assoc.
    - cbn [runningTasks set_trace]. unfold runTask_catch, bind.
      rewrite removeRunningTask_run.
      assert (Hl : (length (runningTasks (removed rt rs ws))
                    <= length (runningTasks w))%nat).
      { unfold removed, ws. cbn [runningTasks set_ticks set_trace].
        destruct (findIndex (same_run rs) (runningTasks w)) as [i|]; cbn; [|lia].
        unfold splice1. rewrite length_app, length_firstn, length_skipn. lia. }
      destruct task; exact Hl. }
  destruct r as [[t o]|e].
  - destruct (Hr t o eq_refl) as [-> Hc].
    destruct (newTask rt claim o) as [h|e] eqn:Hnew.
    + right.
      assert (Hrun : runTask_begin rt claim w
                = (Ret (Some {| p_claim := claim; p_task := t;
                                p_state := set_handler h rs; p_handler := h |}),
                   set_trace
                     (trace w ++ (evs ++ recordEvents rt ws)
                      ++ [ELogEvent "taskQueue" (Some h) (Some (created t));
                          ELogEvent "taskStart" (Some h) None;
                          EStart h])
                     (set_runningTasks (runningTasks w ++ [set_handler h rs])
                        (set_lastTaskEvent (clock rt (S n))
                           (set_ticks (S (S n)) w))))).
      { unfold runTask_begin, runTask_try, bind. rewrite Heq, Hnew.
        rewrite addRunningTask_run. unfold recordEvents, capacityCounters, ws.
        destruct w. mcbv. f_equal. f_equal. now rewrite <- !app_assoc. }
      rewrite Hrun. cbn [fst snd].
      exists t, (set_handler h rs), h, (evs ++ recordEvents rt ws).
      repeat split; auto.
      * apply Forall_app. split; [exact Hq|apply recordEvents_quiet].
      * apply events_since_app. reflexivity.
    + left. apply (Hfail e).
      unfold runTask_try. unfold bind at 1. rewrite Heq, Hnew. reflexivity.
  - left. apply (Hfail e).
    unfold runTask_try. unfold bind at 1. rewrite Heq. reflexivity.
Qed.

Lemma runnerStep_emits (rt : Runtime) (step : RunnerStep) :
  emits runner_only (runnerStep rt step).
Proof.
  destruct step as [claim|p started]; cbn [runnerStep].
  - pose proof (runTask_begin_emits rt claim). emits_auto.
  - apply runTask_resume_emits.
Qed.

Lemma runnerStep_total (rt : Runtime) (step : RunnerStep) (w : TaskListener) :
  result (runnerStep rt step) w = Ret tt.
Proof.
  destruct step as [claim|p started]; cbn [runnerStep]; unfold result.
  - unfold bind.
    destruct (runTask_begin_run rt claim w) as [(pre & Hn & _)|Hs].
    + unfold result in Hn. destruct (runTask_begin rt claim w) as [r w1].
      cbn [fst] in Hn. now subst r.
    + destruct Hs as (task & rs & h & pre & _ & Hr & _).
      unfold result in Hr. destruct (runTask_begin rt claim w) as [r w1].
      cbn [fst] in Hr. now subst r.
  - now rewrite runTask_resume_run.
Qed.

(** ** Lifecycle events *)

Lemma removeEvents_quiet (rt : Runtime) (rs : RunningState) (w : TaskListener) :
  Forall quiet (removeEvents rt rs w).
Proof.
  unfold removeEvents.
  assert (Hrel : Forall quiet (map ERelease (leases rs))).
  { apply Forall_forall. intros e He. apply in_map_iff in He.
    destruct He as (d & <- & _). reflexivity. }
  destruct (findIndex _ _).
  - apply Forall_app. split; [apply recordEvents_quiet|exact Hrel].
  - constructor; [reflexivity|exact Hrel].
Qed.

Lemma quiet_not_lifecycle (evs : list Event) (ty : string) (t : option Task)
    (ts : option Z) :
  Forall quiet evs -> ~ In (ELogEvent ty t ts) evs.
Proof.
  intros H Hin. rewrite Forall_forall in H. specialize (H _ Hin). discriminate.
Qed.

Lemma runTask_exec (rt : Runtime) (claim : Claim) (started : Res unit)
    (w : TaskListener) (p : Pending) :
  result (runTask_begin rt claim) w = Ret (Some p) ->
  exec (runTask rt claim started) w
  = exec (runTask_resume rt p started) (exec (runTask_begin rt claim) w).
Proof.
  unfold result, exec, runTask, bind.
  destruct (runTask_begin rt claim w) as [r w1]. cbn [fst snd].
  now intros ->.
Qed.

Lemma events_since_trans (w w1 w2 : TaskListener) (e1 e2 : list Event) :
  trace w1 = trace w ++ e1 -> trace w2 = trace w1 ++ e2 ->
  events_since w w2 = e1 ++ e2.
Proof.
  intros H1 H2. apply events_since_app. rewrite H2, H1.
  now rewrite app_assoc.
Qed.

Lemma emits_trace {A} (P : Event -> Prop) (m : M A) (w : TaskListener) :
  emits P m -> trace (exec m w) = trace w ++ events_since w (exec m w).
Proof.
  intros Hm. destruct (Hm w) as (evs & H & _). unfold exec.
  now rewrite (events_since_app _ _ _ H).
Qed.

(** C3. Whenever [runTask] emits the taskStart event, the runner is
    suspended at [start()] with taskQueue, taskStart and the call of
    [start()] as its last three calls, in this order, and nothing but logs,
    metrics and device leases before them; and however [start()] settles
    (resolves or throws), in whatever state, the first thing the resumed
    runner does is to emit taskFinish for the same handler, before the
    retirement of its state and the rest.  In particular a [runTask] with
    nothing interleaved emits taskFinish after taskStart. *)
Theorem taskFinish_follows_taskStart (rt : Runtime) (claim : Claim) (w : TaskListener)
    (th : option Task) (ts : option Z) :
  In (ELogEvent "taskStart" th ts) (events_since w (exec (runTask_begin rt claim) w)) ->
  exists p task pre,
    result (runTask_begin rt claim) w = Ret (Some p)
    /\ th = Some (p_handler p) /\ ts = None
    /\ c_task claim = Some task
    /\ events_since w (exec (runTask_begin rt claim) w)
       = pre ++ [ELogEvent "taskQueue" (Some (p_handler p)) (Some (created task));
                 ELogEvent "taskStart" (Some (p_handler p)) None;
                 EStart (p_handler p)]
    /\ Forall quiet pre
    /\ (forall rt' started w2,
          events_since w2 (exec (runTask_resume rt' p started) w2)
          = ELogEvent "taskFinish" (Some (p_handler p)) None
            :: removeEvents rt' (p_state p) w2 ++ resumeTail p started)
    /\ (forall started,
          exists rest,
            events_since w (exec (runTask rt claim started) w)
            = pre ++ [ELogEvent "taskQueue" (Some (p_handler p)) (Some (created task));
                      ELogEvent "taskStart" (Some (p_handler p)) None;
                      EStart (p_handler p);
                      ELogEvent "taskFinish" (Some (p_handler p)) None] ++ rest).
Proof.
  intros Hin.
  destruct (runTask_begin_run rt claim w) as [(pre & _ & Hq & Hev & _)|Hs].
  - exfalso. rewrite Hev in Hin. apply in_app_or in Hin.
    destruct Hin as [Hin|[Hin|[]]]; [|discriminate].
    exact (quiet_not_lifecycle _ _ _ _ Hq Hin).
  - destruct Hs as (task & rs & h & pre & Hc & Hres & Hh & _ & _ & Hq & Hev & _).
    rewrite Hev in Hin. apply in_app_or in Hin.
    destruct Hin as [Hin|Hin]; [exfalso; exact (quiet_not_lifecycle _ _ _ _ Hq Hin)|].
    destruct Hin as [Hin|[Hin|[Hin|[]]]]; try discriminate.
    inversion Hin; subst th ts.
    eexists. exists task, pre.
    split; [exact Hres|]. cbn [p_handler].
    repeat (split; [first [reflexivity|assumption]|]).
    split.
    + intros rt' started w2. apply runTask_resume_events.
    + intros started. eexists.
      rewrite (runTask_exec _ _ _ _ _ Hres).
      pose proof (emits_trace _ _ w (runTask_begin_emits rt claim)) as H1.
      rewrite Hev in H1.
      pose proof (emits_trace _ _ (exec (runTask_begin rt claim) w)
                    (runTask_resume_emits rt
                       {| p_claim := claim; p_task := task; p_state := rs;
                          p_handler := h |} started)) as H2.
      rewrite runTask_resume_events in H2.
      rewrite (events_since_trans _ _ _ _ _ H1 H2).
      rewrite <- app_assoc. cbn [app p_handler]. reflexivity.
Qed.

(** C3 at claim B of S1, whose setup succeeds. *)
Lemma taskFinish_follows_taskStart_witness :
  In (ELogEvent "taskStart"
        (Some (mkTask claimB {| cpusetCpus := None; opt_devices := None |})) None)
     (events_since (constructor 2 false 0)
        (exec (runTask_begin rtS1 claimB) (constructor 2 false 0)))
  /\ exists p task pre,
       result (runTask_begin rtS1 claimB) (constructor 2 false 0) = Ret (Some p)
       /\ Some (mkTask claimB {| cpusetCpus := None; opt_devices := None |})
          = Some (p_handler p)
       /\ @None Z = None
       /\ c_task claimB = Some task
       /\ events_since (constructor 2 false 0)
            (exec (runTask_begin rtS1 claimB) (constructor 2 false 0))
          = pre ++ [ELogEvent "taskQueue" (Some (p_handler p)) (Some (created task));
                    ELogEvent "taskStart" (Some (p_handler p)) None;
                    EStart (p_handler p)]
       /\ Forall quiet pre
       /\ (forall rt' started w2,
             events_since w2 (exec (runTask_resume rt' p started) w2)
             = ELogEvent "taskFinish" (Some (p_handler p)) None
               :: removeEvents rt' (p_state p) w2 ++ resumeTail p started)
       /\ (forall started,
             exists rest,
               events_since (constructor 2 false 0)
                 (exec (runTask rtS1 claimB started) (constructor 2 false 0))
               = pre ++ [ELogEvent "taskQueue" (Some (p_handler p)) (Some (created task));
                         ELogEvent "taskStart" (Some (p_handler p)) None;
                         EStart (p_handler p);
                         ELogEvent "taskFinish" (Some (p_handler p)) None] ++ rest).
Proof.
  assert (Hin : In (ELogEvent "taskStart"
                      (Some (mkTask claimB {| cpusetCpus := None; opt_devices := None |}))
                      None)
                   (events_since (constructor 2 false 0)
                      (exec (runTask_begin rtS1 claimB) (constructor 2 false 0)))).
  { vm_compute. tauto. }
  split; [exact Hin|].
  exact (taskFinish_follows_taskStart rtS1 claimB (constructor 2 false 0) _ _ Hin).
Defined.

(** ** The task.error counter *)

Lemma countOf_app (name : string) (e1 e2 : list Event) :
  countOf name (e1 ++ e2) = countOf name e1 + countOf name e2.
Proof.
  induction e1 as [|e e1 IH]; simpl; [reflexivity|].
  destruct e; auto. rewrite IH. lia.
Qed.

Lemma quiet_no_task_error (evs : list Event) :
  Forall quiet evs -> countOf "task.error" evs = 0.
Proof.
  induction 1 as [|e evs He _ IH]; simpl; [reflexivity|].
  destruct e; auto.
  unfold quiet in He. simpl in He. apply andb_true_iff in He.
  destruct He as [_ He]. apply negb_true_iff in He. rewrite He. exact IH.
Qed.

Lemma runTask_exec_none (rt : Runtime) (claim : Claim) (started : Res unit)
    (w : TaskListener) :
  result (runTask_begin rt claim) w = Ret None ->
  exec (runTask rt claim started) w = exec (runTask_begin rt claim) w.
Proof.
  unfold result, exec, runTask, bind.
  destruct (runTask_begin rt claim w) as [r w1]. cbn [fst snd].
  now intros ->.
Qed.

Lemma runTask_resume_task_error (rt : Runtime) (p : Pending) (started : Res unit)
    (w : TaskListener) :
  countOf "task.error" (events_since w (exec (runTask_resume rt p started) w)) = 1.
Proof.
  rewrite runTask_resume_events. cbn [countOf]. rewrite countOf_app.
  rewrite (quiet_no_task_error _ (removeEvents_quiet rt (p_state p) w)).
  destruct started; reflexivity.
Qed.

(** C5 (what the code does).  The count of task.error is the last
    statement of [runTask], after the try/catch: a runner whose [start()]
    resolves, with no stage throwing, increments it by one all the same, and
    so does every other [runTask].  In scenario S1 (two claims admitted,
    both handlers resolve) the registry ends empty and task.error is 2. *)
Theorem task_error_counted_on_success :
  (forall rt p w,
     countOf "task.error" (events_since w (exec (runTask_resume rt p (Ret tt)) w)) = 1)
  /\ (forall rt claim started w,
        countOf "task.error" (events_since w (exec (runTask rt claim started) w)) = 1)
  /\ countOf "task.error" (trace runS1) = 2
  /\ runningTasks runS1 = []
  /\ 0 < totalRunTime runS1.
Proof.
  split; [intros; apply runTask_resume_task_error|].
  split; [|vm_compute; repeat split; reflexivity].
  intros rt claim started w.
  destruct (runTask_begin_run rt claim w) as [(pre & Hres & Hq & Hev & _)|Hs].
  - rewrite (runTask_exec_none _ _ _ _ Hres), Hev, countOf_app.
    now rewrite (quiet_no_task_error _ Hq).
  - destruct Hs as (task & rs & h & pre & _ & Hres & _ & _ & _ & Hq & Hev & _).
    rewrite (runTask_exec _ _ _ _ _ Hres).
    pose proof (emits_trace _ _ w (runTask_begin_emits rt claim)) as H1.
    pose proof (emits_trace _ _ (exec (runTask_begin rt claim) w)
                  (runTask_resume_emits rt
                     {| p_claim := claim; p_task := task; p_state := rs;
                        p_handler := h |} started)) as H2.
    rewrite (events_since_trans _ _ _ _ _ H1 H2).
    rewrite countOf_app, runTask_resume_task_error, Hev, countOf_app.
    now rewrite (quiet_no_task_error _ Hq).
Qed.

(** ** The poll cycle *)

Lemma emits_any {A} (P : Event -> Prop) (m : M A) : emits P m -> emits any_event m.
Proof. apply emits_weaken. intros e _. exact I. Qed.

(** The events of [m ;; f] are those of [m] followed, when [m] returns,
    by those of [f]. *)
Lemma events_bind {A B} (m : M A) (f : A -> M B) (w : TaskListener) :
  emits any_event m -> (forall a, emits any_event (f a)) ->
  events_since w (exec (bind m f) w)
  = events_since w (exec m w)
    ++ match result m w with
       | Ret a => events_since (exec m w) (exec (f a) (exec m w))
       | Throw _ => []
       end.
Proof.
  intros Hm Hf. unfold exec, result, bind.
  destruct (Hm w) as (e1 & H1 & _).
  destruct (m w) as [[a|e] w1]; cbn [fst snd] in *.
  - destruct (Hf a w1) as (e2 & H2 & _).
    rewrite (events_since_app _ _ _ H1), (events_since_app _ _ _ H2).
    apply events_since_app. rewrite H2, H1. now rewrite app_assoc.
  - now rewrite app_nil_r.
Qed.

(** The events of [try { m } catch (e) { h e }] are those of [m] followed,
    when [m] throws, by those of the handler. *)
Lemma events_try_catch {A} (m : M A) (h : string -> M A) (w : TaskListener) :
  emits any_event m -> (forall e, emits any_event (h e)) ->
  events_since w (exec (try_catch m h) w)
  = events_since w (exec m w)
    ++ match result m w with
       | Ret _ => []
       | Throw e => events_since (exec m w) (exec (h e) (exec m w))
       end.
Proof.
  intros Hm Hh. unfold exec, result, try_catch.
  destruct (Hm w) as (e1 & H1 & _).
  destruct (m w) as [[a|e] w1]; cbn [fst snd] in *.
  - now rewrite app_nil_r.
  - destruct (Hh e w1) as (e2 & H2 & _).
    rewrite (events_since_app _ _ _ H1), (events_since_app _ _ _ H2).
    apply events_since_app. rewrite H2, H1. now rewrite app_assoc.
Qed.

Lemma sweeps_app (e1 e2 : list Event) : sweeps (e1 ++ e2) = sweeps e1 ++ sweeps e2.
Proof. apply flat_map_app. Qed.

Lemma sweeps_none (evs : list Event) : Forall not_sweep evs -> sweeps evs = [].
Proof.
  induction 1 as [|e evs He _ IH]; [reflexivity|].
  unfold sweeps in *. simpl. rewrite IH. destruct e; try reflexivity. destruct He.
Qed.

Lemma runner_not_sweep (e : Event) : runner_only e -> not_sweep e.
Proof. destruct e; simpl; auto. discriminate. Qed.

Lemma availableCapacity_emits (rt : Runtime) :
  emits not_sweep (availableCapacity rt).
Proof. unfold availableCapacity, log. emits_auto. Qed.

Lemma afterSweep_emits (rt : Runtime) (v : Z) : emits not_sweep (afterSweep rt v).
Proof.
  unfold afterSweep, debug.
  pose proof (fun claims => emits_weaken _ _ _ runner_not_sweep (launch_emits rt claims)).
  emits_auto.
Qed.

Lemma getTasks_emits (rt : Runtime) : emits any_event (getTasks rt).
Proof.
  unfold getTasks, debug.
  pose proof (emits_any _ _ (availableCapacity_emits rt)).
  pose proof (fun claims => emits_any _ _ (launch_emits rt claims)).
  emits_auto; exact I.
Qed.

Lemma getTasks_sweeps (rt : Runtime) (w : TaskListener) :
  sweeps (events_since w (exec (getTasks rt) w))
  = if admissible rt w =? 0 then []
    else [Nat.eqb (length (runningTasks w)) 0].
Proof.
  assert (Hcap : sweeps (EProbe :: probeAlert rt ++ adjustedInfo rt w) = []).
  { apply sweeps_none. constructor; [exact I|].
    apply Forall_app. unfold probeAlert, adjustedInfo. split.
    - destruct (getAvailableCapacity rt); repeat constructor.
    - destruct (_ <? _); repeat constructor. }
  change (getTasks rt) with
    (availableCapacity' <- availableCapacity rt ;;
     if availableCapacity' =? 0 then
       debug "not calling claimWork because capacity is zero" ;; ret []
     else
       rts <- gets runningTasks ;;
       call (ESweep (Nat.eqb (length rts) 0)) (sweep rt (Nat.eqb (length rts) 0)) ;;
       afterSweep rt availableCapacity').
  unfold exec. unfold bind at 1. rewrite availableCapacity_run.
  destruct (admissible rt w =? 0).
  - rewrite (events_since_app w _
               ((EProbe :: probeAlert rt ++ adjustedInfo rt w)
                ++ [EDebug "not calling claimWork because capacity is zero"])).
    + rewrite sweeps_app, Hcap. reflexivity.
    + unfold bind, debug, emit, modify, ret.
      cbn [snd trace set_trace set_lastKnownCapacity].
      now rewrite <- !app_assoc.
  - unfold bind at 1, gets at 1. unfold bind at 1, call, bind, emit, modify.
    cbn [runningTasks set_lastKnownCapacity set_trace].
    set (b := Nat.eqb (length (runningTasks w)) 0).
    destruct (sweep rt b) as [[]|e].
    + match goal with
      | |- context [afterSweep rt ?v ?w0] =>
          destruct (afterSweep_emits rt v w0) as (ev2 & Ht & Hq)
      end.
      rewrite (events_since_app w _
                 ((EProbe :: probeAlert rt ++ adjustedInfo rt w) ++ [ESweep b] ++ ev2)).
      * rewrite !sweeps_app, Hcap, (sweeps_none _ Hq). reflexivity.
      * rewrite Ht. cbn [snd trace set_trace set_lastKnownCapacity].
        now rewrite <- !app_assoc.
    + rewrite (events_since_app w _
                 ((EProbe :: probeAlert rt ++ adjustedInfo rt w) ++ [ESweep b])).
      * rewrite !sweeps_app, Hcap. reflexivity.
      * cbn [snd trace set_trace set_lastKnownCapacity].
        now rewrite <- !app_assoc.
Qed.

Lemma sweeps_events_none {A} (m : M A) (w : TaskListener) :
  emits not_sweep m -> sweeps (events_since w (exec m w)) = [].
Proof. intros Hm. apply sweeps_none. now apply emits_events. Qed.

Lemma abortRunningTasks_emits (rt : Runtime) : emits not_sweep (abortRunningTasks rt).
Proof.
  unfold abortRunningTasks, abortHandler, debug, cleanupRunningState.
  emits_auto.
Qed.

Lemma shutdown_emits (rt : Runtime) : emits not_sweep (shutdown rt).
Proof. unfold shutdown, pause, log, logEvent. emits_auto. Qed.

Lemma drain_emits_not_sweep (rt : Runtime) (sched : Schedule) :
  emits not_sweep (drain rt sched).
Proof.
  induction sched as [|settled sched IH]; simpl; unfold isIdle.
  - emits_auto.
  - pose proof (fun step => emits_weaken _ _ _ runner_not_sweep
                              (runnerStep_emits rt step)).
    emits_auto.
Qed.

Lemma immediateExit_emits (rt : Runtime) (sched : Schedule) :
  emits not_sweep (immediateExit rt sched).
Proof.
  unfold immediateExit, count.
  pose proof (abortRunningTasks_emits rt).
  pose proof (drain_emits_not_sweep rt sched).
  pose proof (shutdown_emits rt).
  emits_auto.
Qed.

Lemma gracefulExit_emits (rt : Runtime) : emits not_sweep (gracefulExit rt).
Proof.
  unfold gracefulExit, isIdle. pose proof (shutdown_emits rt). emits_auto.
Qed.

Lemma pollAndReport_emits (rt : Runtime) : emits any_event (pollAndReport rt).
Proof.
  unfold pollAndReport, isIdle, log.
  pose proof (getTasks_emits rt). emits_auto; exact I.
Qed.

Lemma pollAndReport_sweeps (rt : Runtime) (w : TaskListener) :
  sweeps (events_since w (exec (pollAndReport rt) w))
  = sweeps (events_since w (exec (getTasks rt) w)).
Proof.
  unfold pollAndReport.
  rewrite events_bind.
  2:{ apply emits_try_catch; [apply getTasks_emits|].
      intros e. unfold log. emits_auto; exact I. }
  2:{ intros a. unfold isIdle. emits_auto; exact I. }
  rewrite sweeps_app.
  rewrite events_try_catch; [|apply getTasks_emits|intros e; unfold log; emits_auto; exact I].
  rewrite sweeps_app.
  match goal with
  | |- (_ ++ sweeps ?x) ++ sweeps ?y = _ =>
      assert (H1 : sweeps x = []); [|assert (H2 : sweeps y = [])]
  end.
  - destruct (result (getTasks rt) w) as [l|e]; [reflexivity|].
    apply sweeps_events_none. unfold log. emits_auto.
  - destruct (result (try_catch _ _) w) as [l|e]; [|reflexivity].
    apply sweeps_events_none. unfold isIdle. emits_auto.
  - now rewrite H1, H2, !app_nil_r.
Qed.

Lemma taskPoll_sweeps (rt : Runtime) (sched : Schedule)
    (w : TaskListener) :
  sweeps (events_since w (exec (taskPoll rt sched) w))
  = sweeps (events_since w (exec (getTasks rt) w)).
Proof.
  unfold taskPoll.
  assert (Hrest : forall launched : list Pending,
             emits not_sweep
               ((if String.eqb (shouldExit rt) "immediate" then immediateExit rt sched
                 else if String.eqb (shouldExit rt) "graceful" then gracefulExit rt
                 else ret tt) ;; ret launched)).
  { intros launched.
    pose proof (immediateExit_emits rt sched). pose proof (gracefulExit_emits rt).
    emits_auto. }
  rewrite events_bind;
    [|apply pollAndReport_emits|intros a; exact (emits_any _ _ (Hrest a))].
  rewrite sweeps_app, pollAndReport_sweeps.
  match goal with
  | |- _ ++ sweeps ?x = _ => assert (H2 : sweeps x = [])
  end.
  { destruct (result _ w) as [l|e]; [|reflexivity].
    apply sweeps_events_none. apply Hrest. }
  now rewrite H2, app_nil_r.
Qed.

(** C6 (as the code has it).  In a poll cycle [gc.sweep] is called exactly
    once when the admissible capacity computed by [availableCapacity] is
    not zero, with [true] (a full sweep) exactly when the registry is empty
    at the start of the cycle and [false] otherwise; when the admissible
    capacity is zero the cycle makes no call of [gc.sweep] at all.  The
    same holds of [getTasks] alone. *)
Theorem sweep_when_capacity (rt : Runtime) (sched : Schedule)
    (w : TaskListener) :
  let full := Nat.eqb (length (runningTasks w)) 0 in
  let admitted :=
    Z.min (Z.max (capacity w - Z.of_nat (length (runningTasks w))) 0)
      (deviceCapacityOf rt) in
  sweeps (events_since w (exec (taskPoll rt sched) w))
  = (if admitted =? 0 then [] else [full])
  /\ sweeps (events_since w (exec (getTasks rt) w))
     = (if admitted =? 0 then [] else [full]).
Proof.
  cbv zeta. rewrite taskPoll_sweeps, getTasks_sweeps. split; reflexivity.
Qed.

(** C6, counterexample.  With configured capacity 0 and an empty registry
    (the other answers as in S1), a poll cycle makes no call of [gc.sweep];
    so does a cycle whose device probe throws (S2). *)
Lemma no_sweep_at_zero_capacity :
  runningTasks (constructor 0 false 0) = []
  /\ sweeps (events_since (constructor 0 false 0)
               (exec (taskPoll rtS1 []) (constructor 0 false 0))) = []
  /\ events_since (constructor 0 false 0)
       (exec (taskPoll rtS1 []) (constructor 0 false 0))
     = [EProbe; EDebug "not calling claimWork because capacity is zero"; EOnIdle].
Proof. vm_compute. repeat split; reflexivity. Qed.

(** ** Immediate shutdown *)

Lemma abort_loop (rt : Runtime) (l : list RunningState) (w : TaskListener) :
  forM_ l (fun state =>
    try_catch (abortHandler rt state)
      (fun e => debug ("error aborting with worker-shutdown: " ++ e)%string) ;;
    cleanupRunningState (Some state)) w
  = (Ret tt, set_trace (trace w ++ abortEvents rt l) w).
Proof.
  revert w. induction l as [|state l IH]; intros w.
  - cbn. unfold ret. now rewrite app_nil_r, set_trace_id.
  - cbn [forM_ abortEvents flat_map]. unfold bind at 1. unfold bind at 1.
    assert (Hcall : try_catch (abortHandler rt state)
                      (fun e => debug ("error aborting with worker-shutdown: " ++ e)%string) w
                    = (Ret tt, set_trace (trace w ++ abortCall rt state) w)).
    { unfold try_catch, abortHandler, abortCall.
      destruct (handler state) as [h|]; [|reflexivity].
      unfold call, bind, emit, modify, debug.
      destruct (abort rt h) as [[]|e]; [reflexivity|].
      mcbv. f_equal. f_equal. now rewrite <- app_assoc. }
    rewrite Hcall, cleanupRunningState_run, IH. f_equal.
    unfold abortEvents. same_state.
Qed.

Lemma abortRunningTasks_run (rt : Runtime) (w : TaskListener) :
  abortRunningTasks rt w
  = (Ret tt, set_trace (trace w ++ abortEvents rt (runningTasks w)) w).
Proof. unfold abortRunningTasks, bind at 1, gets. apply abort_loop. Qed.

Lemma shutdown_run (rt : Runtime) (w : TaskListener) :
  shutdown rt w
  = (hostShutdown rt,
     set_trace (trace w ++ shutdownEvents) (set_capacity 0 (set_paused true w))).
Proof.
  unfold shutdown, pause, shutdownEvents. mrun.
  destruct (hostShutdown rt); f_equal; same_state.
Qed.

Lemma settle_run (rt : Runtime) (settled : list RunnerStep) (w : TaskListener) :
  exists w' evs,
    forM_ settled (runnerStep rt) w = (Ret tt, w')
    /\ trace w' = trace w ++ evs /\ Forall runner_only evs.
Proof.
  revert w. induction settled as [|step settled IH]; intros w.
  - exists w, []. cbn. rewrite app_nil_r. auto.
  - cbn [forM_]. unfold bind at 1.
    destruct (runnerStep_emits rt step w) as (e1 & H1 & Hq1).
    pose proof (runnerStep_total rt step w) as Htot. unfold result in Htot.
    destruct (runnerStep rt step w) as [r w1]. cbn [fst snd] in *. subst r.
    destruct (IH w1) as (w' & e2 & Heq & H2 & Hq2).
    exists w', (e1 ++ e2). rewrite Heq. split; [reflexivity|].
    split; [|apply Forall_app; auto].
    rewrite H2, H1. now rewrite app_assoc.
Qed.

(** The wait loop: it always comes back; it answers [true] exactly when
    it leaves the registry empty, and [false] when the schedule ends with
    the registry still occupied; meanwhile there are only 100 ms sleeps and
    the events of the runners that settle. *)
Lemma drain_run (rt : Runtime) (sched : Schedule)
    (w : TaskListener) :
  exists b waits w2,
    drain rt sched w = (Ret b, w2)
    /\ trace w2 = trace w ++ waits
    /\ Forall wait_only waits
    /\ (if b then runningTasks w2 = [] else runningTasks w2 <> [])
    /\ (runningTasks w = [] -> waits = []).
Proof.
  revert w. induction sched as [|settled sched IH]; intros w.
  - cbn [drain]. unfold bind, isIdle, bind, gets, ret.
    destruct (runningTasks w) as [|st rts] eqn:Hrts; cbn [length Nat.eqb].
    + exists true, [], w. rewrite app_nil_r. auto.
    + exists false, [], w. rewrite app_nil_r, Hrts.
      repeat split; auto; discriminate.
  - cbn [drain]. unfold bind at 1, isIdle, bind, gets, ret.
    destruct (runningTasks w) as [|st rts] eqn:Hrts; cbn [length Nat.eqb].
    + exists true, [], w. rewrite app_nil_r. auto.
    + unfold emit, modify.
      match goal with
      | |- context [forM_ settled ?f ?w1] =>
          destruct (settle_run rt settled w1) as (w' & e1 & Heq & H1 & Hq1)
      end.
      rewrite Heq.
      destruct (IH w') as (b & waits & w2 & Hd & H2 & Hq2 & Hb & _).
      exists b, (ESleep 100 :: e1 ++ waits), w2.
      split; [exact Hd|].
      split.
      { rewrite H2, H1. cbn [trace set_trace]. now rewrite <- !app_assoc. }
      split.
      { constructor; [now left|]. apply Forall_app. split; [|exact Hq2].
        eapply Forall_impl; [|exact Hq1]. intros e He. now right. }
      split; [exact Hb|discriminate].
Qed.

Lemma runner_before_exit (e : Event) : runner_only e -> before_exit e.
Proof.
  unfold runner_only, before_exit. destruct e; simpl; intros H; auto; discriminate.
Qed.

Lemma wait_before_exit (e : Event) : wait_only e -> before_exit e.
Proof. intros [->|H]; [reflexivity|now apply runner_before_exit]. Qed.


Lemma before_exit_no_shutdown (evs : list Event) :
  Forall before_exit evs -> ~ In EHostShutdown evs.
Proof.
  intros H Hin. rewrite Forall_forall in H. specialize (H _ Hin). discriminate.
Qed.

Lemma abortEvents_before_exit (rt : Runtime) (rts : list RunningState) :
  Forall before_exit (abortEvents rt rts).
Proof.
  unfold abortEvents. induction rts as [|st rts IH]; [constructor|].
  cbn [flat_map]. rewrite <- app_assoc.
  apply Forall_app. split.
  - unfold abortCall. destruct (handler st); [|repeat constructor].
    destruct (abort rt t); repeat constructor.
  - apply Forall_app. split; [|exact IH].
    apply Forall_forall. intros e He. apply in_map_iff in He.
    destruct He as (d & <- & _). reflexivity.
Qed.

Lemma pollAndReport_before_exit (rt : Runtime) : emits before_exit (pollAndReport rt).
Proof.
  unfold pollAndReport, getTasks, availableCapacity, isIdle, log, debug.
  pose proof (fun claims => emits_weaken _ _ _ runner_before_exit (launch_emits rt claims)).
  emits_auto.
Qed.

Lemma pollAndReport_total (rt : Runtime) (w : TaskListener) :
  exists launched, result (pollAndReport rt) w = Ret launched.
Proof.
  unfold pollAndReport, result, bind, try_catch, isIdle, bind, gets, ret, log, emit,
    modify.
  destruct (getTasks rt w) as [[l|e] w1]; cbn [fst snd];
    destruct (Nat.eqb _ 0); eexists; reflexivity.
Qed.

(** The state and the events of the immediate exit. *)
Lemma immediateExit_run (rt : Runtime) (sched : Schedule)
    (w : TaskListener) :
  let w' := exec (immediateExit rt sched) w in
  exists waits,
    trace w'
    = trace w
      ++ ECount "spotTermination" 1 :: abortEvents rt (runningTasks w) ++ waits
      ++ match runningTasks w' with [] => shutdownEvents | _ :: _ => [] end
    /\ Forall wait_only waits
    /\ (runningTasks w = [] -> waits = [])
    /\ (runningTasks w' = [] -> paused w' = true /\ capacity w' = 0).
Proof.
  cbv zeta.
  set (wa := set_trace
               (trace w ++ ECount "spotTermination" 1 :: abortEvents rt (runningTasks w)) w).
  destruct (drain_run rt sched wa) as (b & waits & w2 & Hd & Ht & Hq & Hb & Hidle).
  assert (Hrun : exec (immediateExit rt sched) w
                 = if b then set_trace (trace w2 ++ shutdownEvents)
                               (set_capacity 0 (set_paused true w2))
                   else w2).
  { unfold exec, immediateExit, bind, count, emit, modify.
    rewrite abortRunningTasks_run.
    replace (set_trace _ (set_trace _ w)) with wa.
    - rewrite Hd. destruct b; [now rewrite shutdown_run|reflexivity].
    - unfold wa. same_state. }
  rewrite Hrun. clear Hrun. exists waits.
  unfold wa in Ht, Hidle. cbn [trace runningTasks set_trace] in Ht, Hidle.
  destruct b.
  - cbn [trace runningTasks set_trace set_capacity set_paused paused capacity].
    rewrite Hb, Ht. split; [now rewrite <- !app_assoc|]. auto.
  - destruct (runningTasks w2) as [|st rts] eqn:Hrts.
    + contradiction.
    + rewrite Ht. split; [rewrite app_nil_r; now rewrite <- !app_assoc|].
      repeat split; auto; discriminate.
Qed.

Lemma taskPoll_immediate (rt : Runtime) (sched : Schedule)
    (w : TaskListener) :
  shouldExit rt = "immediate" ->
  exec (taskPoll rt sched) w
  = exec (immediateExit rt sched) (exec (pollAndReport rt) w).
Proof.
  intros Hexit. destruct (pollAndReport_total rt w) as [l Hl].
  unfold exec, result, taskPoll, bind in *.
  destruct (pollAndReport rt w) as [r w1]. cbn [fst snd] in *. subst r.
  rewrite Hexit. cbn [String.eqb Ascii.eqb Bool.eqb].
  destruct (immediateExit rt sched w1) as [[[]|e] w2]; reflexivity.
Qed.

(** ** Release of the leases *)

Lemma device_releases_app (e1 e2 : list Event) :
  device_releases (e1 ++ e2) = device_releases e1 ++ device_releases e2.
Proof. apply flat_map_app. Qed.

Lemma device_releases_map (ds : list Device) :
  device_releases (map ERelease ds) = ds.
Proof.
  unfold device_releases. induction ds as [|d ds IH]; [reflexivity|].
  cbn. now rewrite IH.
Qed.

Lemma same_run_refl (rs : RunningState) : same_run rs rs = true.
Proof. unfold same_run. now rewrite String.eqb_refl, Z.eqb_refl. Qed.

Lemma concat_repeat_snoc {A} (l : list A) (n : nat) :
  concat (repeat l n) ++ l = concat (repeat l (S n)).
Proof.
  induction n as [|n IH]; cbn [repeat concat].
  - now rewrite app_nil_r.
  - cbn [repeat concat] in IH. now rewrite <- app_assoc, IH.
Qed.

Lemma flat_map_const {A B} (f : A -> list B) (l : list A) (c : list B) :
  Forall (fun a => f a = c) l -> flat_map f l = concat (repeat c (length l)).
Proof.
  induction 1 as [|a l Ha _ IH]; [reflexivity|].
  cbn [flat_map length repeat concat]. now rewrite Ha, IH.
Qed.

(** C2, counterexample.  The runner of claim A is admitted with one
    lease; the cancellation releases it, and the retirement of the runner
    releases it again: by the time the state has left the registry,
    [release()] has been called twice on the device. *)
Lemma release_twice_after_cancel :
  let w1 := exec (runTask_begin rtS1 claimA) (constructor 2 false 0) in
  let w2 := exec (cancelTask cancelA) w1 in
  let w3 := exec (runTask_resume rtS1 pendingA (Ret tt)) w2 in
  result (runTask_begin rtS1 claimA) (constructor 2 false 0) = Ret (Some pendingA)
  /\ runningTasks w1 = [p_state pendingA]
  /\ leases (p_state pendingA) = [deviceOf "kvm"]
  /\ device_releases (events_since w1 w3) = [deviceOf "kvm"; deviceOf "kvm"]
  /\ runningTasks w3 = [].
Proof. vm_compute. repeat split; reflexivity. Qed.

(** * Further properties *)

(** ** Invariants along a computation *)

Lemma preserves_ret {A} (I : TaskListener -> Prop) (a : A) : preserves I (ret a).
Proof. intros w H. exact H. Qed.

Lemma preserves_throw {A} (I : TaskListener -> Prop) (e : string) :
  preserves I (@throw A e).
Proof. intros w H. exact H. Qed.

Lemma preserves_gets {A} (I : TaskListener -> Prop) (f : TaskListener -> A) :
  preserves I (gets f).
Proof. intros w H. exact H. Qed.

Lemma preserves_lift {A} (I : TaskListener -> Prop) (r : Res A) :
  preserves I (fun w => (r, w)).
Proof. intros w H. exact H. Qed.

Lemma preserves_modify (I : TaskListener -> Prop) (f : TaskListener -> TaskListener) :
  (forall w, I w -> I (f w)) -> preserves I (modify f).
Proof. intros Hf w H. apply Hf, H. Qed.

Lemma preserves_emit (I : TaskListener -> Prop) (e : Event) :
  clock_blind I -> preserves I (emit e).
Proof. intros [Ht _] w H. apply Ht, H. Qed.

Lemma preserves_bind {A B} (I : TaskListener -> Prop) (m : M A) (f : A -> M B) :
  preserves I m -> (forall a, preserves I (f a)) -> preserves I (bind m f).
Proof.
  intros Hm Hf w H. unfold bind. specialize (Hm w H).
  destruct (m w) as [[a|e] w1]; cbn [snd] in *; [apply Hf, Hm|exact Hm].
Qed.

Lemma preserves_try_catch {A} (I : TaskListener -> Prop) (m : M A) (h : string -> M A) :
  preserves I m -> (forall e, preserves I (h e)) -> preserves I (try_catch m h).
Proof.
  intros Hm Hh w H. unfold try_catch. specialize (Hm w H).
  destruct (m w) as [[a|e] w1]; cbn [snd] in *; [exact Hm|apply Hh, Hm].
Qed.

Lemma preserves_try_finally {A} (I : TaskListener -> Prop) (m : M A) (f : M unit) :
  preserves I m -> preserves I f -> preserves I (try_finally m f).
Proof.
  intros Hm Hf w H. unfold try_finally. specialize (Hm w H).
  destruct (m w) as [r w1]; cbn [snd] in *. specialize (Hf w1 Hm).
  destruct (f w1) as [[u|e] w2]; exact Hf.
Qed.

Lemma preserves_attempt {A} (I : TaskListener -> Prop) (m : M A) :
  preserves I m -> preserves I (attempt m).
Proof. intros Hm w H. exact (Hm w H). Qed.

Lemma preserves_call {A} (I : TaskListener -> Prop) (e : Event) (r : Res A) :
  clock_blind I -> preserves I (call e r).
Proof. intros [Ht _] w H. unfold call, bind, emit, modify. cbn. apply Ht, H. Qed.

Lemma preserves_forM_ {A} (I : TaskListener -> Prop) (l : list A) (f : A -> M unit) :
  (forall x, preserves I (f x)) -> preserves I (forM_ l f).
Proof.
  intros Hf. induction l as [|x l IH]; simpl.
  - apply preserves_ret.
  - apply preserves_bind; auto.
Qed.

(** Break a goal [preserves I m] down along the structure of [m]. *)
Ltac preserves_step :=
  match goal with
  | |- preserves _ (bind _ _) => apply preserves_bind; [|intros ?]
  | |- preserves _ (ret _) => apply preserves_ret
  | |- preserves _ (throw _) => apply preserves_throw
  | |- preserves _ (gets _) => apply preserves_gets
  | |- preserves _ (emit _) => apply preserves_emit
  | |- preserves _ (call _ _) => apply preserves_call
  | |- preserves _ (attempt _) => apply preserves_attempt
  | |- preserves _ (try_catch _ _) => apply preserves_try_catch; [|intros ?]
  | |- preserves _ (try_finally _ _) => apply preserves_try_finally
  | |- preserves _ (forM_ _ _) => apply preserves_forM_; intros ?
  | |- preserves _ (fun w => (_, w)) => apply preserves_lift
  | |- preserves _ (if ?b then _ else _) => destruct b
  | |- preserves _ (match ?x with _ => _ end) => destruct x
  | |- preserves _ (let '(_, _) := ?x in _) => destruct x
  end.

Ltac preserves_auto := repeat preserves_step; auto.

Section ClockBlind.

Variable I : TaskListener -> Prop.
Hypothesis Hclock : clock_blind I.

Let Htrace : forall t w, I w -> I (set_trace t w) := proj1 Hclock.
Let Hticks : forall n w, I w -> I (set_ticks n w) := proj1 (proj2 Hclock).
Let Hlte : forall v w, I w -> I (set_lastTaskEvent v w) := proj2 (proj2 Hclock).

Lemma kept_Date_now (rt : Runtime) : preserves I (Date_now rt).
Proof.
  unfold Date_now. preserves_auto. apply preserves_modify. intros w. apply Hticks.
Qed.

Lemma kept_recordCapacity (rt : Runtime) : preserves I (recordCapacity rt).
Proof.
  unfold recordCapacity, measure, count.
  pose proof (kept_Date_now rt).
  preserves_auto. apply preserves_modify. intros w. apply Hlte.
Qed.

Lemma kept_cleanupRunningState (state : option RunningState) :
  preserves I (cleanupRunningState state).
Proof. unfold cleanupRunningState. preserves_auto. Qed.

Lemma kept_leaseDevices (rt : Runtime) (keys : list string) (rs : RunningState)
    (od : list (string * Device)) :
  preserves I (leaseDevices rt keys rs od).
Proof.
  revert rs od. induction keys as [|k keys IH]; intros rs od; simpl.
  - apply preserves_ret.
  - preserves_auto.
Qed.

Lemma kept_runTask_setup (rt : Runtime) (claim : Claim) :
  preserves I (runTask_setup rt claim).
Proof.
  unfold runTask_setup, leaseCpu, leasePayloadDevices, log, measure, debug.
  pose proof (kept_Date_now rt). pose proof (kept_leaseDevices rt).
  preserves_auto.
Qed.

(** The body of the outer [try] only adds to the registry. *)
Lemma kept_runTask_try (rt : Runtime) (claim : Claim) :
  (forall rs w, handler rs <> None -> I w ->
     I (set_runningTasks (runningTasks w ++ [rs]) w)) ->
  preserves I (runTask_try rt claim).
Proof.
  intros Hadd. unfold runTask_try, addRunningTask, logEvent.
  pose proof (kept_runTask_setup rt claim).
  pose proof (kept_recordCapacity rt).
  preserves_auto. apply preserves_modify. intros w. apply Hadd. discriminate.
Qed.

End ClockBlind.

Lemma silent_clock_blind (I : TaskListener -> Prop) : silent_blind I -> clock_blind I.
Proof. intros (H1 & H2 & H3 & _). repeat split; assumption. Qed.

Section SilentBlind.

Variable I : TaskListener -> Prop.
Hypothesis Hblind : silent_blind I.

Let Hclock : clock_blind I := silent_clock_blind I Hblind.
Let Htrace : forall t w, I w -> I (set_trace t w) := proj1 Hblind.
Let Hlkc : forall v w, I w -> I (set_lastKnownCapacity v w) :=
  proj2 (proj2 (proj2 (proj2 Hblind))).

Lemma preserves_Date_now (rt : Runtime) : preserves I (Date_now rt).
Proof. exact (kept_Date_now I Hclock rt). Qed.

Lemma preserves_recordCapacity (rt : Runtime) : preserves I (recordCapacity rt).
Proof. exact (kept_recordCapacity I Hclock rt). Qed.

Lemma preserves_cleanupRunningState (state : option RunningState) :
  preserves I (cleanupRunningState state).
Proof. exact (kept_cleanupRunningState I Hclock state). Qed.

Lemma preserves_availableCapacity (rt : Runtime) : preserves I (availableCapacity rt).
Proof.
  unfold availableCapacity, log. preserves_auto.
  apply preserves_modify. intros w. apply Hlkc.
Qed.

Lemma preserves_runTask_setup (rt : Runtime) (claim : Claim) :
  preserves I (runTask_setup rt claim).
Proof. exact (kept_runTask_setup I Hclock rt claim). Qed.

Lemma preserves_cancelTask (message : Message) : preserves I (cancelTask message).
Proof.
  unfold cancelTask, log, debug.
  pose proof preserves_cleanupRunningState. preserves_auto.
Qed.

End SilentBlind.

Section KeptByRunners.

Variable I : TaskListener -> Prop.
Hypothesis Hkept : kept_by_runners I.

Let Hblind : silent_blind I := proj1 Hkept.
Let Hclock : clock_blind I := silent_clock_blind I Hblind.

Lemma preserves_removeRunningTask (rt : Runtime) (rs : RunningState) :
  preserves I (removeRunningTask rt rs).
Proof.
  pose proof Hkept as (_ & _ & Hsplice).
  pose proof Hblind as (_ & _ & _ & Htot & Hlkc).
  unfold removeRunningTask, log.
  pose proof (preserves_recordCapacity I Hblind rt).
  pose proof (preserves_cleanupRunningState I Hblind).
  pose proof (preserves_Date_now I Hblind rt).
  preserves_auto; apply preserves_modify; intros w; auto.
Qed.

Lemma preserves_runTask_catch (rt : Runtime) (claim : Claim) (rs : RunningState)
    (task : option TaskDef) (e : string) :
  preserves I (runTask_catch rt claim rs task e).
Proof.
  unfold runTask_catch, log. pose proof (preserves_removeRunningTask rt rs).
  preserves_auto.
Qed.

Lemma preserves_runTask_resume (rt : Runtime) (p : Pending) (started : Res unit) :
  preserves I (runTask_resume rt p started).
Proof.
  unfold runTask_resume, logEvent, count.
  pose proof (preserves_removeRunningTask rt (p_state p)).
  pose proof (preserves_runTask_catch rt (p_claim p) (p_state p) (Some (p_task p))).
  preserves_auto.
Qed.

Lemma preserves_runTask_try (rt : Runtime) (claim : Claim) :
  preserves I (runTask_try rt claim).
Proof.
  exact (kept_runTask_try I Hclock rt claim (proj1 (proj2 Hkept))).
Qed.

Lemma preserves_runTask_begin (rt : Runtime) (claim : Claim) :
  preserves I (runTask_begin rt claim).
Proof.
  unfold runTask_begin, count.
  pose proof (preserves_runTask_try rt claim).
  pose proof (preserves_runTask_catch rt claim).
  preserves_auto.
Qed.

Lemma preserves_runnerStep (rt : Runtime) (step : RunnerStep) :
  preserves I (runnerStep rt step).
Proof.
  destruct step as [claim|p started]; cbn [runnerStep].
  - pose proof (preserves_runTask_begin rt claim). preserves_auto.
  - apply preserves_runTask_resume.
Qed.

Lemma preserves_launch (rt : Runtime) (claims : list Claim) :
  preserves I (launch rt claims).
Proof.
  induction claims as [|c claims IH]; simpl.
  - apply preserves_ret.
  - pose proof (preserves_runTask_begin rt c). preserves_auto.
Qed.

Lemma preserves_getTasks (rt : Runtime) : preserves I (getTasks rt).
Proof.
  unfold getTasks, debug.
  pose proof (preserves_availableCapacity I Hblind rt).
  pose proof (preserves_launch rt).
  preserves_auto.
Qed.

Lemma preserves_pollAndReport (rt : Runtime) : preserves I (pollAndReport rt).
Proof.
  unfold pollAndReport, isIdle, log.
  pose proof (preserves_getTasks rt).
  preserves_auto.
Qed.

Lemma preserves_drain (rt : Runtime) (sched : Schedule) :
  preserves I (drain rt sched).
Proof.
  induction sched as [|settled sched IH]; simpl; unfold isIdle.
  - preserves_auto.
  - pose proof (preserves_runnerStep rt). preserves_auto.
Qed.

End KeptByRunners.

Section KeptByWrites.

Variable I : TaskListener -> Prop.
Hypothesis Hkept : kept_by_writes I.

Let Hrun : kept_by_runners I := proj1 Hkept.
Let Hblind : silent_blind I := proj1 Hrun.
Let Hclock : clock_blind I := silent_clock_blind I Hblind.

Lemma preserves_shutdown (rt : Runtime) : preserves I (shutdown rt).
Proof.
  pose proof Hkept as (_ & Hcap & Hpause).
  unfold shutdown, pause, log, logEvent.
  preserves_auto; apply preserves_modify; auto.
Qed.

Lemma preserves_taskPoll (rt : Runtime) (sched : Schedule) :
  preserves I (taskPoll rt sched).
Proof.
  pose proof Hkept as (_ & Hcap & _).
  unfold taskPoll, pollAndReport, immediateExit, gracefulExit, abortRunningTasks,
    abortHandler, isIdle, log, debug, count.
  pose proof (preserves_getTasks I Hrun rt).
  pose proof (preserves_drain I Hrun rt sched).
  pose proof (preserves_shutdown rt).
  pose proof (preserves_cleanupRunningState I Hblind).
  preserves_auto.
Qed.

(** A property kept by the writes of the listener holds all along a run. *)
Lemma run_preserves (actions : list Action) (w : TaskListener) :
  I w -> I (run actions w).
Proof.
  revert w. induction actions as [|a actions IH]; intros w H; [exact H|].
  cbn [run]. apply IH. destruct a as [rt sched|rt step|message]; cbn [act]; unfold exec.
  - now apply preserves_taskPoll.
  - now apply (preserves_runnerStep I Hrun).
  - now apply (preserves_cancelTask I Hblind).
Qed.

End KeptByWrites.

(** ** The gates of the poll cycle *)

Lemma gateCalls_app (e1 e2 : list Event) :
  gateCalls (e1 ++ e2) = gateCalls e1 ++ gateCalls e2.
Proof. apply filter_app. Qed.

Lemma gateCalls_none (evs : list Event) : Forall not_gate evs -> gateCalls evs = [].
Proof.
  induction 1 as [|e evs He _ IH]; [reflexivity|].
  unfold gateCalls in *. cbn [filter]. unfold not_gate in He. now rewrite He.
Qed.

Lemma gateCalls_events_none {A} (m : M A) (w : TaskListener) :
  emits not_gate m -> gateCalls (events_since w (exec m w)) = [].
Proof. intros Hm. apply gateCalls_none. now apply emits_events. Qed.

Lemma claimCalls_gateCalls (evs : list Event) :
  claimCalls (gateCalls evs) = claimCalls evs.
Proof.
  unfold claimCalls, gateCalls. induction evs as [|e evs IH]; [reflexivity|].
  destruct e; simpl; rewrite ?IH; reflexivity.
Qed.

Lemma runner_not_gate (e : Event) : runner_only e -> not_gate e.
Proof.
  unfold runner_only, not_gate. destruct e; simpl; intros H; auto; discriminate.
Qed.

Lemma launch_not_gate (rt : Runtime) (claims : list Claim) :
  emits not_gate (launch rt claims).
Proof. exact (emits_weaken _ _ _ runner_not_gate (launch_emits rt claims)). Qed.

Lemma runnerStep_not_gate (rt : Runtime) (step : RunnerStep) :
  emits not_gate (runnerStep rt step).
Proof. exact (emits_weaken _ _ _ runner_not_gate (runnerStep_emits rt step)). Qed.

Lemma cancelTask_not_gate (message : Message) : emits not_gate (cancelTask message).
Proof. unfold cancelTask, log, debug, cleanupRunningState. emits_auto. Qed.

Lemma afterPoll_not_gate (rt : Runtime) (sched : Schedule) (launched : list Pending) :
  emits not_gate
    ((if String.eqb (shouldExit rt) "immediate" then immediateExit rt sched
      else if String.eqb (shouldExit rt) "graceful" then gracefulExit rt
      else ret tt) ;; ret launched).
Proof.
  assert (Hshut : emits not_gate (shutdown rt)).
  { unfold shutdown, pause, log, logEvent. emits_auto. }
  assert (Hdrain : emits not_gate (drain rt sched)).
  { induction sched as [|settled sched IH]; simpl; unfold isIdle.
    - emits_auto.
    - pose proof (runnerStep_not_gate rt). emits_auto. }
  unfold immediateExit, gracefulExit, abortRunningTasks, abortHandler, isIdle,
    count, debug, cleanupRunningState.
  emits_auto.
Qed.

Lemma afterSweep_gates (rt : Runtime) (v : Z) (w : TaskListener) :
  gateCalls (events_since w (exec (afterSweep rt v) w)) = gatesAfterSweep rt v.
Proof.
  unfold afterSweep, gatesAfterSweep, exec.
  unfold bind at 1, call, bind, emit, modify.
  destruct (exceedsDiskspaceThreshold rt v) as [[|]|e]; cbn [snd].
  - unfold debug, emit, modify, ret.
    now rewrite (events_since_app w _
                   [EDiskProbe v;
                    EDebug "not calling claimWork because not enough disk space"])
      by (cbn; now rewrite <- app_assoc).
  - destruct (claimWork rt v) as [[|c claims]|e]; cbn [snd length Nat.eqb negb].
    + unfold ret.
      now rewrite (events_since_app w _ [EDiskProbe v; EClaimWork v])
        by (cbn; now rewrite <- app_assoc).
    + destruct (purgeCaches rt) as [[]|e]; cbn [snd].
      * match goal with
        | |- context [launch rt ?cl ?w0] =>
            destruct (launch_not_gate rt cl w0) as (ev2 & Ht & Hq)
        end.
        rewrite (events_since_app w _
                   ([EDiskProbe v; EClaimWork v; EPurgeCaches] ++ ev2)).
        { rewrite gateCalls_app, (gateCalls_none _ Hq). reflexivity. }
        rewrite Ht. cbn [trace set_trace]. now rewrite <- !app_assoc.
      * now rewrite (events_since_app w _ [EDiskProbe v; EClaimWork v; EPurgeCaches])
          by (cbn; now rewrite <- !app_assoc).
    + now rewrite (events_since_app w _ [EDiskProbe v; EClaimWork v])
        by (cbn; now rewrite <- app_assoc).
  - now rewrite (events_since_app w _ [EDiskProbe v]) by reflexivity.
Qed.

Lemma capacity_gates (rt : Runtime) (w : TaskListener) :
  gateCalls (EProbe :: probeAlert rt ++ adjustedInfo rt w) = [EProbe].
Proof.
  change (EProbe :: probeAlert rt ++ adjustedInfo rt w)
    with ([EProbe] ++ probeAlert rt ++ adjustedInfo rt w).
  rewrite gateCalls_app, (gateCalls_none (probeAlert rt ++ adjustedInfo rt w));
    [reflexivity|].
  apply Forall_app. unfold probeAlert, adjustedInfo. split.
  - destruct (getAvailableCapacity rt); repeat constructor.
  - destruct (_ <? _); repeat constructor.
Qed.

Lemma getTasks_gates (rt : Runtime) (w : TaskListener) :
  gateCalls (events_since w (exec (getTasks rt) w)) = gatesOfCycle rt w.
Proof.
  pose proof (capacity_gates rt w) as Hcap.
  change (getTasks rt) with
    (availableCapacity' <- availableCapacity rt ;;
     if availableCapacity' =? 0 then
       debug "not calling claimWork because capacity is zero" ;; ret []
     else
       rts <- gets runningTasks ;;
       call (ESweep (Nat.eqb (length rts) 0)) (sweep rt (Nat.eqb (length rts) 0)) ;;
       afterSweep rt availableCapacity').
  unfold gatesOfCycle, exec. unfold bind at 1. rewrite availableCapacity_run.
  destruct (admissible rt w =? 0).
  - rewrite (events_since_app w _
               ((EProbe :: probeAlert rt ++ adjustedInfo rt w)
                ++ [EDebug "not calling claimWork because capacity is zero"])).
    + rewrite gateCalls_app, Hcap. reflexivity.
    + unfold bind, debug, emit, modify, ret.
      cbn [snd trace set_trace set_lastKnownCapacity].
      now rewrite <- !app_assoc.
  - unfold bind at 1, gets at 1. unfold bind at 1, call, bind, emit, modify.
    cbn [runningTasks set_lastKnownCapacity set_trace].
    set (b := Nat.eqb (length (runningTasks w)) 0).
    destruct (sweep rt b) as [[]|e].
    + match goal with
      | |- context [afterSweep rt ?v ?w0] =>
          pose proof (afterSweep_gates rt v w0) as Hg;
          destruct (afterSweep_emits rt v w0) as (ev2 & Ht & _)
      end.
      unfold exec in Hg. rewrite (events_since_app _ _ _ Ht) in Hg.
      rewrite (events_since_app w _
                 ((EProbe :: probeAlert rt ++ adjustedInfo rt w) ++ [ESweep b] ++ ev2)).
      * rewrite !gateCalls_app, Hcap, Hg. reflexivity.
      * rewrite Ht. cbn [snd trace set_trace set_lastKnownCapacity].
        now rewrite <- !app_assoc.
    + rewrite (events_since_app w _
                 ((EProbe :: probeAlert rt ++ adjustedInfo rt w) ++ [ESweep b])).
      * rewrite !gateCalls_app, Hcap. reflexivity.
      * cbn [snd trace set_trace set_lastKnownCapacity].
        now rewrite <- !app_assoc.
Qed.

Lemma taskPoll_gates (rt : Runtime) (sched : Schedule) (w : TaskListener) :
  gateCalls (events_since w (exec (taskPoll rt sched) w)) = gatesOfCycle rt w.
Proof.
  rewrite <- getTasks_gates. unfold taskPoll.
  rewrite events_bind;
    [|apply pollAndReport_emits
     |intros a; exact (emits_any _ _ (afterPoll_not_gate rt sched a))].
  rewrite gateCalls_app.
  assert (H2 : forall r : Res (list Pending),
             gateCalls match r with
                       | Ret a =>
                           events_since (exec (pollAndReport rt) w)
                             (exec ((if String.eqb (shouldExit rt) "immediate"
                                     then immediateExit rt sched
                                     else if String.eqb (shouldExit rt) "graceful"
                                          then gracefulExit rt
                                          else ret tt) ;; ret a)
                                (exec (pollAndReport rt) w))
                       | Throw _ => []
                       end = []).
  { intros [a|e]; [|reflexivity].
    apply gateCalls_events_none, afterPoll_not_gate. }
  rewrite H2, app_nil_r. unfold pollAndReport.
  rewrite events_bind.
  2:{ apply emits_try_catch; [apply getTasks_emits|].
      intros e. unfold log. emits_auto; exact I. }
  2:{ intros a. unfold isIdle. emits_auto; exact I. }
  rewrite gateCalls_app.
  rewrite events_try_catch; [|apply getTasks_emits|intros e; unfold log; emits_auto; exact I].
  rewrite gateCalls_app.
  match goal with
  | |- (_ ++ gateCalls ?x) ++ gateCalls ?y = _ =>
      assert (H3 : gateCalls x = []); [|assert (H4 : gateCalls y = [])]
  end.
  - destruct (result (getTasks rt) w) as [l|e]; [reflexivity|].
    apply gateCalls_events_none. unfold log. emits_auto.
  - destruct (result (try_catch _ _) w) as [l|e]; [|reflexivity].
    apply gateCalls_events_none. unfold isIdle. emits_auto.
  - now rewrite H3, H4, !app_nil_r.
Qed.

(** X1. The gates of a poll cycle.  A cycle calls the device probe; then, unless
    the admissible capacity is zero, [gc.sweep]; then, if the sweep
    returned, the disk probe; then, if the disk is below the threshold,
    [claimWork] with the admissible capacity; then, if a claim came back,
    [purgeCaches]: each at most once, in this order, each only when the one
    before it let the cycle through, and nothing later in the cycle calls
    any of them again. *)
Theorem poll_gate_calls (rt : Runtime) (sched : Schedule) (w : TaskListener) :
  let v := admissible rt w in
  let full := Nat.eqb (length (runningTasks w)) 0 in
  gateCalls (events_since w (exec (taskPoll rt sched) w))
  = EProbe
    :: (if v =? 0 then []
        else
          ESweep full
          :: match sweep rt full with
             | Throw _ => []
             | Ret _ =>
                 EDiskProbe v
                 :: match exceedsDiskspaceThreshold rt v with
                    | Ret false =>
                        EClaimWork v
                        :: match claimWork rt v with
                           | Ret (_ :: _) => [EPurgeCaches]
                           | _ => []
                           end
                    | _ => []
                    end
             end).
Proof. cbv zeta. exact (taskPoll_gates rt sched w). Qed.

(** ** The registry never outgrows the capacity *)







(** ** The exit switch *)

Lemma runner_poll_only (e : Event) : runner_only e -> poll_only e.
Proof.
  unfold runner_only, poll_only. destruct e; simpl; intros H; auto; discriminate.
Qed.

Lemma pollAndReport_poll_only (rt : Runtime) : emits poll_only (pollAndReport rt).
Proof.
  unfold pollAndReport, getTasks, availableCapacity, isIdle, log, debug.
  pose proof (fun claims => emits_weaken _ _ _ runner_poll_only (launch_emits rt claims)).
  emits_auto.
Qed.

Lemma poll_only_no_abort (evs : list Event) (h : Task) (reason : string) :
  Forall poll_only evs -> ~ In (EAbort h reason) evs.
Proof.
  intros H Hin. rewrite Forall_forall in H. specialize (H _ Hin). discriminate.
Qed.

Lemma poll_only_no_shutdown (evs : list Event) :
  Forall poll_only evs -> ~ In EHostShutdown evs.
Proof.
  intros H Hin. rewrite Forall_forall in H. specialize (H _ Hin). discriminate.
Qed.

Lemma poll_only_count (evs : list Event) :
  Forall poll_only evs -> countOf "spotTermination" evs = 0.
Proof.
  induction 1 as [|e evs He _ IH]; simpl; [reflexivity|].
  destruct e; auto.
  unfold poll_only in He. simpl in He. apply negb_true_iff in He.
  rewrite He. exact IH.
Qed.

Lemma gracefulExit_run (rt : Runtime) (w : TaskListener) :
  exec (gracefulExit rt) w
  = if Nat.eqb (length (runningTasks w)) 0
    then set_trace (trace w ++ shutdownEvents) (set_capacity 0 (set_paused true w))
    else set_capacity 0 w.
Proof.
  unfold exec, gracefulExit, bind, modify, isIdle, bind, gets, ret.
  cbn [runningTasks set_capacity fst snd].
  destruct (Nat.eqb (length (runningTasks w)) 0); [|reflexivity].
  rewrite shutdown_run. cbn [snd]. destruct w; reflexivity.
Qed.

Lemma taskPoll_graceful (rt : Runtime) (sched : Schedule) (w : TaskListener) :
  shouldExit rt = "graceful" ->
  exec (taskPoll rt sched) w = exec (gracefulExit rt) (exec (pollAndReport rt) w).
Proof.
  intros Hexit. destruct (pollAndReport_total rt w) as [l Hl].
  unfold exec, result, taskPoll, bind in *.
  destruct (pollAndReport rt w) as [r w1]. cbn [fst snd] in *. subst r.
  rewrite Hexit. cbn [String.eqb Ascii.eqb Bool.eqb].
  destruct (gracefulExit rt w1) as [[[]|e] w2]; reflexivity.
Qed.

Lemma taskPoll_no_exit (rt : Runtime) (sched : Schedule) (w : TaskListener) :
  shouldExit rt <> "immediate" -> shouldExit rt <> "graceful" ->
  taskPoll rt sched w = pollAndReport rt w.
Proof.
  intros Hi Hg. destruct (pollAndReport_total rt w) as [l Hl].
  unfold result, taskPoll, bind in *.
  destruct (pollAndReport rt w) as [r w1]. cbn [fst snd] in *. subst r.
  apply String.eqb_neq in Hi, Hg. now rewrite Hi, Hg.
Qed.

Lemma capacity_kept (c : Z) : kept_by_runners (fun w => capacity w = c).
Proof. repeat split; intros; assumption. Qed.

Lemma paused_kept (b : bool) : kept_by_runners (fun w => paused w = b).
Proof. repeat split; intros; assumption. Qed.

(** X5. A cycle without exit request.  When [shouldExit()] answers neither
    "immediate" nor "graceful", a poll cycle is the claiming of tasks and
    the idle or working report and nothing more: it returns (the runners it
    has launched), it leaves the capacity and the pause flag as they are,
    and it neither aborts a handler, nor counts a spotTermination, nor
    calls the host's [shutdown()]. *)
Theorem poll_without_exit (rt : Runtime) (sched : Schedule) (w : TaskListener) :
  shouldExit rt <> "immediate" -> shouldExit rt <> "graceful" ->
  let w' := exec (taskPoll rt sched) w in
  (exists launched, result (taskPoll rt sched) w = Ret launched)
  /\ capacity w' = capacity w
  /\ paused w' = paused w
  /\ (forall h reason, ~ In (EAbort h reason) (events_since w w'))
  /\ countOf "spotTermination" (events_since w w') = 0
  /\ ~ In EHostShutdown (events_since w w').
Proof.
  intros Hi Hg. cbv zeta. unfold exec, result.
  rewrite (taskPoll_no_exit rt sched w Hi Hg).
  fold (exec (pollAndReport rt) w). fold (result (pollAndReport rt) w).
  split; [apply pollAndReport_total|].
  split; [exact (preserves_pollAndReport _ (capacity_kept (capacity w)) rt w eq_refl)|].
  split; [exact (preserves_pollAndReport _ (paused_kept (paused w)) rt w eq_refl)|].
  pose proof (emits_events _ _ w (pollAndReport_poll_only rt)) as Hq.
  split; [intros h reason; exact (poll_only_no_abort _ _ _ Hq)|].
  split; [exact (poll_only_count _ Hq)|].
  exact (poll_only_no_shutdown _ Hq).
Qed.

Lemma poll_without_exit_witness :
  shouldExit rtS1 <> "immediate" /\ shouldExit rtS1 <> "graceful"
  /\ capacity (exec (taskPoll rtS1 []) (constructor 2 false 0)) = 2
  /\ paused (exec (taskPoll rtS1 []) (constructor 2 false 0)) = false.
Proof.
  assert (Hi : shouldExit rtS1 <> "immediate") by discriminate.
  assert (Hg : shouldExit rtS1 <> "graceful") by discriminate.
  split; [exact Hi|]. split; [exact Hg|].
  destruct (poll_without_exit rtS1 [] (constructor 2 false 0) Hi Hg)
    as (_ & Hc & Hp & _).
  split; [exact Hc|exact Hp].
Defined.

(** ** The report to the shutdown manager *)

Lemma reports_app (e1 e2 : list Event) : reports (e1 ++ e2) = reports e1 ++ reports e2.
Proof. apply flat_map_app. Qed.

Lemma reports_none (evs : list Event) : Forall not_report evs -> reports evs = [].
Proof.
  induction 1 as [|e evs He _ IH]; [reflexivity|].
  cbn [reports flat_map]. fold (reports evs). rewrite IH.
  destruct e; try reflexivity; destruct He.
Qed.

(** ** Runs of the listener *)

Lemma taskPoll_emits (rt : Runtime) (sched : Schedule) :
  emits any_event (taskPoll rt sched).
Proof.
  unfold taskPoll. apply emits_bind; [apply pollAndReport_emits|].
  intros a. exact (emits_any _ _ (afterPoll_not_gate rt sched a)).
Qed.

Lemma cancelTask_before_exit (message : Message) :
  emits before_exit (cancelTask message).
Proof. unfold cancelTask, log, debug, cleanupRunningState. emits_auto. Qed.

Lemma act_trace (a : Action) (w : TaskListener) :
  trace (act a w) = trace w ++ events_since w (act a w).
Proof.
  destruct a as [rt sched|rt step|message]; cbn [act].
  - exact (emits_trace _ _ w (taskPoll_emits rt sched)).
  - exact (emits_trace _ _ w (runnerStep_emits rt step)).
  - exact (emits_trace _ _ w (cancelTask_before_exit message)).
Qed.

Lemma run_trace (actions : list Action) (w : TaskListener) :
  trace (run actions w) = trace w ++ events_since w (run actions w).
Proof.
  revert w. induction actions as [|a actions IH]; intros w; cbn [run].
  - now rewrite events_since_refl, app_nil_r.
  - rewrite (events_since_trans w (act a w) _ _ _ (act_trace a w) (IH (act a w))).
    rewrite (IH (act a w)) at 1. rewrite (act_trace a w) at 1.
    now rewrite app_assoc.
Qed.

Lemma run_events (a : Action) (actions : list Action) (w : TaskListener) :
  events_since w (run (a :: actions) w)
  = events_since w (act a w) ++ events_since (act a w) (run actions (act a w)).
Proof.
  cbn [run].
  exact (events_since_trans w (act a w) _ _ _ (act_trace a w) (run_trace actions (act a w))).
Qed.

Lemma stopped_kept : kept_by_writes (fun w => capacity w = 0).
Proof. repeat split; intros; assumption. Qed.

Lemma stopped_admissible (rt : Runtime) (w : TaskListener) :
  capacity w = 0 -> 0 <= deviceCapacityOf rt -> admissible rt w = 0.
Proof. unfold admissible, runningCapacityOf. intros -> H. lia. Qed.

(** X7. A stopped listener.  Once the capacity is zero it stays zero, and as
    long as the device probe does not answer a negative number, a poll
    cycle stops at the capacity check: whatever poll cycles, runner steps
    and cancellations follow, each cycle calls the device probe and none of
    the other gates, so that nothing is swept, the disk is not probed, and
    no task is claimed any more. *)
Theorem stopped_listener_claims_nothing (actions : list Action) (w : TaskListener) :
  capacity w = 0 -> probes_not_negative actions ->
  capacity (run actions w) = 0
  /\ gateCalls (events_since w (run actions w)) = repeat EProbe (polls actions)
  /\ claimCalls (events_since w (run actions w)) = [].
Proof.
  intros Hcap Hdev.
  split; [exact (run_preserves _ stopped_kept actions w Hcap)|].
  assert (Hg : gateCalls (events_since w (run actions w))
               = repeat EProbe (polls actions)).
  { revert w Hcap. induction Hdev as [|a actions Ha _ IH]; intros w Hcap.
    - cbn [run]. now rewrite events_since_refl.
    - rewrite run_events, gateCalls_app.
      assert (Hcap' : capacity (act a w) = 0)
        by exact (run_preserves _ stopped_kept [a] w Hcap).
      rewrite (IH _ Hcap'). unfold polls. cbn [filter].
      destruct a as [rt sched|rt step|message]; cbn [act length repeat].
      + rewrite taskPoll_gates. unfold gatesOfCycle.
        now rewrite (stopped_admissible rt w Hcap Ha).
      + now rewrite (gateCalls_events_none _ w (runnerStep_not_gate rt step)).
      + now rewrite (gateCalls_events_none _ w (cancelTask_not_gate message)). }
  split; [exact Hg|].
  rewrite <- claimCalls_gateCalls, Hg. clear.
  induction (polls actions) as [|n IH]; [reflexivity|exact IH].
Qed.

Lemma stopped_listener_claims_nothing_witness :
  capacity (constructor 0 true 0) = 0
  /\ probes_not_negative
       [APoll rtS1 []; AStep rtS1 (Launch claimA); ACancel cancelA; APoll rtS6 []]
  /\ claimCalls
       (events_since (constructor 0 true 0)
          (run [APoll rtS1 []; AStep rtS1 (Launch claimA); ACancel cancelA;
                APoll rtS6 []]
             (constructor 0 true 0))) = [].
Proof.
  assert (Hd : probes_not_negative
                 [APoll rtS1 []; AStep rtS1 (Launch claimA); ACancel cancelA;
                  APoll rtS6 []]).
  { repeat constructor; vm_compute; discriminate. }
  split; [reflexivity|]. split; [exact Hd|].
  exact (proj2 (proj2 (stopped_listener_claims_nothing _ (constructor 0 true 0)
                         eq_refl Hd))).
Defined.

(** The host's shutdown is called in a poll cycle only with the listener
    paused and its capacity zeroed. *)
Lemma taskPoll_shutdown_state (rt : Runtime) (sched : Schedule) (w : TaskListener) :
  In EHostShutdown (events_since w (exec (taskPoll rt sched) w)) ->
  paused (exec (taskPoll rt sched) w) = true
  /\ capacity (exec (taskPoll rt sched) w) = 0.
Proof.
  destruct (pollAndReport_before_exit rt w) as (pre & Hpre & Hqpre).
  fold (exec (pollAndReport rt) w) in Hpre.
  destruct (String.eqb_spec (shouldExit rt) "immediate") as [Hi|Hi].
  - rewrite (taskPoll_immediate _ _ _ Hi).
    set (w1 := exec (pollAndReport rt) w) in *.
    destruct (immediateExit_run rt sched w1) as (waits & Ht & Hq & _ & Hstop).
    cbv zeta in Ht, Hstop.
    set (w' := exec (immediateExit rt sched) w1) in *.
    rewrite (events_since_trans w w1 w' _ _ Hpre Ht).
    intros Hin. apply Hstop.
    apply in_app_or in Hin. destruct Hin as [Hin|Hin].
    { exfalso. exact (before_exit_no_shutdown _ Hqpre Hin). }
    destruct Hin as [Hin|Hin]; [discriminate|].
    apply in_app_or in Hin. destruct Hin as [Hin|Hin].
    { exfalso. exact (before_exit_no_shutdown _ (abortEvents_before_exit _ _) Hin). }
    apply in_app_or in Hin. destruct Hin as [Hin|Hin].
    { exfalso. refine (before_exit_no_shutdown _ _ Hin).
      eapply Forall_impl; [|exact Hq]. exact wait_before_exit. }
    destruct (runningTasks w'); [reflexivity|destruct Hin].
  - destruct (String.eqb_spec (shouldExit rt) "graceful") as [Hg|Hg].
    + rewrite (taskPoll_graceful _ _ _ Hg), gracefulExit_run.
      set (w1 := exec (pollAndReport rt) w) in *.
      destruct (Nat.eqb (length (runningTasks w1)) 0); [auto|].
      rewrite (events_since_app w _ pre) by exact Hpre.
      intros Hin. exfalso. exact (before_exit_no_shutdown _ Hqpre Hin).
    + unfold exec. rewrite (taskPoll_no_exit rt sched w Hi Hg).
      fold (exec (pollAndReport rt) w).
      rewrite (events_since_app w _ pre) by exact Hpre.
      intros Hin. exfalso. exact (before_exit_no_shutdown _ Hqpre Hin).
Qed.

Lemma halted_kept : kept_by_writes (fun w => paused w = true /\ capacity w = 0).
Proof. repeat split; intros; try tauto; cbn; tauto. Qed.

(** X8. The host's shutdown is final.  If the host's [shutdown()] has been
    called at any point of a run of poll cycles, runner steps and
    cancellations, then at the end of the run the listener is paused and
    its capacity is zero. *)
Theorem host_shutdown_is_final (actions : list Action) (w : TaskListener) :
  In EHostShutdown (events_since w (run actions w)) ->
  paused (run actions w) = true /\ capacity (run actions w) = 0.
Proof.
  revert w. induction actions as [|a actions IH]; intros w.
  - cbn [run]. rewrite events_since_refl. intros [].
  - rewrite run_events. intros Hin. apply in_app_or in Hin.
    destruct Hin as [Hin|Hin]; [|exact (IH _ Hin)].
    cbn [run]. apply (run_preserves _ halted_kept).
    destruct a as [rt sched|rt step|message]; cbn [act] in *.
    + exact (taskPoll_shutdown_state rt sched w Hin).
    + exfalso. refine (before_exit_no_shutdown _ _ Hin).
      eapply Forall_impl; [exact runner_before_exit|].
      exact (emits_events _ _ w (runnerStep_emits rt step)).
    + exfalso.
      exact (before_exit_no_shutdown _
               (emits_events _ _ w (cancelTask_before_exit message)) Hin).
Qed.

Lemma host_shutdown_is_final_witness :
  In EHostShutdown
    (events_since wS5 (run [APoll rtS5 schedS5; APoll rtS1 []; ACancel cancelA] wS5))
  /\ paused (run [APoll rtS5 schedS5; APoll rtS1 []; ACancel cancelA] wS5) = true
  /\ capacity (run [APoll rtS5 schedS5; APoll rtS1 []; ACancel cancelA] wS5) = 0.
Proof.
  assert (H : In EHostShutdown
                (events_since wS5
                   (run [APoll rtS5 schedS5; APoll rtS1 []; ACancel cancelA] wS5))).
  { vm_compute. repeat first [left; reflexivity | right]. }
  split; [exact H|].
  exact (host_shutdown_is_final _ wS5 H).
Defined.

Lemma one_way_kept (c : Z) (b : bool) :
  kept_by_writes (fun w => (capacity w = c \/ capacity w = 0)
                           /\ (paused w = b \/ paused w = true)).
Proof. repeat split; intros; try tauto; cbn; tauto. Qed.

Lemma restrictCPU_kept (b : bool) : kept_by_writes (fun w => restrictCPU w = b).
Proof. repeat split; intros; assumption. Qed.

(** X9. The switches of the listener go one way.  Along any run of poll
    cycles, runner steps and cancellations the capacity is either what it
    was or zero, the pause flag is either what it was or set, and the CPU
    restriction is what it was: none of them raises the capacity again or
    takes a pause back. *)
Theorem switches_go_one_way (actions : list Action) (w : TaskListener) :
  (capacity (run actions w) = capacity w \/ capacity (run actions w) = 0)
  /\ (paused (run actions w) = paused w \/ paused (run actions w) = true)
  /\ restrictCPU (run actions w) = restrictCPU w.
Proof.
  pose proof (run_preserves _ (one_way_kept (capacity w) (paused w)) actions w) as H.
  pose proof (run_preserves _ (restrictCPU_kept (restrictCPU w)) actions w eq_refl) as H'.
  cbv beta in H. tauto.
Qed.

(** ** The handlers of the registry *)

Lemma Forall_splice1 {A} (P : A -> Prop) (i : nat) (l : list A) :
  Forall P l -> Forall P (splice1 i l).
Proof.
  intros H. unfold splice1. apply Forall_app. split.
  - rewrite <- (firstn_skipn i l) in H. now apply Forall_app in H.
  - rewrite <- (firstn_skipn (S i) l) in H. now apply Forall_app in H.
Qed.

Lemma handlers_kept : kept_by_writes handlers_set.
Proof.
  unfold handlers_set. repeat split; intros; try assumption; cbn [runningTasks set_runningTasks].
  - apply Forall_app. split; [assumption|]. now constructor.
  - now apply Forall_splice1.
Qed.

Lemma find_by_handler_total (tid : string) (rid : Z) (l : list RunningState) :
  Forall (fun st => handler st <> None) l ->
  exists found, find_by_handler tid rid l = Ret found.
Proof.
  induction 1 as [|st l Hst _ IH]; cbn [find_by_handler]; [eauto|].
  destruct (handler st) as [h|]; [|contradiction].
  destruct (_ && _); eauto.
Qed.

(** ** What a runner leaves behind *)

Lemma yields_ret {A} (Q : A -> Prop) (a : A) : Q a -> yields Q (ret a).
Proof. intros H w a' E. inversion E. now subst. Qed.

Lemma yields_bind {A B} (Q : B -> Prop) (m : M A) (f : A -> M B) :
  (forall a, yields Q (f a)) -> yields Q (bind m f).
Proof.
  intros Hf w b. unfold bind. destruct (m w) as [[a|e] w1]; [apply Hf|discriminate].
Qed.

Lemma leaseDevices_startTime (rt : Runtime) (keys : list string) (rs : RunningState)
    (od : list (string * Device)) :
  yields (fun x => startTime (fst (fst x)) = startTime rs) (leaseDevices rt keys rs od).
Proof.
  revert rs od. induction keys as [|k keys IH]; intros rs od; simpl.
  - now apply yields_ret.
  - apply yields_bind. intros [d|e]; [apply (IH (set_device k d rs))|now apply yields_ret].
Qed.

Lemma leaseCpu_startTime (rt : Runtime) (rs : RunningState) :
  yields (fun x => startTime (fst (fst x)) = startTime rs) (leaseCpu rt rs).
Proof.
  unfold leaseCpu. apply yields_bind. intros [|]; [|now apply yields_ret].
  apply yields_bind. intros [d|e]; now apply yields_ret.
Qed.

Lemma leasePayloadDevices_startTime (rt : Runtime) (task : TaskDef) (rs : RunningState)
    (o : Options) :
  yields (fun x => startTime (fst (fst x)) = startTime rs)
    (leasePayloadDevices rt task rs o).
Proof.
  unfold leasePayloadDevices.
  destruct (capabilities task) as [[[keys|]]|]; try now apply yields_ret.
  apply yields_bind. intros _. intros w a E. unfold bind in E.
  pose proof (leaseDevices_startTime rt keys rs [] w) as Hl.
  destruct (leaseDevices rt keys rs [] w) as [[[[rs' od] r]|e] w1]; [|discriminate].
  specialize (Hl _ eq_refl). inversion E; subst. exact Hl.
Qed.

(** The start time of a runner's state is the first clock reading of
    [runTask]. *)
Lemma runTask_setup_startTime (rt : Runtime) (claim : Claim) (w : TaskListener)
    (rs : RunningState) (task : option TaskDef) (r : Res (TaskDef * Options)) :
  fst (runTask_setup rt claim w) = Ret (rs, task, r) ->
  startTime rs = clock rt (ticks w).
Proof.
  unfold runTask_setup.
  unfold bind at 1, Date_now at 1. unfold bind at 1, gets at 1.
  unfold bind at 1, modify at 1, ret at 1.
  revert rs task r.
  match goal with
  | |- forall rs task r, fst (?m ?w0) = _ -> _ =>
      assert (Hy : yields (fun x => startTime (fst (fst x)) = clock rt (ticks w)) m)
  end.
  { apply yields_bind. intros _.
    destruct (c_task claim) as [task|]; [|now apply yields_ret].
    apply yields_bind. intros _.
    intros w1 a E. unfold bind at 1 in E.
    match type of E with
    | context [leaseCpu rt ?rs0 w1] =>
        pose proof (leaseCpu_startTime rt rs0 w1) as H1;
        destruct (leaseCpu rt rs0 w1) as [[[[rs1 o1] r1]|e1] w2]; [|discriminate]
    end.
    specialize (H1 _ eq_refl). cbn [fst startTime] in H1.
    destruct r1 as [[]|e1]; [|inversion E; subst; exact H1].
    unfold bind at 1 in E.
    pose proof (leasePayloadDevices_startTime rt task rs1 o1 w2) as H2.
    destruct (leasePayloadDevices rt task rs1 o1 w2) as [[[[rs2 o2] r2]|e2] w3];
      [|discriminate].
    specialize (H2 _ eq_refl). cbn [fst] in H2.
    destruct r2 as [[]|e2]; inversion E; subst; cbn [fst]; congruence. }
  intros rs task r E. exact (Hy _ _ E).
Qed.

Lemma runTask_try_startTime (rt : Runtime) (claim : Claim) (w : TaskListener)
    (rs : RunningState) (task : option TaskDef) (p : Pending) :
  fst (runTask_try rt claim w) = Ret (rs, task, Ret p) ->
  startTime (p_state p) = clock rt (ticks w).
Proof.
  unfold runTask_try. unfold bind at 1.
  pose proof (runTask_setup_startTime rt claim w) as Hs.
  destruct (runTask_setup rt claim w) as [[[[rs0 task0] r0]|e] ws]; [|discriminate].
  specialize (Hs _ _ _ eq_refl).
  destruct r0 as [[t o]|e]; [|discriminate].
  destruct (newTask rt claim o) as [h|e]; [|discriminate].
  unfold bind at 1. rewrite addRunningTask_run.
  unfold bind, logEvent, emit, modify, ret. cbn [fst].
  intros E. inversion E; subst. exact Hs.
Qed.

Lemma runTask_catch_result (rt : Runtime) (claim : Claim) (rs : RunningState)
    (task : option TaskDef) (e : string) (w : TaskListener) :
  runTask_catch rt claim rs task e w
  = (Ret tt,
     set_trace
       (trace (removed rt rs w)
        ++ [match task with
            | Some _ => taskError claim e
            | None => ELog "task error" [("message", VStr e)]
            end])
       (removed rt rs w)).
Proof.
  unfold runTask_catch, bind. rewrite removeRunningTask_run.
  destruct task; reflexivity.
Qed.

Lemma set_trace_twice (t1 t2 : list Event) (w : TaskListener) :
  set_trace t1 (set_trace t2 w) = set_trace t1 w.
Proof. reflexivity. Qed.

(** A runner that is suspended at [start()] has only read the clock, leased
    devices and added its state. *)
Lemma runTask_begin_started (rt : Runtime) (claim : Claim) (w : TaskListener)
    (p : Pending) :
  result (runTask_begin rt claim) w = Ret (Some p) ->
  let w1 := exec (runTask_begin rt claim) w in
  startTime (p_state p) = clock rt (ticks w)
  /\ taskId (p_state p) = c_taskId claim /\ runId (p_state p) = c_runId claim
  /\ runningTasks w1 = runningTasks w ++ [p_state p]
  /\ lastKnownCapacity w1 = lastKnownCapacity w
  /\ totalRunTime w1 = totalRunTime w.
Proof.
  intros Hres. cbv zeta.
  destruct (runTask_begin_run rt claim w)
    as [(pre & Hnone & _)|(task & rs & h & pre & _ & Hsome & _ & Ht & Hr & _ & _ & Hreg)].
  { rewrite Hres in Hnone. discriminate. }
  cbv zeta in Hreg. rewrite Hres in Hsome. inversion Hsome; subst p.
  cbn [p_state]. clear Hsome.
  assert (Hkept : preserves
                    (fun w0 => lastKnownCapacity w0 = lastKnownCapacity w
                               /\ totalRunTime w0 = totalRunTime w)
                    (runTask_try rt claim)).
  { apply kept_runTask_try; [repeat split; intros; tauto|]. intros; tauto. }
  specialize (Hkept w (conj eq_refl eq_refl)).
  pose proof (runTask_try_startTime rt claim w) as Hst.
  unfold result, exec, runTask_begin, bind in *.
  destruct (runTask_try rt claim w) as [[[[rs' task'] [p'|e]]|e0] w1].
  - cbn [fst snd ret] in *. inversion Hres; subst p'.
    specialize (Hst _ _ _ eq_refl). cbn [p_state] in Hst. tauto.
  - rewrite runTask_catch_result in Hres. unfold count, emit, modify, ret in Hres.
    discriminate.
  - discriminate.
Qed.

(** A runner that ends in its setup has released what it had leased and
    called [removeRunningTask] on a state that was never added. *)
Lemma runTask_begin_failed (rt : Runtime) (claim : Claim) (w : TaskListener) :
  result (runTask_begin rt claim) w = Ret None ->
  exists rs n t t',
    taskId rs = c_taskId claim /\ runId rs = c_runId claim
    /\ exec (runTask_begin rt claim) w
       = set_trace t' (removed rt rs (set_ticks n (set_trace t w))).
Proof.
  intros Hnone.
  destruct (runTask_setup_run rt claim w)
    as (rs & task & r & n & evs & Heq & _ & Hid1 & Hid2 & _).
  exists rs, n, (trace w ++ evs).
  assert (Htry : exists e,
             runTask_try rt claim w
             = (Ret (rs, task, Throw e), set_ticks n (set_trace (trace w ++ evs) w))).
  { unfold result, runTask_begin in Hnone. unfold bind at 1 in Hnone.
    unfold runTask_try in *. unfold bind at 1 in Hnone. unfold bind at 1.
    rewrite Heq in *.
    destruct r as [[t o]|e]; [|exists e; reflexivity].
    destruct (newTask rt claim o) as [h|e]; [|exists e; reflexivity].
    exfalso. unfold bind at 1 in Hnone. rewrite addRunningTask_run in Hnone.
    unfold bind, logEvent, emit, modify, ret in Hnone. discriminate. }
  destruct Htry as (e & Htry).
  unfold exec, runTask_begin. unfold bind at 1. rewrite Htry.
  unfold bind. rewrite runTask_catch_result.
  unfold count, emit, modify, ret. cbn [snd].
  eexists. split; [exact Hid1|]. split; [exact Hid2|].
  rewrite set_trace_twice. reflexivity.
Qed.








(** ** The poll timer *)

Lemma pollTimeout_run (rt : Runtime) (sched : Schedule) (w : TaskListener) :
  pollTimeout rt sched w
  = match result (taskPoll rt sched) w with
    | Ret _ =>
        (Ret (negb (paused (exec (taskPoll rt sched) w))), exec (taskPoll rt sched) w)
    | Throw e =>
        (Ret (negb (paused (exec (taskPoll rt sched) w))),
         set_trace
           (trace (exec (taskPoll rt sched) w)
            ++ [ELog "error polling tasks" [("message", VStr e)]])
           (exec (taskPoll rt sched) w))
    end.
Proof.
  unfold pollTimeout, scheduleTaskPoll, result, exec.
  unfold bind at 1, try_catch, bind at 1.
  destruct (taskPoll rt sched w) as [[l|e] w1]; cbn [fst snd].
  - unfold ret, bind, gets. destruct (paused w1); reflexivity.
  - unfold log, emit, modify, bind, gets, ret. cbn [paused set_trace].
    destruct (paused w1); reflexivity.
Qed.

Lemma paused_kept_by_writes : kept_by_writes (fun w => paused w = true).
Proof. repeat split; intros; assumption. Qed.

(** X13. A paused listener stays paused.  The poll cycles, the runners and the
    cancellations never take a pause back (only [resume()] does): from a
    paused listener on, whatever they do, the callback of a poll timer that
    still fires runs its cycle and arms no further timer. *)
Theorem paused_listener_not_rearmed (actions : list Action) (rt : Runtime)
    (sched : Schedule) (w : TaskListener) :
  paused w = true ->
  paused (run actions w) = true
  /\ result (pollTimeout rt sched) (run actions w) = Ret false
  /\ result scheduleTaskPoll (run actions w) = Ret false.
Proof.
  intros Hp.
  pose proof (run_preserves _ paused_kept_by_writes actions w Hp) as H1.
  pose proof (run_preserves _ paused_kept_by_writes [APoll rt sched] _ H1) as H2.
  cbn [run act] in H2.
  split; [exact H1|]. split.
  - unfold result. rewrite pollTimeout_run.
    destruct (result (taskPoll rt sched) (run actions w)); cbn [fst]; now rewrite H2.
  - unfold result, scheduleTaskPoll, bind, gets. now rewrite H1.
Qed.

Lemma paused_listener_not_rearmed_witness :
  paused (exec (taskPoll rtS5 schedS5) wS5) = true
  /\ result (pollTimeout rtS1 [])
       (run [AStep rtS1 (Launch claimA); ACancel cancelA]
          (exec (taskPoll rtS5 schedS5) wS5)) = Ret false.
Proof.
  assert (H : paused (exec (taskPoll rtS5 schedS5) wS5) = true)
    by (vm_compute; reflexivity).
  split; [exact H|].
  exact (proj1 (proj2 (paused_listener_not_rearmed
                         [AStep rtS1 (Launch claimA); ACancel cancelA] rtS1 [] _ H))).
Defined.

(** ** The capacity report *)

Lemma set_ticks_twice (a b : nat) (w : TaskListener) :
  set_ticks a (set_ticks b w) = set_ticks a w.
Proof. reflexivity. Qed.

Lemma set_ticks_id (w : TaskListener) : set_ticks (ticks w) w = w.
Proof. now destruct w. Qed.

Lemma sumRunTime_run (rt : Runtime) (tasks : list RunningState) (total : Z)
    (w : TaskListener) :
  sumRunTime rt tasks total w
  = (Ret (total + runTimes rt (ticks w) tasks),
     set_ticks (ticks w + length tasks) w).
Proof.
  revert total w. induction tasks as [|task tasks IH]; intros total w.
  - cbn [sumRunTime runTimes length]. unfold ret.
    now rewrite Z.add_0_r, Nat.add_0_r, set_ticks_id.
  - cbn [sumRunTime runTimes length].
    unfold bind at 1, Date_now, bind, gets, modify, ret. rewrite IH.
    cbn [ticks set_ticks]. rewrite set_ticks_twice.
    f_equal; [f_equal; lia|f_equal; lia].
Qed.

Lemma capacityReport_run (rt : Runtime) (uptime : Z) (last : CapacityState)
    (w : TaskListener) :
  capacityReport rt uptime last w
  = (Ret (snapshot (clock rt (ticks w)) w,
          capacityCounts last (clock rt (ticks w) - cs_time last)
          ++ [RLog (Efficiency (totalRunTime w + runTimes rt (S (ticks w)) (runningTasks w))
                      (capacity w) uptime)
                uptime
                (totalRunTime w + runTimes rt (S (ticks w)) (runningTasks w))
                VUndef;
              RMeasure "total-efficiency"
                (Efficiency (totalRunTime w + runTimes rt (S (ticks w)) (runningTasks w))
                   (capacity w) uptime)]),
     set_ticks (S (ticks w) + length (runningTasks w)) w).
Proof.
  unfold capacityReport.
  unfold bind at 1, Date_now, bind at 1, gets at 1, bind at 1, modify, ret at 1.
  unfold bind at 1, gets at 1. unfold bind at 1, gets at 1.
  unfold bind at 1, gets at 1. unfold bind at 1, gets at 1.
  unfold bind at 1. rewrite sumRunTime_run.
  unfold bind, gets, ret.
  cbn [ticks set_ticks runningTasks lastKnownCapacity totalRunTime capacity cs_time].
  rewrite set_ticks_twice. reflexivity.
Qed.

Lemma reportCapacityState_run (rt : Runtime) (uptime : Z) (r : Reporter) :
  reportCapacityState rt uptime r
  = (Ret tt,
     let w := listener r in
     let total := totalRunTime w + runTimes rt (S (ticks w)) (runningTasks w) in
     {| listener := set_ticks (S (ticks w) + length (runningTasks w)) w;
        lastCapacityState := snapshot (clock rt (ticks w)) w;
        sent :=
          sent r
          ++ capacityCounts (lastCapacityState r)
               (clock rt (ticks w) - cs_time (lastCapacityState r))
          ++ [RLog (Efficiency total (capacity w) uptime) uptime total VUndef;
              RMeasure "total-efficiency" (Efficiency total (capacity w) uptime)] |}).
Proof. unfold reportCapacityState. now rewrite capacityReport_run. Qed.

(** X14. The report reads the listener and does not write it.  A report always
    returns; of the listener it changes nothing but the count of clock
    readings: the registry, the counters, the capacity, the pause flag and
    the calls made so far are as before.  It sends the counters of the
    last snapshot, then the efficiency record and the efficiency measure,
    both computed from the listener's capacity and from the accumulated run
    time to which the time each running task has run so far has been
    added, each measured with a clock reading of its own (so nothing is
    added when no task runs); the record's capacity field is always
    undefined. *)
Theorem report_reads_listener (rt : Runtime) (uptime : Z) (r : Reporter) :
  let w := listener r in
  let r' := snd (reportCapacityState rt uptime r) in
  let total := totalRunTime w + runTimes rt (S (ticks w)) (runningTasks w) in
  fst (reportCapacityState rt uptime r) = Ret tt
  /\ listener r' = set_ticks (S (ticks w) + length (runningTasks w)) w
  /\ lastCapacityState r' = snapshot (clock rt (ticks w)) w
  /\ sent r'
     = sent r
       ++ capacityCounts (lastCapacityState r)
            (clock rt (ticks w) - cs_time (lastCapacityState r))
       ++ [RLog (Efficiency total (capacity w) uptime) uptime total VUndef;
           RMeasure "total-efficiency" (Efficiency total (capacity w) uptime)]
  /\ (runningTasks w = [] -> total = totalRunTime w)
  /\ ((forall n task, In task (runningTasks w) -> startTime task <= clock rt n) ->
      totalRunTime w <= total).
Proof.
  cbv zeta. rewrite reportCapacityState_run. cbv zeta. cbn [fst snd listener
    lastCapacityState sent].
  repeat split.
  - intros ->. cbn [runTimes]. lia.
  - intros Hclock.
    assert (H : forall n l, (forall task, In task l -> In task (runningTasks (listener r))) ->
                            0 <= runTimes rt n l).
    { intros n l. revert n. induction l as [|t l IH]; intros n Hl; cbn [runTimes]; [lia|].
      specialize (Hclock n t (Hl t (or_introl eq_refl))).
      specialize (IH (S n) (fun task Ht => Hl task (or_intror Ht))). lia. }
    specialize (H (S (ticks (listener r))) _ (fun task Ht => Ht)). lia.
Qed.

Lemma capacityCounts_idle_running (last : CapacityState) (time : Z) :
  0 <= cs_busy last ->
  (In (RCount "running-eq-0" (Seconds time)) (capacityCounts last time)
   <-> cs_busy last = 0)
  /\ (In (RCount "running-ge-1" (Seconds time)) (capacityCounts last time)
      <-> cs_busy last <> 0).
Proof.
  intros Hb. unfold capacityCounts, countWhen.
  rewrite !in_app_iff.
  destruct (Z.eqb_spec (cs_busy last) 0) as [E|E].
  - rewrite E. cbn. split; split; auto; try tauto.
    intros H. exfalso.
    repeat match goal with
           | H : _ \/ _ |- _ => destruct H as [H|H]
           | H : In _ (if ?c then _ else _) |- _ => destruct c; simpl in H
           | H : RCount _ _ = RCount _ _ |- _ => discriminate H
           | H : False |- _ => destruct H
           end.
  - assert (G : (cs_busy last >=? 1) = true) by (apply Z.geb_le; lia).
    rewrite G. split; split; auto; try tauto.
    + intros H. exfalso.
      repeat match goal with
             | H : _ \/ _ |- _ => destruct H as [H|H]
             | H : In _ (if ?c then _ else _) |- _ => destruct c; simpl in H
             | H : In _ _ |- _ => simpl in H
             | H : RCount _ _ = RCount _ _ |- _ => discriminate H
             | H : False |- _ => destruct H
             end.
    + intros _. right. right. left. now left.
Qed.

(** X15. The report lags one interval behind.  The counters a report sends
    describe the listener as the report before it found it, not as it is:
    whatever poll cycles, runner steps and cancellations have run in
    between, the busy and idle counters and the buckets are those of the
    registry size and of [lastKnownCapacity] at the time of the previous
    report, weighted with the time between the two sent; in particular
    the report counts "running-eq-0" exactly when the registry was empty at
    the previous report and "running-ge-1" exactly when it was not. *)
Theorem report_lags_one_interval (rt1 rt2 : Runtime) (uptime1 uptime2 : Z)
    (actions : list Action) (r : Reporter) :
  let w := listener r in
  let r1 := snd (reportCapacityState rt1 uptime1 r) in
  let w2 := run actions (listener r1) in
  let r2 := snd (reportCapacityState rt2 uptime2 (set_listener w2 r1)) in
  let time := clock rt2 (ticks w2) - clock rt1 (ticks w) in
  let counts := capacityCounts (snapshot (clock rt1 (ticks w)) w) time in
  (exists efficiency total,
     sent r2
     = sent r1 ++ counts
       ++ [RLog efficiency uptime2 total VUndef;
           RMeasure "total-efficiency" efficiency])
  /\ (In (RCount "running-eq-0" (Seconds time)) counts <-> runningTasks w = [])
  /\ (In (RCount "running-ge-1" (Seconds time)) counts <-> runningTasks w <> [])
  /\ lastCapacityState r2 = snapshot (clock rt2 (ticks w2)) w2.
Proof.
  cbv zeta. rewrite !reportCapacityState_run. cbv zeta.
  cbn [snd listener lastCapacityState sent set_listener cs_time snapshot].
  split; [do 2 eexists; reflexivity|].
  destruct (capacityCounts_idle_running
              (snapshot (clock rt1 (ticks (listener r))) (listener r))
              (clock rt2
                 (ticks (run actions
                           (set_ticks (S (ticks (listener r))
                                       + length (runningTasks (listener r)))
                              (listener r))))
               - clock rt1 (ticks (listener r))))
    as [H0 H1]; [cbn; lia|].
  cbn [snapshot cs_busy] in H0, H1.
  split; [|split; [|reflexivity]].
  - rewrite H0. destruct (runningTasks (listener r)); cbn [length]; split; intros H;
      first [reflexivity | discriminate | lia].
  - rewrite H1. destruct (runningTasks (listener r)); cbn [length]; split; intros H;
      first [discriminate | lia | now contradiction H].
Qed.

(** X16. The first report.  The snapshot the constructor takes shows an empty
    registry and no idle capacity, so the first report, whatever the
    listener has done since it was constructed, counts the whole time since
    then as "running-eq-0" and "idle-eq-0", with zero busy and zero idle
    capacity, and no other bucket. *)
Theorem first_report_shows_construction (cap : Z) (cpu : bool) (now now' : Z)
    (actions : list Action) (rt : Runtime) (uptime : Z) :
  let w := run actions (constructor cap cpu now) in
  let r := set_listener w (newReporter cap cpu now now') in
  let time := clock rt (ticks w) - now' in
  exists efficiency total,
    sent (snd (reportCapacityState rt uptime r))
    = [RCount "capacity-busy" (Times 0 time);
       RCount "capacity-idle" (Times 0 time);
       RCount "running-eq-0" (Seconds time);
       RCount "idle-eq-0" (Seconds time);
       RLog efficiency uptime total VUndef;
       RMeasure "total-efficiency" efficiency].
Proof.
  cbv zeta. rewrite reportCapacityState_run. cbv zeta.
  do 2 eexists. reflexivity.
Qed.

(** ** A negative device capacity *)

(** X17. The capacity check of [getTasks] compares with zero only.  When the
    device manager answers a negative capacity, the admissible capacity is
    that negative number, whatever the configured capacity and the
    registry: it is stored in [lastKnownCapacity], the cycle goes on past
    the capacity check to the sweep, and when the sweep returns and the
    disk is below the threshold, [claimWork] is called with the negative
    number, also by a listener whose capacity is zero. *)
Theorem negative_probe_opens_gates (rt : Runtime) (sched : Schedule)
    (w : TaskListener) (d : Z) :
  getAvailableCapacity rt = Ret d -> d < 0 ->
  let w' := exec (taskPoll rt sched) w in
  let full := Nat.eqb (length (runningTasks w)) 0 in
  admissible rt w = d
  /\ lastKnownCapacity (exec (availableCapacity rt) w) = d
  /\ (exists rest, gateCalls (events_since w w') = EProbe :: ESweep full :: rest)
  /\ (forall u, sweep rt full = Ret u -> exceedsDiskspaceThreshold rt d = Ret false ->
        claimCalls (events_since w w') = [d]).
Proof.
  intros Hd Hneg. cbv zeta.
  assert (Ha : admissible rt w = d).
  { unfold admissible, runningCapacityOf, deviceCapacityOf. rewrite Hd. lia. }
  split; [exact Ha|].
  split.
  { unfold exec. rewrite availableCapacity_run. cbn [snd]. exact Ha. }
  rewrite <- claimCalls_gateCalls, taskPoll_gates.
  unfold gatesOfCycle, gatesAfterSweep. rewrite Ha.
  destruct (Z.eqb_spec d 0) as [E|_]; [lia|].
  split; [eexists; reflexivity|].
  intros u -> ->. destruct (claimWork rt d) as [[|c cl]|e]; reflexivity.
Qed.

Lemma negative_probe_opens_gates_witness :
  getAvailableCapacity rtNegative = Ret (-1) /\ -1 < 0
  /\ claimCalls
       (events_since (constructor 0 true 0)
          (exec (taskPoll rtNegative []) (constructor 0 true 0))) = [-1].
Proof.
  split; [reflexivity|]. split; [lia|].
  destruct (negative_probe_opens_gates rtNegative [] (constructor 0 true 0) (-1)
              eq_refl eq_refl) as (_ & _ & _ & H).
  exact (H tt eq_refl eq_refl).
Defined.

(** ** A failing gate *)

Lemma runTask_begin_total (rt : Runtime) (claim : Claim) (w : TaskListener) :
  exists p, result (runTask_begin rt claim) w = Ret p.
Proof.
  destruct (runTask_begin_run rt claim w)
    as [(pre & H & _)|(t & rs & h & pre & _ & H & _)]; eauto.
Qed.

Lemma launch_total (rt : Runtime) (claims : list Claim) (w : TaskListener) :
  exists ps, result (launch rt claims) w = Ret ps.
Proof.
  revert w. induction claims as [|c claims IH]; intros w; cbn [launch].
  - eexists. reflexivity.
  - destruct (runTask_begin_total rt c w) as [p Hp].
    unfold result, bind in *.
    destruct (runTask_begin rt c w) as [r w1]. cbn [fst] in Hp. subst r.
    destruct (IH w1) as [ps Hps].
    destruct (launch rt claims w1) as [r w2]. cbn [fst] in Hps. subst r.
    eexists. reflexivity.
Qed.

(** [getTasks] throws exactly what one of its gates throws, and has then
    launched nothing. *)
Lemma getTasks_throw (rt : Runtime) (w : TaskListener) (e : string) :
  result (getTasks rt) w = Throw e ->
  let v := admissible rt w in
  let full := Nat.eqb (length (runningTasks w)) 0 in
  runningTasks (exec (getTasks rt) w) = runningTasks w
  /\ v <> 0
  /\ (sweep rt full = Throw e
      \/ (exists u, sweep rt full = Ret u)
         /\ (exceedsDiskspaceThreshold rt v = Throw e
             \/ exceedsDiskspaceThreshold rt v = Ret false
                /\ (claimWork rt v = Throw e
                    \/ (exists c claims, claimWork rt v = Ret (c :: claims))
                       /\ purgeCaches rt = Throw e))).
Proof.
  cbv zeta. unfold result, exec.
  destruct (getTasks rt w) as [r w'] eqn:Hrun. cbn [fst snd]. intros ->.
  unfold getTasks in Hrun. unfold bind at 1 in Hrun.
  rewrite availableCapacity_run in Hrun.
  destruct (Z.eqb_spec (admissible rt w) 0) as [E|E].
  { unfold bind, debug, emit, modify, ret in Hrun. discriminate. }
  unfold bind at 1, gets at 1 in Hrun.
  cbn [runningTasks set_lastKnownCapacity set_trace] in Hrun.
  unfold bind at 1, call at 1, bind at 1, emit at 1, modify at 1 in Hrun.
  destruct (sweep rt _) as [u|e1] eqn:Hsw.
  2:{ inversion Hrun; subst. auto. }
  unfold bind at 1, call at 1, bind at 1, emit at 1, modify at 1 in Hrun.
  destruct (exceedsDiskspaceThreshold rt (admissible rt w)) as [[|]|e1] eqn:Hdisk.
  - unfold bind, debug, emit, modify, ret in Hrun. discriminate.
  - unfold bind at 1, call at 1, bind at 1, emit at 1, modify at 1 in Hrun.
    destruct (claimWork rt (admissible rt w)) as [[|c claims]|e1] eqn:Hclaim;
      cbn [length Nat.eqb negb] in Hrun.
    + unfold ret in Hrun. discriminate.
    + unfold bind at 1, call at 1, bind at 1, emit at 1, modify at 1 in Hrun.
      destruct (purgeCaches rt) as [[]|e1] eqn:Hpurge.
      * match type of Hrun with
        | context [launch rt ?cl ?w0] =>
            destruct (launch_total rt cl w0) as [ps Hps]
        end.
        unfold result in Hps. rewrite Hrun in Hps. discriminate.
      * inversion Hrun; subst.
        split; [reflexivity|]. split; [exact E|]. right. split; [eauto|].
        right. split; [reflexivity|]. right. split; [eauto|reflexivity].
    + inversion Hrun; subst.
      split; [reflexivity|]. split; [exact E|]. right. split; [eauto|].
      right. split; [reflexivity|]. now left.
  - inversion Hrun; subst.
    split; [reflexivity|]. split; [exact E|]. right. split; [eauto|]. now left.
Qed.

(** ** Leases and releases *)

Lemma obj_set_absent {V} (k : string) (v : V) (o : list (string * V)) :
  ~ In k (map fst o) -> obj_set k v o = o ++ [(k, v)].
Proof.
  induction o as [|[k' v'] o IH]; cbn; intros H; [reflexivity|].
  destruct (String.eqb_spec k' k) as [E|E]; [tauto|].
  rewrite IH by tauto. reflexivity.
Qed.

Lemma obj_set_keys {V} (k : string) (v : V) (o : list (string * V)) :
  In k (map fst o) -> map fst (obj_set k v o) = map fst o.
Proof.
  induction o as [|[k' v'] o IH]; cbn; intros H; [destruct H|].
  destruct (String.eqb_spec k' k) as [E|E]; cbn; [now rewrite E|].
  rewrite IH; [reflexivity|]. destruct H as [H|H]; [contradiction|exact H].
Qed.

Lemma held_distinct (l o : list (string * Device)) :
  NoDup (map fst l) -> (forall k, In k (map fst l) -> ~ In k (map fst o)) ->
  held l o = o ++ l.
Proof.
  revert o. induction l as [|[k d] l IH]; intros o Hnd Hdis; cbn [held fold_left].
  - now rewrite app_nil_r.
  - inversion Hnd as [|k0 l0 Hk Hl]; subst. cbn [fst snd].
    rewrite obj_set_absent by (apply Hdis; now left).
    change (fold_left _ l ?x) with (held l x).
    rewrite IH; [now rewrite <- app_assoc|exact Hl|].
    intros k' Hin. rewrite map_app, in_app_iff. cbn.
    intros [H|[H|[]]].
    + exact (Hdis k' (or_intror Hin) H).
    + subst k'. exact (Hk Hin).
Qed.

Lemma NoDup_snoc {A} (l : list A) (a : A) :
  NoDup l -> ~ In a l -> NoDup (l ++ [a]).
Proof.
  induction 1 as [|x l Hx Hl IH]; cbn; intros Ha.
  - constructor; [intros []|constructor].
  - constructor.
    + rewrite in_app_iff. cbn. intros [H|[H|[]]]; [exact (Hx H)|subst; tauto].
    + apply IH. tauto.
Qed.

Lemma held_keys (l o : list (string * Device)) :
  NoDup (map fst o) ->
  NoDup (map fst (held l o))
  /\ incl (map fst (held l o)) (map fst o ++ map fst l).
Proof.
  revert o. induction l as [|[k d] l IH]; intros o Hnd; cbn [held fold_left].
  - split; [exact Hnd|]. cbn. rewrite app_nil_r. apply incl_refl.
  - cbn [fst snd]. change (fold_left _ l ?x) with (held l x).
    destruct (in_dec String.string_dec k (map fst o)) as [Hin|Hout].
    + pose proof (obj_set_keys k d o Hin) as Hk.
      destruct (IH (obj_set k d o)) as [H1 H2]; [now rewrite Hk|].
      split; [exact H1|]. rewrite Hk in H2.
      intros x Hx. specialize (H2 x Hx). rewrite in_app_iff in *. cbn. tauto.
    + rewrite (obj_set_absent k d o Hout).
      destruct (IH (o ++ [(k, d)])) as [H1 H2].
      { rewrite map_app. cbn. now apply NoDup_snoc. }
      split; [exact H1|]. rewrite map_app in H2. cbn in H2.
      intros x Hx. specialize (H2 x Hx). rewrite !in_app_iff in *. cbn in *. tauto.
Qed.

(** Every lease under a new key adds a device; a lease under a key leased
    before replaces the device held under it. *)
Lemma held_length (l : list (string * Device)) :
  (length (held l []) <= length l)%nat
  /\ (NoDup (map fst l) -> held l [] = l)
  /\ (~ NoDup (map fst l) -> (length (held l []) < length l)%nat).
Proof.
  destruct (held_keys l []) as [Hnd Hincl]; [constructor|]. cbn [map app] in Hincl.
  pose proof (NoDup_incl_length Hnd Hincl) as Hle. rewrite !length_map in Hle.
  split; [exact Hle|]. split.
  - intros H. rewrite held_distinct; auto.
  - intros Hdup.
    destruct (Nat.eq_dec (length (held l [])) (length l)) as [E|E]; [|lia].
    exfalso. apply Hdup.
    apply (NoDup_incl_NoDup Hnd); [rewrite !length_map; lia|exact Hincl].
Qed.

(** ** Runners launched and the capacity counters *)

Lemma starts_app (e1 e2 : list Event) : starts (e1 ++ e2) = starts e1 ++ starts e2.
Proof. apply flat_map_app. Qed.

Lemma quiet_no_start (evs : list Event) : Forall quiet evs -> starts evs = [].
Proof.
  induction 1 as [|e evs He _ IH]; [reflexivity|].
  unfold starts in *. cbn [flat_map]. rewrite IH.
  destruct e; try reflexivity. discriminate He.
Qed.

Lemma removed_idlePlusBusy (rt : Runtime) (rs : RunningState) (w : TaskListener) :
  idlePlusBusy (removed rt rs w) = idlePlusBusy w.
Proof.
  unfold removed, idlePlusBusy.
  destruct (findIndex (same_run rs) (runningTasks w)) as [i|] eqn:Hi; [|reflexivity].
  apply findIndex_Some in Hi. destruct Hi as (Hi & _).
  cbn [lastKnownCapacity runningTasks]. unfold splice1.
  rewrite length_app, length_firstn, length_skipn. lia.
Qed.

(** What one runner adds, up to its suspension or to its end in the
    setup. *)
Lemma runTask_begin_accounts (rt : Runtime) (claim : Claim) (w : TaskListener) :
  let w' := exec (runTask_begin rt claim) w in
  let evs := events_since w w' in
  match result (runTask_begin rt claim) w with
  | Ret (Some p) =>
      starts evs = [p_handler p] /\ countOf "task.error" evs = 0
      /\ idlePlusBusy w' = idlePlusBusy w + 1
  | _ =>
      starts evs = [] /\ countOf "task.error" evs = 1
      /\ idlePlusBusy w' = idlePlusBusy w
  end.
Proof.
  cbv zeta.
  destruct (runTask_begin_run rt claim w)
    as [(pre & Hnone & Hq & Hev & _)
       |(task & rs & h & pre & _ & Hsome & _ & _ & _ & Hq & Hev & _)];
    cbv zeta in Hev.
  - rewrite Hnone, Hev, starts_app, countOf_app, (quiet_no_start _ Hq),
      (quiet_no_task_error _ Hq).
    split; [reflexivity|]. split; [reflexivity|].
    destruct (runTask_begin_failed rt claim w Hnone) as (rs & n & t & t' & _ & _ & ->).
    unfold idlePlusBusy at 1. cbn [lastKnownCapacity runningTasks set_trace].
    fold (idlePlusBusy (removed rt rs (set_ticks n (set_trace t w)))).
    now rewrite removed_idlePlusBusy.
  - rewrite Hsome, Hev, starts_app, countOf_app, (quiet_no_start _ Hq),
      (quiet_no_task_error _ Hq).
    split; [reflexivity|]. split; [reflexivity|].
    destruct (runTask_begin_started rt claim w _ Hsome) as (_ & _ & _ & Hreg & Hlkc & _).
    cbv zeta in Hreg, Hlkc. unfold idlePlusBusy. rewrite Hreg, Hlkc, length_app.
    cbn [length]. lia.
Qed.

Lemma launch_accounts (rt : Runtime) (claims : list Claim) (w : TaskListener) :
  exists ps,
    result (launch rt claims) w = Ret ps
    /\ starts (events_since w (exec (launch rt claims) w)) = map p_handler ps
    /\ Z.of_nat (length ps)
       + countOf "task.error" (events_since w (exec (launch rt claims) w))
       = Z.of_nat (length claims)
    /\ idlePlusBusy (exec (launch rt claims) w) = idlePlusBusy w + Z.of_nat (length ps).
Proof.
  revert w. induction claims as [|c claims IH]; intros w.
  - exists []. unfold result, exec. cbn [launch ret fst snd].
    rewrite events_since_refl. repeat split; cbn; lia.
  - pose proof (runTask_begin_accounts rt c w) as Hb. cbv zeta in Hb.
    pose proof (emits_trace _ _ w (runTask_begin_emits rt c)) as Ht1.
    destruct (runTask_begin_total rt c w) as [p Hp].
    destruct (IH (exec (runTask_begin rt c) w)) as (ps & Hps & Hs & Hc & Hi).
    pose proof (emits_trace _ _ (exec (runTask_begin rt c) w) (launch_emits rt claims))
      as Ht2.
    assert (Hrun : launch rt (c :: claims) w
                   = (Ret match p with Some p => p :: ps | None => ps end,
                      exec (launch rt claims) (exec (runTask_begin rt c) w))).
    { cbn [launch]. unfold result, exec, bind in *.
      destruct (runTask_begin rt c w) as [r w1]. cbn [fst snd] in *. subst r.
      destruct (launch rt claims w1) as [r w2]. cbn [fst snd] in *. subst r.
      reflexivity. }
    unfold result at 1, exec at 1 2 3. rewrite Hrun. cbn [fst snd].
    rewrite (events_since_trans w _ _ _ _ Ht1 Ht2).
    rewrite starts_app, countOf_app, Hs, Hi. rewrite Hp in Hb.
    exists (match p with Some p => p :: ps | None => ps end).
    split; [reflexivity|].
    destruct p as [p|]; destruct Hb as (Hb1 & Hb2 & Hb3); rewrite Hb1, Hb2, Hb3;
      cbn [length map app]; repeat split; lia.
Qed.

Lemma capacity_prelude (rt : Runtime) (w : TaskListener) :
  starts (EProbe :: probeAlert rt ++ adjustedInfo rt w) = []
  /\ countOf "task.error" (EProbe :: probeAlert rt ++ adjustedInfo rt w) = 0.
Proof.
  unfold probeAlert, adjustedInfo.
  destruct (getAvailableCapacity rt); destruct (_ <? _); split; reflexivity.
Qed.

(** [getTasks] from the disk probe on: what it returns is what it has
    started, and every claim handed out is started or counted as a task
    error. *)
Lemma afterSweep_accounts (rt : Runtime) (v : Z) (w : TaskListener) :
  let w' := exec (afterSweep rt v) w in
  let evs := events_since w w' in
  match result (afterSweep rt v) w with
  | Ret ps =>
      starts evs = map p_handler ps
      /\ idlePlusBusy w' = idlePlusBusy w + Z.of_nat (length ps)
      /\ (exceedsDiskspaceThreshold rt v = Ret false ->
          forall claims, claimWork rt v = Ret claims ->
            Z.of_nat (length ps) + countOf "task.error" evs = Z.of_nat (length claims))
  | Throw _ =>
      starts evs = [] /\ countOf "task.error" evs = 0
      /\ idlePlusBusy w' = idlePlusBusy w
  end.
Proof.
  cbv zeta. unfold result, exec.
  destruct (afterSweep rt v w) as [r w'] eqn:Hrun. cbn [fst snd].
  unfold afterSweep in Hrun.
  unfold bind at 1, call at 1, bind at 1, emit at 1, modify at 1 in Hrun.
  destruct (exceedsDiskspaceThreshold rt v) as [[|]|e1] eqn:Hdisk.
  - unfold bind, debug, emit, modify, ret in Hrun. inversion Hrun; subst.
    rewrite (events_since_app w _
               [EDiskProbe v;
                EDebug "not calling claimWork because not enough disk space"])
      by (cbn; now rewrite <- app_assoc).
    repeat split; try reflexivity; try discriminate.
    unfold idlePlusBusy; cbn; lia.
  - unfold bind at 1, call at 1, bind at 1, emit at 1, modify at 1 in Hrun.
    destruct (claimWork rt v) as [[|c claims]|e1] eqn:Hclaim;
      cbn [length Nat.eqb negb] in Hrun.
    + unfold ret in Hrun. inversion Hrun; subst.
      rewrite (events_since_app w _ [EDiskProbe v; EClaimWork v])
        by (cbn; now rewrite <- app_assoc).
      split; [reflexivity|]. split; [unfold idlePlusBusy; cbn; lia|].
      intros _ claims E. inversion E; subst. reflexivity.
    + unfold bind at 1, call at 1, bind at 1, emit at 1, modify at 1 in Hrun.
      destruct (purgeCaches rt) as [[]|e1] eqn:Hpurge.
      * match type of Hrun with
        | launch rt ?cl ?w0 = _ =>
            destruct (launch_accounts rt cl w0) as (ps & Hps & Hs & Hc & Hi);
            pose proof (emits_trace _ _ w0 (launch_emits rt cl)) as Ht
        end.
        unfold result, exec in *. rewrite Hrun in *. cbn [fst snd] in *. subst r.
        rewrite (events_since_app w _
                   ([EDiskProbe v; EClaimWork v; EPurgeCaches]
                    ++ events_since
                         (set_trace
                            (trace (set_trace
                                      (trace (set_trace (trace w ++ [EDiskProbe v]) w)
                                       ++ [EClaimWork v])
                                      (set_trace (trace w ++ [EDiskProbe v]) w))
                             ++ [EPurgeCaches])
                            (set_trace
                               (trace (set_trace (trace w ++ [EDiskProbe v]) w)
                                ++ [EClaimWork v])
                               (set_trace (trace w ++ [EDiskProbe v]) w)))
                         w'))
          by (rewrite Ht at 1; cbn [trace set_trace]; now rewrite <- !app_assoc).
        rewrite starts_app, countOf_app, Hs. cbn [starts flat_map app countOf].
        split; [reflexivity|]. split; [rewrite Hi; reflexivity|].
        intros _ claims' E. inversion E; subst. cbn [length] in *. lia.
      * inversion Hrun; subst.
        rewrite (events_since_app w _ [EDiskProbe v; EClaimWork v; EPurgeCaches])
          by (cbn; now rewrite <- !app_assoc).
        repeat split; try reflexivity.
    + inversion Hrun; subst.
      rewrite (events_since_app w _ [EDiskProbe v; EClaimWork v])
        by (cbn; now rewrite <- app_assoc).
      repeat split; try reflexivity.
  - inversion Hrun; subst.
    rewrite (events_since_app w _ [EDiskProbe v]) by reflexivity.
    repeat split; try reflexivity.
Qed.

Lemma getTasks_accounts (rt : Runtime) (w : TaskListener) :
  let w' := exec (getTasks rt) w in
  let evs := events_since w w' in
  let v := admissible rt w in
  let n := Z.of_nat (length (runningTasks w)) in
  match result (getTasks rt) w with
  | Ret ps =>
      starts evs = map p_handler ps
      /\ idlePlusBusy w' = v + n + Z.of_nat (length ps)
      /\ (v <> 0 -> exceedsDiskspaceThreshold rt v = Ret false ->
          forall claims, claimWork rt v = Ret claims ->
            Z.of_nat (length ps) + countOf "task.error" evs = Z.of_nat (length claims))
  | Throw _ =>
      starts evs = [] /\ countOf "task.error" evs = 0 /\ idlePlusBusy w' = v + n
  end.
Proof.
  cbv zeta.
  destruct (capacity_prelude rt w) as [Hs0 Hc0].
  change (getTasks rt) with
    (availableCapacity' <- availableCapacity rt ;;
     if availableCapacity' =? 0 then
       debug "not calling claimWork because capacity is zero" ;; ret []
     else
       rts <- gets runningTasks ;;
       call (ESweep (Nat.eqb (length rts) 0)) (sweep rt (Nat.eqb (length rts) 0)) ;;
       afterSweep rt availableCapacity').
  unfold result, exec.
  match goal with
  | |- context [fst (?m w)] => destruct (m w) as [r w'] eqn:Hrun
  end.
  cbn [fst snd].
  unfold bind at 1 in Hrun. rewrite availableCapacity_run in Hrun.
  destruct (Z.eqb_spec (admissible rt w) 0) as [E|E].
  - unfold bind, debug, emit, modify, ret in Hrun. inversion Hrun; subst.
    rewrite (events_since_app w _
               ((EProbe :: probeAlert rt ++ adjustedInfo rt w)
                ++ [EDebug "not calling claimWork because capacity is zero"]))
      by (cbn [trace set_trace set_lastKnownCapacity]; now rewrite <- !app_assoc).
    rewrite starts_app, Hs0.
    split; [reflexivity|]. split; [unfold idlePlusBusy; cbn; lia|].
    intros H. contradiction.
  - unfold bind at 1, gets at 1 in Hrun.
    cbn [runningTasks set_lastKnownCapacity set_trace] in Hrun.
    unfold bind at 1, call at 1, bind at 1, emit at 1, modify at 1 in Hrun.
    set (full := Nat.eqb (length (runningTasks w)) 0) in *.
    destruct (sweep rt full) as [u|e1].
    + match type of Hrun with
      | afterSweep rt ?v ?w0 = _ =>
          pose proof (afterSweep_accounts rt v w0) as Ha;
          pose proof (emits_trace _ _ w0 (afterSweep_emits rt v)) as Ht
      end.
      cbv zeta in Ha. unfold result, exec in Ha, Ht. rewrite Hrun in Ha, Ht.
      cbn [fst snd] in Ha, Ht.
      match type of Ht with
      | trace w' = _ ++ ?ev2 =>
          rewrite (events_since_app w w'
                     ((EProbe :: probeAlert rt ++ adjustedInfo rt w)
                      ++ [ESweep full] ++ ev2))
            by (rewrite Ht at 1; cbn [trace set_trace set_lastKnownCapacity];
                now rewrite <- !app_assoc)
      end.
      rewrite !starts_app, !countOf_app, Hs0, Hc0.
      cbn [starts flat_map app countOf Z.add].
      assert (Hi0 : forall x : list Event,
                 idlePlusBusy
                   (set_trace x
                      (set_lastKnownCapacity (admissible rt w)
                         (set_trace (trace w ++ EProbe :: probeAlert rt ++ adjustedInfo rt w)
                            w)))
                 = admissible rt w + Z.of_nat (length (runningTasks w)))
        by reflexivity.
      destruct r as [ps|e1].
      * destruct Ha as (Ha1 & Ha2 & Ha3). rewrite Hi0 in Ha2.
        split; [exact Ha1|]. split; [exact Ha2|]. intros _. exact Ha3.
      * destruct Ha as (Ha1 & Ha2 & Ha3). rewrite Hi0 in Ha3. auto.
    + inversion Hrun; subst.
      rewrite (events_since_app w _
                 ((EProbe :: probeAlert rt ++ adjustedInfo rt w) ++ [ESweep full]))
        by (cbn [trace set_trace set_lastKnownCapacity]; now rewrite <- !app_assoc).
      rewrite starts_app, countOf_app, Hs0, Hc0.
      repeat split; reflexivity.
Qed.

(** * The listener with its suspensions: verification *)

(** ** Releases *)

Lemma async_release_loop (h : Host) (l : list (string * Device)) (w : TaskListener) :
  releases_return h ->
  forM_ l (fun kd => t <- gets trace ;; call (ERelease (snd kd)) (release h t (snd kd))) w
  = (Ret tt, set_trace (trace w ++ map ERelease (map snd l)) w).
Proof.
  intros Hrel. revert w. induction l as [|kd l IH]; intros w; cbn [forM_ map].
  - unfold ret. now rewrite app_nil_r, set_trace_id.
  - unfold bind at 1. unfold bind at 1, gets at 1, call, bind, emit, modify.
    rewrite Hrel. rewrite IH. cbn [trace set_trace]. f_equal.
    rewrite set_trace_twice, <- app_assoc. reflexivity.
Qed.

Lemma async_cleanup_run (h : Host) (st : RunningState) (w : TaskListener) :
  releases_return h ->
  Async.cleanupRunningState h (Some st) w
  = (Ret tt, set_trace (trace w ++ map ERelease (held_devices st)) w).
Proof. intros Hrel. unfold Async.cleanupRunningState. now apply async_release_loop. Qed.

Lemma async_remove_run (h : Host) (rs : RunningState) (w : TaskListener) :
  releases_return h ->
  Async.removeRunningTask h rs w = (Ret tt, retired h rs w).
Proof.
  intros Hrel. unfold Async.removeRunningTask, retired, removal_events, removed.
  unfold bind at 1, gets at 1.
  destruct (findIndex (same_run rs) (runningTasks w)) as [i|].
  - unfold bind at 1. rewrite recordCapacity_run.
    unfold bind at 1. rewrite (async_cleanup_run h rs _ Hrel).
    unfold recordEvents, capacityCounters. destruct w. mcbv. f_equal. f_equal.
    now rewrite <- !app_assoc.
  - unfold bind, log, emit, modify. rewrite (async_cleanup_run h rs _ Hrel).
    destruct w. mcbv. f_equal. f_equal. now rewrite <- app_assoc.
Qed.

(** ** Which events the steps can emit *)

Lemma runner_other (e : Event) : runner_only e -> other_only e.
Proof. unfold runner_only, other_only. destruct e; simpl; auto. Qed.

Lemma quiet_other (e : Event) : quiet e -> other_only e.
Proof. intros H. now apply runner_other, quiet_runner. Qed.

Lemma async_cleanup_emits (h : Host) (state : option RunningState) :
  emits quiet (Async.cleanupRunningState h state).
Proof. unfold Async.cleanupRunningState. emits_auto. Qed.

Lemma async_remove_emits (h : Host) (rs : RunningState) :
  emits quiet (Async.removeRunningTask h rs).
Proof.
  unfold Async.removeRunningTask, log, Date_now.
  pose proof (recordCapacity_emits (runtime h)).
  pose proof (async_cleanup_emits h (Some rs)).
  emits_auto.
Qed.

Lemma async_catch_emits (h : Host) (claim : Claim) (rs : RunningState)
    (task : option TaskDef) (e : string) :
  emits runner_only (Async.runTask_catch h claim rs task e).
Proof.
  unfold Async.runTask_catch, log, count.
  pose proof (emits_weaken _ _ _ quiet_runner (async_remove_emits h rs)).
  emits_auto.
Qed.

Lemma async_admit_emits (h : Host) (claim : Claim) (task : TaskDef)
    (rs : RunningState) (options : Options) :
  emits runner_only (Async.admitTask h claim task rs options).
Proof.
  unfold Async.admitTask, addRunningTask, logEvent.
  pose proof (emits_weaken _ _ _ quiet_runner (recordCapacity_emits (runtime h))).
  pose proof (async_catch_emits h claim rs (Some task)).
  emits_auto.
Qed.

Lemma async_leaseNext_emits (h : Host) (claim : Claim) (task : TaskDef)
    (rs : RunningState) (options : Options) (odevs : list (string * Device))
    (keys : list string) :
  emits runner_only (Async.leaseNext h claim task rs options odevs keys).
Proof.
  unfold Async.leaseNext.
  pose proof (async_admit_emits h claim task rs).
  emits_auto.
Qed.

Lemma async_settle_emits (h : Host) (p : Pending) (started : Res unit) :
  emits runner_only (Async.runTask_settle h p started).
Proof.
  unfold Async.runTask_settle, logEvent, count.
  pose proof (emits_weaken _ _ _ quiet_runner (async_remove_emits h (p_state p))).
  pose proof (async_catch_emits h (p_claim p) (p_state p) (Some (p_task p))).
  emits_auto.
Qed.

Lemma async_resume_emits (h : Host) (r : Runner) (started : Res unit) :
  emits runner_only (Async.resumeRunner h r started).
Proof.
  destruct r as [claim task rs options odevs device answer rest|p|];
    cbn [Async.resumeRunner].
  - destruct answer as [d|e].
    + apply async_leaseNext_emits.
    + apply async_catch_emits.
  - apply async_settle_emits.
  - apply emits_ret.
Qed.

Lemma async_cancel_emits (h : Host) (message : Message) :
  emits other_only (Async.cancelTask h message).
Proof.
  unfold Async.cancelTask, log, debug.
  pose proof (fun st => emits_weaken _ _ _ quiet_other (async_cleanup_emits h st)).
  emits_auto.
Qed.

Lemma async_step_emits (h : Host) (s : Step) : emits other_only (Async.step h s).
Proof.
  unfold Async.step.
  pose proof (fun r st => emits_weaken _ _ _ runner_other (async_resume_emits h r st)).
  pose proof (async_cancel_emits h).
  emits_auto.
Qed.

Lemma async_yield_emits (h : Host) (steps : list Step) :
  emits other_only (Async.yield h steps).
Proof.
  unfold Async.yield. apply emits_forM_. intros s. apply async_step_emits.
Qed.

(** ** What the steps keep *)

Section AsyncClockBlind.

Variable I : TaskListener -> Prop.
Hypothesis Hclock : clock_blind I.
Variable h : Host.

Lemma kept_async_cleanup (state : option RunningState) :
  preserves I (Async.cleanupRunningState h state).
Proof. unfold Async.cleanupRunningState. preserves_auto. Qed.

Lemma kept_async_cancel (message : Message) :
  preserves I (Async.cancelTask h message).
Proof.
  unfold Async.cancelTask, log, debug.
  pose proof kept_async_cleanup. preserves_auto.
Qed.

End AsyncClockBlind.

Section AsyncKeptByRunners.

Variable I : TaskListener -> Prop.
Hypothesis Hkept : kept_by_runners I.
Variable h : Host.

Let Hblind : silent_blind I := proj1 Hkept.
Let Hclock : clock_blind I := silent_clock_blind I Hblind.

Lemma preserves_async_remove (rs : RunningState) :
  preserves I (Async.removeRunningTask h rs).
Proof.
  pose proof Hkept as (_ & _ & Hsplice).
  pose proof Hblind as (_ & _ & _ & Htot & Hlkc).
  unfold Async.removeRunningTask, log.
  pose proof (preserves_recordCapacity I Hblind (runtime h)).
  pose proof (kept_async_cleanup I Hclock h).
  pose proof (preserves_Date_now I Hblind (runtime h)).
  preserves_auto; apply preserves_modify; intros w; auto.
Qed.

Lemma preserves_async_catch (claim : Claim) (rs : RunningState)
    (task : option TaskDef) (e : string) :
  preserves I (Async.runTask_catch h claim rs task e).
Proof.
  unfold Async.runTask_catch, log, count. pose proof (preserves_async_remove rs).
  preserves_auto.
Qed.

Lemma preserves_async_admit (claim : Claim) (task : TaskDef) (rs : RunningState)
    (options : Options) :
  preserves I (Async.admitTask h claim task rs options).
Proof.
  pose proof Hkept as (_ & Hadd & _).
  unfold Async.admitTask, addRunningTask, logEvent.
  pose proof (preserves_recordCapacity I Hblind (runtime h)).
  pose proof (preserves_async_catch claim rs (Some task)).
  preserves_auto. apply preserves_modify. intros w. apply Hadd. discriminate.
Qed.

Lemma preserves_async_leaseNext (claim : Claim) (task : TaskDef)
    (rs : RunningState) (options : Options) (odevs : list (string * Device))
    (keys : list string) :
  preserves I (Async.leaseNext h claim task rs options odevs keys).
Proof.
  unfold Async.leaseNext. pose proof (preserves_async_admit claim task rs).
  preserves_auto.
Qed.

Lemma preserves_async_begin (claim : Claim) :
  preserves I (Async.runTask_begin h claim).
Proof.
  unfold Async.runTask_begin, log, measure, debug.
  pose proof (preserves_Date_now I Hblind (runtime h)).
  pose proof (preserves_async_catch claim).
  pose proof (preserves_async_admit claim).
  pose proof (preserves_async_leaseNext claim).
  preserves_auto.
Qed.

Lemma preserves_async_settle (p : Pending) (started : Res unit) :
  preserves I (Async.runTask_settle h p started).
Proof.
  unfold Async.runTask_settle, logEvent, count.
  pose proof (preserves_async_remove (p_state p)).
  pose proof (preserves_async_catch (p_claim p) (p_state p) (Some (p_task p))).
  preserves_auto.
Qed.

Lemma preserves_async_resume (r : Runner) (started : Res unit) :
  preserves I (Async.resumeRunner h r started).
Proof.
  destruct r as [claim task rs options odevs device answer rest|p|];
    cbn [Async.resumeRunner].
  - destruct answer as [d|e].
    + apply preserves_async_leaseNext.
    + apply preserves_async_catch.
  - apply preserves_async_settle.
  - apply preserves_ret.
Qed.

Lemma preserves_async_launch (claims : list Claim) :
  preserves I (Async.launch h claims).
Proof.
  induction claims as [|c claims IH]; cbn [Async.launch].
  - apply preserves_ret.
  - pose proof (preserves_async_begin c). preserves_auto.
Qed.

Lemma preserves_async_step (s : Step) : preserves I (Async.step h s).
Proof.
  unfold Async.step.
  pose proof preserves_async_resume.
  pose proof (kept_async_cancel I Hclock h).
  preserves_auto.
Qed.

Lemma preserves_async_yield (steps : list Step) :
  preserves I (Async.yield h steps).
Proof.
  unfold Async.yield. apply preserves_forM_. intros s. apply preserves_async_step.
Qed.

Lemma preserves_async_drain (sched : list (list Step)) :
  preserves I (Async.drain h sched).
Proof.
  induction sched as [|round sched IH]; cbn [Async.drain]; unfold isIdle.
  - preserves_auto.
  - pose proof (preserves_async_yield round). preserves_auto.
Qed.

Lemma preserves_async_abort : preserves I (Async.abortRunningTasks h).
Proof.
  unfold Async.abortRunningTasks, abortHandler, debug.
  pose proof (kept_async_cleanup I Hclock h). preserves_auto.
Qed.

End AsyncKeptByRunners.

Section AsyncKeptByWrites.

Variable I : TaskListener -> Prop.
Hypothesis Hkept : kept_by_writes I.
Variable h : Host.

Let Hrun : kept_by_runners I := proj1 Hkept.
Let Hblind : silent_blind I := proj1 Hrun.
Let Hclock : clock_blind I := silent_clock_blind I Hblind.

Lemma preserves_async_shutdown (during after : list Step) :
  preserves I (Async.shutdown h during after).
Proof.
  pose proof Hkept as (_ & Hcap & Hpause).
  unfold Async.shutdown, pause, log, logEvent.
  pose proof (preserves_async_yield I Hrun h).
  preserves_auto; apply preserves_modify; auto.
Qed.

Lemma preserves_async_taskPoll (got : Res unit) (sched : list (list Step))
    (during after : list Step) :
  preserves I (Async.taskPoll_rest h got sched during after).
Proof.
  pose proof Hkept as (_ & Hcap & _).
  unfold Async.taskPoll_rest, Async.immediateExit, Async.gracefulExit, isIdle,
    log, count.
  pose proof (preserves_async_drain I Hrun h sched).
  pose proof (preserves_async_abort I Hrun h).
  pose proof (preserves_async_shutdown during after).
  preserves_auto; apply preserves_modify; auto.
Qed.

End AsyncKeptByWrites.

(** ** The poll cycle after [getTasks] *)

Lemma async_abort_loop (h : Host) (l : list RunningState) (w : TaskListener) :
  releases_return h ->
  forM_ l (fun state =>
    try_catch (abortHandler (runtime h) state)
      (fun e => debug ("error aborting with worker-shutdown: " ++ e)%string) ;;
    Async.cleanupRunningState h (Some state)) w
  = (Ret tt, set_trace (trace w ++ abort_events h l) w).
Proof.
  intros Hrel. revert w. induction l as [|state l IH]; intros w.
  - cbn. unfold ret. now rewrite app_nil_r, set_trace_id.
  - cbn [forM_ abort_events flat_map]. unfold bind at 1. unfold bind at 1.
    assert (Hcall : try_catch (abortHandler (runtime h) state)
                      (fun e => debug ("error aborting with worker-shutdown: " ++ e)%string) w
                    = (Ret tt, set_trace (trace w ++ abortCall (runtime h) state) w)).
    { unfold try_catch, abortHandler, abortCall.
      destruct (handler state) as [hd|]; [|reflexivity].
      unfold call, bind, emit, modify, debug.
      destruct (abort (runtime h) hd) as [[]|e]; [reflexivity|].
      mcbv. f_equal. f_equal. now rewrite <- app_assoc. }
    rewrite Hcall, (async_cleanup_run h state _ Hrel), IH. f_equal.
    unfold abort_events. same_state.
Qed.

Lemma async_abort_run (h : Host) (w : TaskListener) :
  releases_return h ->
  Async.abortRunningTasks h w
  = (Ret tt, set_trace (trace w ++ abort_events h (runningTasks w)) w).
Proof.
  intros Hrel. unfold Async.abortRunningTasks, bind at 1, gets.
  now apply async_abort_loop.
Qed.

Lemma async_step_total (h : Host) (s : Step) (w : TaskListener) :
  fst (Async.step h s w) = Ret tt.
Proof. unfold Async.step, bind, attempt, ret. reflexivity. Qed.

(** An [await]: the steps taken meanwhile throw nothing here, and emit
    only events of runners and calls of [handler.cancel]. *)
Lemma async_yield_run (h : Host) (steps : list Step) (w : TaskListener) :
  exists w' evs,
    Async.yield h steps w = (Ret tt, w')
    /\ trace w' = trace w ++ evs /\ Forall other_only evs.
Proof.
  unfold Async.yield. revert w. induction steps as [|s steps IH]; intros w.
  - exists w, []. cbn. rewrite app_nil_r. auto.
  - cbn [forM_]. unfold bind at 1.
    destruct (async_step_emits h s w) as (e1 & H1 & Hq1).
    pose proof (async_step_total h s w) as Htot.
    destruct (Async.step h s w) as [r w1]. cbn [fst snd] in *. subst r.
    destruct (IH w1) as (w' & e2 & Heq & H2 & Hq2).
    exists w', (e1 ++ e2). rewrite Heq. split; [reflexivity|].
    split; [|apply Forall_app; auto].
    rewrite H2, H1. now rewrite app_assoc.
Qed.

(** The wait loop: it answers [true] exactly when it is left, on an empty
    registry, and [false] when the rounds listed end with the registry
    still occupied; each round is a 100 ms sleep followed by the steps of
    the other activities. *)
Lemma async_drain_run (h : Host) (sched : list (list Step)) (w : TaskListener) :
  exists b rounds w2,
    Async.drain h sched w = (Ret b, w2)
    /\ trace w2 = trace w ++ wait_events rounds
    /\ Forall (Forall other_only) rounds
    /\ (length rounds <= length sched)%nat
    /\ (if b then runningTasks w2 = []
        else runningTasks w2 <> [] /\ length rounds = length sched)
    /\ (runningTasks w = [] -> rounds = [])
    /\ (runningTasks w <> [] -> sched <> [] -> rounds <> []).
Proof.
  revert w. induction sched as [|round sched IH]; intros w.
  - cbn [Async.drain]. unfold bind, isIdle, bind, gets, ret.
    destruct (runningTasks w) as [|st rts] eqn:Hrts; cbn [length Nat.eqb].
    + exists true, [], w. cbn [wait_events flat_map]. rewrite app_nil_r.
      repeat split; auto; try (cbn [length]; lia); try congruence.
    + exists false, [], w. cbn [wait_events flat_map]. rewrite app_nil_r, Hrts.
      repeat split; auto; try discriminate; try congruence.
  - cbn [Async.drain]. unfold bind at 1, isIdle, bind, gets, ret.
    destruct (runningTasks w) as [|st rts] eqn:Hrts; cbn [length Nat.eqb].
    + exists true, [], w. cbn [wait_events flat_map]. rewrite app_nil_r.
      repeat split; auto; try (cbn [length]; lia); try congruence.
    + unfold emit, modify.
      match goal with
      | |- context [Async.yield h round ?w1] =>
          destruct (async_yield_run h round w1) as (w' & e1 & Heq & H1 & Hq1)
      end.
      rewrite Heq.
      destruct (IH w') as (b & rounds & w2 & Hd & H2 & Hq2 & Hlen & Hb & _).
      exists b, (e1 :: rounds), w2.
      split; [exact Hd|].
      split.
      { rewrite H2, H1. cbn [trace set_trace wait_events flat_map].
        rewrite <- !app_assoc. reflexivity. }
      split; [constructor; assumption|].
      split; [cbn [length]; lia|].
      split.
      { destruct b; [exact Hb|]. destruct Hb as [Hb1 Hb2]. split; [exact Hb1|].
        cbn [length]. now rewrite Hb2. }
      split; discriminate.
Qed.

Lemma async_shutdown_run (h : Host) (during after : list Step) (w : TaskListener) :
  exists meanwhile later w',
    Async.shutdown h during after w = (hostShutdown (runtime h), w')
    /\ trace w' = trace w ++ meanwhile ++ shutdownEvents ++ later
    /\ Forall other_only meanwhile /\ Forall other_only later
    /\ paused w' = true /\ capacity w' = 0.
Proof.
  unfold Async.shutdown, pause.
  unfold bind at 1. unfold modify at 1.
  destruct (async_yield_run h during (set_paused true w)) as (w1 & e1 & Hy1 & Ht1 & Hq1).
  unfold bind at 1. rewrite Hy1.
  pose proof (preserves_async_yield _ (paused_kept true) h during (set_paused true w)
                eq_refl) as Hp1.
  rewrite Hy1 in Hp1. cbn [snd] in Hp1.
  set (w2 := set_trace (trace w1 ++ shutdownEvents) (set_capacity 0 w1)).
  destruct (async_yield_run h after w2) as (w3 & e2 & Hy2 & Ht2 & Hq2).
  pose proof (preserves_async_yield _ (paused_kept true) h after w2) as Hp2.
  pose proof (preserves_async_yield _ (capacity_kept 0) h after w2) as Hc2.
  rewrite Hy2 in Hp2, Hc2. cbn [snd] in Hp2, Hc2.
  exists e1, e2, w3.
  assert (Hrun : (modify (set_capacity 0) ;;
                  log "shutdown" [] ;;
                  logEvent "instanceShutdown" None None ;;
                  log "exit" [] ;;
                  try_finally (call EHostShutdown (hostShutdown (runtime h)))
                    (Async.yield h after)) w1
                 = (hostShutdown (runtime h), w3)).
  { unfold bind at 1. unfold modify at 1.
    unfold bind at 1. unfold log at 1, emit at 1, modify at 1.
    unfold bind at 1. unfold logEvent at 1, emit at 1, modify at 1.
    unfold bind at 1. unfold log at 1, emit at 1, modify at 1.
    unfold try_finally, call, bind, emit, modify.
    match goal with
    | |- context [Async.yield h after ?x] => replace x with w2
    end.
    - destruct (hostShutdown (runtime h)); cbn [fst snd]; rewrite Hy2; reflexivity.
    - unfold w2, shutdownEvents. destruct w1. mcbv. f_equal.
      destruct (hostShutdown (runtime h)); cbn [snd]; rewrite <- !app_assoc;
        reflexivity. }
  rewrite Hrun. split; [reflexivity|].
  split.
  { rewrite Ht2. unfold w2. cbn [trace set_trace]. rewrite Ht1.
    cbn [trace set_paused]. now rewrite <- !app_assoc. }
  split; [exact Hq1|]. split; [exact Hq2|].
  split.
  - apply Hp2. unfold w2. destruct w1; exact Hp1.
  - apply Hc2. unfold w2. destruct w1; reflexivity.
Qed.

Lemma other_before_exit (e : Event) : other_only e -> before_exit e.
Proof.
  unfold other_only, before_exit. destruct e; simpl; intros H; auto; discriminate.
Qed.

Lemma wait_events_before_exit (rounds : list (list Event)) :
  Forall (Forall other_only) rounds -> Forall before_exit (wait_events rounds).
Proof.
  unfold wait_events. induction 1 as [|r rounds Hr _ IH]; [constructor|].
  cbn [flat_map]. constructor; [reflexivity|].
  apply Forall_app. split; [|exact IH].
  eapply Forall_impl; [|exact Hr]. exact other_before_exit.
Qed.


Lemma reportEvents_before_exit (got : Res unit) (w : TaskListener) :
  Forall before_exit (reportEvents got w).
Proof.
  unfold reportEvents. apply Forall_app. split.
  - destruct got; repeat constructor.
  - destruct (Nat.eqb _ 0); repeat constructor.
Qed.

(** The abort loop reaches every entry: its handler is aborted, a throw of
    the abort is recorded at debug level, and the devices it holds are
    released. *)
Lemma abort_events_each (h : Host) (rts : list RunningState) (state : RunningState)
    (hd : Task) :
  In state rts -> handler state = Some hd ->
  In (EAbort hd "worker-shutdown") (abort_events h rts)
  /\ (forall e, abort (runtime h) hd = Throw e ->
        In (EDebug ("error aborting with worker-shutdown: " ++ e)) (abort_events h rts))
  /\ (forall d, In d (held_devices state) -> In (ERelease d) (abort_events h rts)).
Proof.
  intros Hin Hh. unfold abort_events. split; [|split].
  - apply in_flat_map. exists state. split; [exact Hin|].
    apply in_or_app. left. unfold abortCall. rewrite Hh. now left.
  - intros e He. apply in_flat_map. exists state. split; [exact Hin|].
    apply in_or_app. left. unfold abortCall. rewrite Hh, He. right. now left.
  - intros d Hd. apply in_flat_map. exists state. split; [exact Hin|].
    apply in_or_app. right. now apply in_map.
Qed.

(** From the settling of [getTasks] to the switch, when the report
    returns. *)
Lemma async_poll_switch (h : Host) (got : Res unit) (sched : list (list Step))
    (during after : list Step) (w : TaskListener) :
  reportAnswer h w = Ret tt ->
  Async.taskPoll_rest h got sched during after w
  = match exitRequest h with
    | Throw e => (Throw e, atSwitch got w)
    | Ret exit =>
        if String.eqb exit "immediate"
        then Async.immediateExit h sched during after (atSwitch got w)
        else if String.eqb exit "graceful"
             then Async.gracefulExit h during after (atSwitch got w)
             else (Ret Returned, atSwitch got w)
    end.
Proof.
  unfold reportAnswer. intros Hrep.
  unfold Async.taskPoll_rest, atSwitch, reportEvents.
  unfold bind at 1.
  assert (Hgot : match got with
                 | Ret _ => ret tt
                 | Throw e =>
                     log "[alert-operator] task retrieval error" [("message", VStr e)]
                 end w
                 = (Ret tt,
                    set_trace
                      (trace w ++ match got with
                                  | Ret _ => []
                                  | Throw e =>
                                      [ELog "[alert-operator] task retrieval error"
                                         [("message", VStr e)]]
                                  end) w)).
  { destruct got as [[]|e]; unfold ret, log, emit, modify; [|reflexivity].
    now rewrite app_nil_r, set_trace_id. }
  rewrite Hgot. clear Hgot.
  unfold bind at 1, isIdle, bind at 1, gets, ret.
  cbn [runningTasks set_trace].
  unfold bind at 1.
  match goal with
  | |- context [set_trace (trace w ++ ?pre) w] => set (pre' := pre)
  end.
  assert (Hcall : (if Nat.eqb (length (runningTasks w)) 0
                   then call EOnIdle (onIdle h) else call EOnWorking (onWorking h))
                    (set_trace (trace w ++ pre') w)
                  = (Ret tt,
                     set_trace
                       (trace w ++ pre'
                        ++ [if Nat.eqb (length (runningTasks w)) 0
                            then EOnIdle else EOnWorking]) w)).
  { destruct (Nat.eqb (length (runningTasks w)) 0);
      unfold call, bind, emit, modify; rewrite Hrep; f_equal; same_state. }
  rewrite Hcall. clear Hcall.
  unfold bind at 1.
  destruct (exitRequest h) as [exit|e]; [|reflexivity].
  destruct (String.eqb exit "immediate"); [reflexivity|].
  destruct (String.eqb exit "graceful"); reflexivity.
Qed.




(** ** Release of the devices a state holds *)

Lemma removal_events_releases (h : Host) (rs : RunningState) (w : TaskListener) :
  device_releases (removal_events h rs w) = held_devices rs.
Proof.
  unfold removal_events. destruct (findIndex _ _).
  - rewrite device_releases_app, device_releases_map. reflexivity.
  - change (device_releases ([removalWarning rs] ++ map ERelease (held_devices rs))
            = held_devices rs).
    rewrite device_releases_app, device_releases_map. reflexivity.
Qed.

Lemma removal_events_no_error (h : Host) (rs : RunningState) (w : TaskListener) :
  countOf "task.error" (removal_events h rs w) = 0.
Proof.
  unfold removal_events. destruct (findIndex _ _).
  - rewrite countOf_app. cbn.
    induction (held_devices rs) as [|d l IH]; [reflexivity|exact IH].
  - cbn. induction (held_devices rs) as [|d l IH]; [reflexivity|exact IH].
Qed.

Lemma retired_trace (h : Host) (rs : RunningState) (w : TaskListener) :
  trace (retired h rs w) = trace w ++ removal_events h rs w.
Proof. reflexivity. Qed.

Lemma retired_registry (h : Host) (rs : RunningState) (w : TaskListener) :
  runningTasks (retired h rs w) = without_first rs (runningTasks w).
Proof.
  unfold retired, removed, without_first. cbn [runningTasks set_trace].
  destruct (findIndex _ _); reflexivity.
Qed.

Lemma async_catch_run (h : Host) (claim : Claim) (rs : RunningState)
    (task : option TaskDef) (e : string) (w : TaskListener) :
  releases_return h ->
  Async.runTask_catch h claim rs task e w
  = (Ret Finished,
     set_trace (trace (retired h rs w) ++ [catchLog claim task e; ECount "task.error" 1])
       (retired h rs w)).
Proof.
  intros Hrel. unfold Async.runTask_catch, catchLog, taskError.
  unfold bind at 1. rewrite (async_remove_run h rs w Hrel).
  destruct task; unfold bind, log, count, emit, modify, ret; f_equal; same_state.
Qed.

Lemma catch_outcome (h : Host) (claim : Claim) (st : RunningState)
    (task : option TaskDef) (e : string) (w : TaskListener) :
  releases_return h ->
  setup_outcome h st w (Async.runTask_catch h claim st task e w).
Proof.
  intros Hrel. rewrite (async_catch_run h claim st task e w Hrel).
  exists (removal_events h st w ++ [catchLog claim task e; ECount "task.error" 1]).
  cbn [fst snd trace set_trace]. rewrite retired_trace.
  split; [now rewrite app_assoc|].
  split; [|split].
  - rewrite device_releases_app, removal_events_releases.
    destruct task; cbn; now rewrite app_nil_r.
  - apply retired_registry.
  - rewrite countOf_app, removal_events_no_error. destruct task; reflexivity.
Qed.

Lemma recordEvents_no_release (rt : Runtime) (w : TaskListener) :
  device_releases (recordEvents rt w) = [].
Proof. reflexivity. Qed.

Lemma admit_outcome (h : Host) (claim : Claim) (task : TaskDef) (st : RunningState)
    (options : Options) (w : TaskListener) :
  releases_return h ->
  setup_outcome h st w (Async.admitTask h claim task st options w).
Proof.
  intros Hrel. unfold Async.admitTask.
  destruct (newTask (runtime h) claim options) as [th|e];
    [|now apply catch_outcome].
  unfold bind at 1. rewrite addRunningTask_run.
  unfold bind, logEvent, emit, modify, ret.
  cbn [fst snd trace set_trace set_runningTasks set_lastTaskEvent set_ticks
       runningTasks p_state p_handler].
  eexists. split.
  - rewrite <- !app_assoc. reflexivity.
  - cbn [p_state p_handler]. split; [reflexivity|]. split; [reflexivity|].
    rewrite !device_releases_app, recordEvents_no_release. reflexivity.
Qed.

Lemma leaseNext_outcome (h : Host) (claim : Claim) (task : TaskDef)
    (st : RunningState) (options : Options) (odevs : list (string * Device))
    (keys : list string) (w : TaskListener) :
  releases_return h ->
  setup_outcome h st w (Async.leaseNext h claim task st options odevs keys w).
Proof.
  intros Hrel. destruct keys as [|device rest]; cbn [Async.leaseNext].
  - now apply admit_outcome.
  - unfold bind, gets, emit, modify, ret. cbn [fst snd].
    exists [EGetDevice device]. cbn [trace set_trace runningTasks].
    repeat split; reflexivity.
Qed.

(** A setup step taken after some records of the same runner. *)
Lemma outcome_frame (h : Host) (st : RunningState) (w w0 : TaskListener)
    (pre : list Event) (run : Res Runner * TaskListener) :
  trace w0 = trace w ++ pre -> device_releases pre = [] ->
  countOf "task.error" pre = 0 ->
  runningTasks w0 = runningTasks w ->
  setup_outcome h st w0 run -> setup_outcome h st w run.
Proof.
  intros Ht Hpre Hcount Hrts (evs & He & Hout).
  exists (pre ++ evs). split; [rewrite He, Ht; now rewrite app_assoc|].
  rewrite device_releases_app, Hpre, countOf_app, Hcount. cbn [app].
  rewrite <- Hrts.
  destruct (fst run) as [[claim task rs options odevs device answer rest|p|]|e];
    exact Hout.
Qed.

Lemma leasedIn_app (h : Host) (t e1 e2 : list Event) :
  leasedIn h t (e1 ++ e2) = leasedIn h t e1 ++ leasedIn h (t ++ e1) e2.
Proof.
  revert t. induction e1 as [|e e1 IH]; intros t; cbn [app leasedIn].
  - now rewrite app_nil_r.
  - rewrite IH, <- !app_assoc. reflexivity.
Qed.

Lemma leasedIn_none (h : Host) (t evs : list Event) :
  Forall no_lease evs -> leasedIn h t evs = [].
Proof.
  intros H. revert t. induction H as [|e evs He _ IH]; intros t; [reflexivity|].
  cbn [leasedIn]. rewrite IH. destruct e; try reflexivity. destruct He.
Qed.

(** [runTask] up to the point where its state is built: it has made only
    records and, on a worker that restricts the CPUs, the lease of "cpu";
    the state holds what has been leased; it goes on with the [catch]
    block, with [new Task] or with the lease of the first payload
    device. *)
Lemma async_begin_cases (h : Host) (claim : Claim) (w : TaskListener) :
  exists n pre k,
    Forall quiet pre /\ device_releases pre = []
    /\ devices (built h (Begin claim) w) = held (leasedIn h (trace w) pre) []
    /\ Continuation h claim (built h (Begin claim) w) k
    /\ Async.runTask_begin h claim w
       = k (set_ticks n (set_trace (trace w ++ pre) w)).
Proof.
  remember (Async.runTask_begin h claim w) as run eqn:Hrun.
  unfold Async.runTask_begin in Hrun. unfold built, beginEvents, payloadKeys.
  unfold bind at 1, Date_now at 1 in Hrun.
  unfold bind at 1, gets at 1 in Hrun. unfold bind at 1, modify at 1, ret at 1 in Hrun.
  unfold bind at 1, log at 1, emit at 1, modify at 1 in Hrun.
  cbv beta iota zeta delta [taskId runId] in Hrun.
  set (rs := {| startTime := clock (runtime h) (ticks w); devices := [];
                taskId := c_taskId claim; runId := c_runId claim; handler := None |})
    in *.
  set (logged := ELog "run task"
                   [("taskId", VStr (c_taskId claim)); ("runId", VNum (c_runId claim))])
    in *.
  destruct (c_task claim) as [task|] eqn:Htask.
  2:{ exists (S (ticks w)), [logged], (Async.runTask_catch h claim rs None
         "TypeError: Cannot read properties of undefined (reading 'created')").
      split; [repeat constructor|]. split; [reflexivity|]. split; [reflexivity|].
      split; [constructor|exact Hrun]. }
  unfold bind at 1 in Hrun.
  set (measured := if Nat.eqb (length (c_runs claim)) 0
                   then [EMeasure "timeToFirstClaim"
                           (clock (runtime h) (S (ticks w)) - created task)]
                   else []) in *.
  assert (Hmq : Forall quiet measured /\ device_releases measured = []
                /\ Forall no_lease (logged :: measured)).
  { unfold measured. destruct (Nat.eqb _ 0); repeat split; repeat constructor. }
  destruct Hmq as (Hmq & Hmr & Hml).
  match type of Hrun with
  | context [(if Nat.eqb (length (c_runs claim)) 0 then ?m1 else ?m2) ?w0] =>
      assert (Hfirst : exists n, (if Nat.eqb (length (c_runs claim)) 0 then m1 else m2) w0
                                 = (Ret tt, set_ticks n
                                              (set_trace (trace w ++ logged :: measured) w)))
  end.
  { unfold measured. destruct (Nat.eqb (length (c_runs claim)) 0).
    - exists (S (S (ticks w))). destruct w. mcbv. f_equal. f_equal.
      now rewrite <- app_assoc.
    - exists (S (ticks w)). destruct w. mcbv. reflexivity. }
  destruct Hfirst as (n & Hfirst). rewrite Hfirst in Hrun. clear Hfirst.
  set (w1 := set_ticks n (set_trace (trace w ++ logged :: measured) w)) in *.
  assert (Hw : forall pre,
            set_trace (trace w1 ++ pre) w1
            = set_ticks n (set_trace (trace w ++ (logged :: measured) ++ pre) w)).
  { intros pre. unfold w1. destruct w. mcbv. f_equal. now rewrite <- !app_assoc. }
  assert (Hrest : forall st options pre,
            Forall quiet pre -> device_releases pre = [] ->
            devices st = held (leasedIn h (trace w ++ logged :: measured) pre) [] ->
            run = match capabilities task with
                  | Some {| cap_devices := Some keys |} =>
                      debug "Aquiring task payload specific devices" ;;
                      Async.leaseNext h claim task st options [] keys
                  | _ => Async.admitTask h claim task st options
                  end (set_trace (trace w1 ++ pre) w1) ->
            exists n' pre' k,
              Forall quiet pre' /\ device_releases pre' = []
              /\ devices st = held (leasedIn h (trace w) pre') []
              /\ Continuation h claim st k
              /\ run = k (set_ticks n' (set_trace (trace w ++ pre') w))).
  { intros st options pre Hq Hr Hdev Hgo.
    assert (Hdev' : devices st
                    = held (leasedIn h (trace w) ((logged :: measured) ++ pre)) []).
    { rewrite leasedIn_app, (leasedIn_none h _ _ Hml). exact Hdev. }
    destruct (capabilities task) as [[[keys|]]|] eqn:Hcap.
    - exists n, ((logged :: measured) ++ pre
                 ++ [EDebug "Aquiring task payload specific devices"]),
        (Async.leaseNext h claim task st options [] (payloadKeys claim)).
      split; [repeat (apply Forall_app; split); repeat constructor; auto|].
      split; [change (logged :: measured) with ([logged] ++ measured);
              rewrite !device_releases_app, Hr, Hmr; reflexivity|].
      split.
      { rewrite app_assoc, leasedIn_app.
        rewrite (leasedIn_none h _ [EDebug _]) by (repeat constructor).
        rewrite app_nil_r. exact Hdev'. }
      split; [constructor|].
      unfold payloadKeys. rewrite Htask, Hcap.
      rewrite Hgo. unfold bind, debug, emit, modify. f_equal.
      rewrite Hw. destruct w. mcbv. f_equal. now rewrite <- !app_assoc.
    - exists n, ((logged :: measured) ++ pre), (Async.admitTask h claim task st options).
      split; [repeat (apply Forall_app; split); repeat constructor; auto|].
      split; [change (logged :: measured) with ([logged] ++ measured);
              rewrite !device_releases_app, Hr, Hmr; reflexivity|].
      split; [exact Hdev'|].
      split; [constructor|]. now rewrite Hgo, Hw.
    - exists n, ((logged :: measured) ++ pre), (Async.admitTask h claim task st options).
      split; [repeat (apply Forall_app; split); repeat constructor; auto|].
      split; [change (logged :: measured) with ([logged] ++ measured);
              rewrite !device_releases_app, Hr, Hmr; reflexivity|].
      split; [exact Hdev'|].
      split; [constructor|]. now rewrite Hgo, Hw. }
  unfold bind at 1, gets at 1 in Hrun.
  change (restrictCPU w1) with (restrictCPU w) in Hrun.
  destruct (restrictCPU w).
  - unfold bind at 1 in Hrun. unfold bind at 1, gets at 1 in Hrun.
    unfold bind at 1, emit at 1, modify at 1 in Hrun.
    change (trace w1) with (trace w ++ logged :: measured) in Hrun.
    destruct (lease h (trace w ++ logged :: measured) "cpu") as [d|e] eqn:Hl;
      unfold ret in Hrun.
    + apply (Hrest (set_device "cpu" d rs)
               {| cpusetCpus := Some (dev_id d); opt_devices := None |}
               [EGetDevice "cpu"]); [repeat constructor|reflexivity| |exact Hrun].
      cbn [leasedIn]. rewrite Hl. reflexivity.
    + exists n, ((logged :: measured) ++ [EGetDevice "cpu"]),
        (Async.runTask_catch h claim rs (Some task) e).
      split; [apply Forall_app; split; repeat constructor; auto|].
      split; [change (logged :: measured) with ([logged] ++ measured);
              rewrite !device_releases_app, Hmr; reflexivity|].
      split.
      { rewrite leasedIn_app, (leasedIn_none h _ _ Hml). cbn [leasedIn app].
        rewrite Hl. reflexivity. }
      split; [constructor|]. rewrite Hrun. f_equal.
      unfold w1. destruct w. mcbv. f_equal. now rewrite <- !app_assoc.
  - unfold bind at 1, ret at 1 in Hrun.
    apply (Hrest rs noOptions []); [constructor|reflexivity|reflexivity|].
    rewrite Hrun. now rewrite app_nil_r, set_trace_id.
Qed.

Lemma begin_outcome (h : Host) (claim : Claim) (w : TaskListener) :
  releases_return h ->
  setup_outcome h (built h (Begin claim) w) w (Async.runTask_begin h claim w).
Proof.
  intros Hrel.
  destruct (async_begin_cases h claim w) as (n & pre & k & Hq & Hr & _ & Hk & ->).
  apply (outcome_frame h _ w (set_ticks n (set_trace (trace w ++ pre) w)) pre);
    [reflexivity|exact Hr|now apply quiet_no_task_error|reflexivity|].
  destruct Hk.
  - now apply catch_outcome.
  - now apply admit_outcome.
  - now apply leaseNext_outcome.
Qed.

Lemma setup_step_outcome (h : Host) (s : SetupStep) (w : TaskListener) :
  releases_return h ->
  setup_outcome h (built h s w) w (setupStep h s w).
Proof.
  intros Hrel.
  destruct s as [claim|claim task rs options odevs device answer rest].
  - now apply begin_outcome.
  - cbn [setupStep built Async.resumeRunner]. destruct answer as [d|e].
    + now apply leaseNext_outcome.
    + now apply catch_outcome.
Qed.

(** ** The devices a state holds *)

Lemma obj_get_set_same {V} (k : string) (v : V) (o : list (string * V)) :
  obj_get k (obj_set k v o) = Some v.
Proof.
  induction o as [|[k' v'] o IH]; cbn [obj_set obj_get].
  - now rewrite String.eqb_refl.
  - destruct (String.eqb k' k) eqn:E; cbn [obj_get].
    + now rewrite String.eqb_refl.
    + now rewrite E.
Qed.

Lemma obj_get_set_other {V} (k k' : string) (v : V) (o : list (string * V)) :
  k' <> k -> obj_get k' (obj_set k v o) = obj_get k' o.
Proof.
  intros Hne. induction o as [|[k0 v0] o IH]; cbn [obj_set obj_get].
  - destruct (String.eqb_spec k k'); [congruence|reflexivity].
  - destruct (String.eqb_spec k0 k) as [->|Hk]; cbn [obj_get].
    + destruct (String.eqb_spec k k'); [congruence|reflexivity].
    + destruct (String.eqb k0 k'); [reflexivity|exact IH].
Qed.

Lemma obj_set_length {V} (k : string) (v : V) (o : list (string * V)) :
  obj_get k o <> None -> length (obj_set k v o) = length o.
Proof.
  induction o as [|[k0 v0] o IH]; cbn [obj_set obj_get]; [congruence|].
  destruct (String.eqb k0 k); cbn [length]; [reflexivity|].
  intros H. now rewrite IH.
Qed.

Lemma insert_index_perm {V} (n : N) (kv : string * V) (l : list (N * (string * V))) :
  Permutation (insert_index n kv l) ((n, kv) :: l).
Proof.
  induction l as [|[m kv'] l IH]; cbn [insert_index]; [reflexivity|].
  destruct (n <? m)%N; [reflexivity|].
  rewrite IH. apply perm_swap.
Qed.

Lemma index_entries_perm {V} (o : list (string * V)) :
  Permutation (map snd (index_entries o))
    (filter (fun kv => match array_index (fst kv) with
                       | Some _ => true
                       | None => false
                       end) o).
Proof.
  induction o as [|kv o IH]; cbn [index_entries filter]; [reflexivity|].
  destruct (array_index (fst kv)) as [n|]; [|exact IH].
  rewrite insert_index_perm. cbn [map snd]. now constructor.
Qed.

(** [Object.keys] lists every entry once. *)
Lemma own_entries_perm {V} (o : list (string * V)) : Permutation (own_entries o) o.
Proof.
  unfold own_entries. rewrite index_entries_perm.
  induction o as [|kv o IH]; cbn [filter]; [reflexivity|].
  destruct (array_index (fst kv)); cbn [app].
  - now constructor.
  - rewrite <- Permutation_middle. now constructor.
Qed.

Lemma held_devices_perm (st : RunningState) :
  Permutation (held_devices st) (map snd (devices st)).
Proof. unfold held_devices. apply Permutation_map, own_entries_perm. Qed.

(** ** The entry that leaves the registry *)

Lemma findIndex_first {A} (p : A -> bool) (l1 l2 : list A) (x : A) :
  (forall y, In y l1 -> p y = false) -> p x = true ->
  findIndex p (l1 ++ x :: l2) = Some (length l1).
Proof.
  intros H Hx. induction l1 as [|a l1 IH]; cbn [app findIndex length].
  - now rewrite Hx.
  - rewrite (H a) by now left. rewrite IH; [reflexivity|].
    intros y Hy. apply H. now right.
Qed.

Lemma splice1_middle {A} (l1 l2 : list A) (x : A) :
  splice1 (length l1) (l1 ++ x :: l2) = l1 ++ l2.
Proof.
  unfold splice1. rewrite firstn_app, firstn_all, Nat.sub_diag. cbn [firstn].
  rewrite app_nil_r. f_equal.
  replace (S (length l1)) with (length (l1 ++ [x]))
    by (rewrite length_app; cbn; lia).
  replace (l1 ++ x :: l2) with ((l1 ++ [x]) ++ l2) by (now rewrite <- app_assoc).
  rewrite skipn_app, skipn_all, Nat.sub_diag. reflexivity.
Qed.

Lemma without_first_middle (st : RunningState) (l1 l2 : list RunningState)
    (x : RunningState) :
  (forall y, In y l1 -> same_run st y = false) -> same_run st x = true ->
  without_first st (l1 ++ x :: l2) = l1 ++ l2.
Proof.
  intros H Hx. unfold without_first.
  rewrite (findIndex_first _ l1 l2 x H Hx). apply splice1_middle.
Qed.

(** ** The retirement of a state *)

Lemma async_settle_run (h : Host) (p : Pending) (started : Res unit)
    (w : TaskListener) :
  releases_return h ->
  Async.runTask_settle h p started w
  = (Ret Finished,
     let wr := retired h (p_state p)
                 (set_trace (trace w ++ [ELogEvent "taskFinish" (Some (p_handler p)) None]) w) in
     set_trace (trace wr ++ resumeTail p started) wr).
Proof.
  intros Hrel. unfold Async.runTask_settle, resumeTail.
  set (wf := set_trace (trace w ++ [ELogEvent "taskFinish" (Some (p_handler p)) None]) w).
  destruct started as [[]|e].
  - assert (Hbody : (try_finally (fun w0 => (Ret tt, w0))
                       (logEvent "taskFinish" (Some (p_handler p)) None) ;;
                     Async.removeRunningTask h (p_state p)) w
                    = (Ret tt, retired h (p_state p) wf)).
    { unfold bind, try_finally, logEvent, emit, modify. cbn [fst snd].
      apply (async_remove_run h _ _ Hrel). }
    unfold bind at 1, attempt. rewrite Hbody. cbn [fst snd].
    unfold bind, count, emit, modify, ret. reflexivity.
  - assert (Hbody : (try_finally (fun w0 => (@Throw unit e, w0))
                       (logEvent "taskFinish" (Some (p_handler p)) None) ;;
                     Async.removeRunningTask h (p_state p)) w
                    = (Throw e, wf)).
    { unfold bind, try_finally, logEvent, emit, modify. reflexivity. }
    unfold bind at 1, attempt. rewrite Hbody. cbn [fst snd].
    rewrite (async_catch_run h _ _ _ _ _ Hrel). reflexivity.
Qed.

Lemma async_settle_events (h : Host) (p : Pending) (started : Res unit)
    (w : TaskListener) :
  releases_return h ->
  trace (exec (Async.runTask_settle h p started) w)
  = trace w ++ ELogEvent "taskFinish" (Some (p_handler p)) None
               :: removal_events h (p_state p) w ++ resumeTail p started.
Proof.
  intros Hrel. unfold exec. rewrite (async_settle_run h p started w Hrel).
  cbn [snd set_trace trace]. rewrite retired_trace. cbn [trace set_trace].
  unfold removal_events. cbn [runningTasks set_trace].
  now rewrite <- !app_assoc.
Qed.

Lemma async_settle_releases (h : Host) (p : Pending) (started : Res unit)
    (w : TaskListener) :
  releases_return h ->
  device_releases (events_since w (exec (Async.runTask_settle h p started) w))
  = held_devices (p_state p).
Proof.
  intros Hrel.
  rewrite (events_since_app _ _ _ (async_settle_events h p started w Hrel)).
  change (ELogEvent "taskFinish" (Some (p_handler p)) None
          :: removal_events h (p_state p) w ++ resumeTail p started)
    with ([ELogEvent "taskFinish" (Some (p_handler p)) None]
          ++ removal_events h (p_state p) w ++ resumeTail p started).
  rewrite !device_releases_app, removal_events_releases.
  unfold resumeTail. destruct started; cbn; now rewrite app_nil_r.
Qed.

Lemma async_settle_registry (h : Host) (p : Pending) (started : Res unit)
    (w : TaskListener) :
  releases_return h ->
  runningTasks (exec (Async.runTask_settle h p started) w)
  = without_first (p_state p) (runningTasks w).
Proof.
  intros Hrel. unfold exec. rewrite (async_settle_run h p started w Hrel).
  cbn [snd set_trace runningTasks]. now rewrite retired_registry.
Qed.

(** ** Cancellations and abort loops *)

Lemma async_cancel_exec (h : Host) (message : Message) (w : TaskListener) :
  releases_return h -> cancels_return h ->
  exists evs,
    exec (Async.cancelTask h message) w = set_trace (trace w ++ evs) w
    /\ device_releases evs
       = flat_map held_devices (reached (runningTasks w) (ICancel message)).
Proof.
  intros Hrel Hcan. unfold exec, Async.cancelTask, reached, cancel_target.
  destruct (index (m_runs message) (m_runId message)) as [run|].
  2:{ exists []. now rewrite app_nil_r, set_trace_id. }
  destruct (is_canceled (reasonResolved run)); cbn [negb].
  2:{ exists []. now rewrite app_nil_r, set_trace_id. }
  unfold bind at 1, gets at 1.
  destruct (find_by_handler _ _ (runningTasks w)) as [[[state hd]|]|e].
  - unfold bind at 1, log, emit at 1, modify at 1.
    unfold bind at 1, gets at 1.
    unfold bind at 1, call, bind at 1, emit at 1, modify at 1.
    rewrite Hcan. rewrite (async_cleanup_run h state _ Hrel).
    cbn [snd trace set_trace].
    exists ([ELog "cancelling task" [("taskId", VStr (m_taskId message))];
             ECancel hd "canceled"] ++ map ERelease (held_devices state)).
    split; [same_state|].
    rewrite device_releases_app, device_releases_map. cbn. now rewrite app_nil_r.
  - exists [EDebug "task not found to cancel"]. split; reflexivity.
  - exists []. now rewrite app_nil_r, set_trace_id.
Qed.

Lemma abort_events_releases (h : Host) (rts : list RunningState) :
  device_releases (abort_events h rts) = flat_map held_devices rts.
Proof.
  unfold abort_events. induction rts as [|st rts IH]; [reflexivity|].
  cbn [flat_map]. rewrite !device_releases_app, IH, device_releases_map.
  assert (H : device_releases (abortCall (runtime h) st) = []).
  { unfold abortCall. destruct (handler st); [|reflexivity].
    destruct (abort (runtime h) t); reflexivity. }
  now rewrite H.
Qed.

Lemma async_interfere_exec (h : Host) (a : Interference) (w : TaskListener) :
  releases_return h -> cancels_return h ->
  exists evs,
    exec (async_interfere h a) w = set_trace (trace w ++ evs) w
    /\ device_releases evs = flat_map held_devices (reached (runningTasks w) a).
Proof.
  intros Hrel Hcan. destruct a as [message|]; cbn [async_interfere].
  - now apply async_cancel_exec.
  - exists (abort_events h (runningTasks w)). unfold exec.
    rewrite (async_abort_run h w Hrel). split; [reflexivity|].
    apply abort_events_releases.
Qed.

Lemma async_interfere_all_exec (h : Host) (acts : list Interference)
    (w : TaskListener) :
  releases_return h -> cancels_return h ->
  exists evs,
    async_interfere_all h acts w = set_trace (trace w ++ evs) w
    /\ device_releases evs
       = flat_map (fun a => flat_map held_devices (reached (runningTasks w) a)) acts.
Proof.
  intros Hrel Hcan. revert w.
  induction acts as [|a acts IH]; intros w; cbn [async_interfere_all flat_map].
  - exists []. now rewrite app_nil_r, set_trace_id.
  - destruct (async_interfere_exec h a w Hrel Hcan) as (e1 & H1 & R1). rewrite H1.
    destruct (IH (set_trace (trace w ++ e1) w)) as (e2 & H2 & R2).
    exists (e1 ++ e2). rewrite H2. split.
    + cbn [trace set_trace]. rewrite app_assoc. reflexivity.
    + rewrite device_releases_app, R1, R2. reflexivity.
Qed.

(** C2 (as the code has it), no [release()] and no [handler.cancel()]
    throwing.

    - Setup.  Each step of [runTask] up to [start()] ends in one of three
      ways: the state is admitted to the registry, with its handler, and
      nothing has been released; or the runner is suspended at its next
      lease, nothing admitted or released; or (a lease or [new Task]
      failing) the runner finishes through its [catch] block, which
      releases once the devices the state holds so far, counts task.error
      once, and leaves the state out of the registry.
    - What a state holds.  A lease puts its handle under its key; a handle
      the state held under the same key is replaced, the other keys keep
      theirs; the devices released for a state are the handles it holds,
      each once.
    - Retirement.  For a state that has been admitted, any sequence of
      cancellations and abort loops while its runner is suspended at
      [start()], and any outcome of [start()]: the interferences leave the
      registry as it is; between the admission and the return of the
      runner the releases are, for each interference in turn, the devices
      held by the states it reaches, then, once, the devices held by the
      runner's own state.  So each of them is released exactly once when
      nothing interfered, and 1 + k times over after k interferences that
      reach this state and no other.
    - The entry that leaves.  [removeRunningTask] removes the first entry
      with the task and run of the state: the state itself when no older
      entry has them, otherwise the older entry, the state staying
      registered. *)
Theorem leases_released_on_exit (h : Host) :
  releases_return h -> cancels_return h ->
  (forall s w, setup_outcome h (built h s w) w (setupStep h s w))
  /\ (forall st k d,
        obj_get k (devices (set_device k d st)) = Some d
        /\ (forall k', k' <> k ->
              obj_get k' (devices (set_device k d st)) = obj_get k' (devices st))
        /\ (obj_get k (devices st) <> None ->
              length (devices (set_device k d st)) = length (devices st))
        /\ Permutation (held_devices st) (map snd (devices st)))
  /\ (forall s w p acts started,
        result (setupStep h s) w = Ret (Started p) ->
        let w1 := exec (setupStep h s) w in
        let w2 := async_interfere_all h acts w1 in
        let w3 := exec (Async.runTask_settle h p started) w2 in
        let own := held_devices (p_state p) in
        runningTasks w1 = runningTasks w ++ [p_state p]
        /\ devices (p_state p) = devices (built h s w)
        /\ runningTasks w2 = runningTasks w1
        /\ result (Async.runTask_settle h p started) w2 = Ret Finished
        /\ device_releases (events_since w1 w3)
           = flat_map (fun a => flat_map held_devices (reached (runningTasks w1) a)) acts
             ++ own
        /\ (acts = [] -> device_releases (events_since w1 w3) = own)
        /\ (Forall (fun a => reached (runningTasks w1) a = [p_state p]) acts ->
              device_releases (events_since w1 w3)
              = concat (repeat own (S (length acts))))
        /\ runningTasks w3 = without_first (p_state p) (runningTasks w ++ [p_state p])
        /\ ((forall x, In x (runningTasks w) -> same_run (p_state p) x = false) ->
              runningTasks w3 = runningTasks w)
        /\ (forall l1 x l2,
              runningTasks w = l1 ++ x :: l2 ->
              (forall y, In y l1 -> same_run (p_state p) y = false) ->
              same_run (p_state p) x = true ->
              runningTasks w3 = l1 ++ l2 ++ [p_state p]))
  /\ (forall p started w2,
        let w3 := exec (Async.runTask_settle h p started) w2 in
        result (Async.runTask_settle h p started) w2 = Ret Finished
        /\ device_releases (events_since w2 w3) = held_devices (p_state p)
        /\ runningTasks w3 = without_first (p_state p) (runningTasks w2)).
Proof.
  intros Hrel Hcan.
  split; [intros s w; now apply setup_step_outcome|].
  split.
  { intros st k d. cbn [devices set_device].
    split; [apply obj_get_set_same|].
    split; [intros k'; apply obj_get_set_other|].
    split; [apply obj_set_length|apply held_devices_perm]. }
  split.
  2:{ intros p started w2. cbv zeta.
      split; [unfold result; now rewrite (async_settle_run h p started w2 Hrel)|].
      split; [now apply async_settle_releases|now apply async_settle_registry]. }
  intros s w p acts started Hadm. cbv zeta.
  destruct (setup_step_outcome h s w Hrel) as (ev0 & Ht0 & Hout).
  unfold result in Hadm. rewrite Hadm in Hout. destruct Hout as (Hst & Hreg & _).
  fold (exec (setupStep h s) w) in Hreg, Ht0.
  set (w1 := exec (setupStep h s) w) in *.
  destruct (async_interfere_all_exec h acts w1 Hrel Hcan) as (evs & Hw2 & Hrels).
  set (w2 := async_interfere_all h acts w1) in *.
  assert (Hreg2 : runningTasks w2 = runningTasks w1) by (now rewrite Hw2).
  assert (Hall : device_releases
                   (events_since w1 (exec (Async.runTask_settle h p started) w2))
                 = flat_map (fun a => flat_map held_devices
                                        (reached (runningTasks w1) a)) acts
                   ++ held_devices (p_state p)).
  { rewrite (events_since_trans w1 w2 _ evs
               (events_since w2 (exec (Async.runTask_settle h p started) w2))).
    - rewrite device_releases_app, Hrels.
      now rewrite (async_settle_releases h p started w2 Hrel).
    - rewrite Hw2. reflexivity.
    - rewrite (async_settle_events h p started w2 Hrel).
      now rewrite (events_since_app _ _ _ (async_settle_events h p started w2 Hrel)). }
  assert (Hreg3 : runningTasks (exec (Async.runTask_settle h p started) w2)
                  = without_first (p_state p) (runningTasks w ++ [p_state p])).
  { rewrite (async_settle_registry h p started w2 Hrel), Hreg2, Hreg. reflexivity. }
  split; [exact Hreg|].
  split; [rewrite Hst; reflexivity|].
  split; [exact Hreg2|].
  split; [unfold result; now rewrite (async_settle_run h p started w2 Hrel)|].
  split; [exact Hall|].
  split; [intros ->; rewrite Hall; reflexivity|].
  split.
  { intros Hreach. rewrite Hall.
    rewrite (flat_map_const _ acts (held_devices (p_state p))).
    - apply concat_repeat_snoc.
    - eapply Forall_impl; [|exact Hreach]. cbv beta. intros a ->.
      cbn. apply app_nil_r. }
  split; [exact Hreg3|].
  split.
  - intros Hnone. rewrite Hreg3.
    rewrite (without_first_middle (p_state p) (runningTasks w) [] (p_state p) Hnone
               (same_run_refl _)).
    apply app_nil_r.
  - intros l1 x l2 Hw Hl1 Hx. rewrite Hreg3, Hw.
    rewrite <- app_assoc. cbn [app].
    rewrite (without_first_middle (p_state p) l1 (l2 ++ [p_state p]) x Hl1 Hx).
    reflexivity.
Qed.

(** C2 at S8: the runner leases "cpu" twice and "kvm" once; the state that
    is admitted holds the second "cpu" handle and the "kvm" one; the
    cancellation and the retirement each release these two, and the first
    "cpu" handle is never released. *)
Lemma leases_released_on_exit_witness :
  let h := hostOf rtS1 in
  let wa := exec (Async.runTask_begin h claimCpu) wS8 in
  let wb := exec (Async.resumeRunner h leasingC1 (Ret tt)) wa in
  let w1 := exec (setupStep h lastLeaseC) wb in
  let w2 := async_interfere_all h [ICancel cancelC] w1 in
  let w3 := exec (Async.runTask_settle h pendingC (Ret tt)) w2 in
  (releases_return h /\ cancels_return h)
  /\ result (Async.runTask_begin h claimCpu) wS8 = Ret leasingC1
  /\ result (Async.resumeRunner h leasingC1 (Ret tt)) wa = Ret leasingC2
  /\ result (setupStep h lastLeaseC) wb = Ret (Started pendingC)
  /\ device_releases (events_since w1 w3)
     = [{| dev_id := 2 |}; {| dev_id := 3 |}; {| dev_id := 2 |}; {| dev_id := 3 |}]
  /\ device_releases (events_since wS8 w3) = device_releases (events_since w1 w3)
  /\ runningTasks w3 = [].
Proof.
  cbv zeta.
  assert (Hrel : releases_return (hostOf rtS1)) by (intros t d; reflexivity).
  assert (Hcan : cancels_return (hostOf rtS1)) by (intros t x; reflexivity).
  destruct (leases_released_on_exit (hostOf rtS1) Hrel Hcan) as (_ & _ & Hret & _).
  set (wb := exec (Async.resumeRunner (hostOf rtS1) leasingC1 (Ret tt))
               (exec (Async.runTask_begin (hostOf rtS1) claimCpu) wS8)).
  assert (Hadm : result (setupStep (hostOf rtS1) lastLeaseC) wb = Ret (Started pendingC))
    by (vm_compute; reflexivity).
  destruct (Hret lastLeaseC wb pendingC [ICancel cancelC] (Ret tt) Hadm)
    as (_ & _ & _ & _ & Hall & _ & _ & _ & Hleft & _).
  split; [split; assumption|].
  split; [vm_compute; reflexivity|].
  split; [vm_compute; reflexivity|].
  split; [exact Hadm|].
  split; [rewrite Hall; vm_compute; reflexivity|].
  split; [vm_compute; reflexivity|].
  apply Hleft. intros x Hx. vm_compute in Hx. destruct Hx.
Defined.

(** ** Errors that escape the poll cycle *)

Lemma async_cleanup_throw (h : Host) (state : option RunningState) (e : string)
    (w : TaskListener) :
  fst (Async.cleanupRunningState h state w) = Throw e ->
  exists t d, release h t d = Throw e.
Proof.
  unfold Async.cleanupRunningState. destruct state as [st|]; [|discriminate].
  revert w. induction (own_entries (devices st)) as [|kd l IH]; intros w;
    cbn [forM_]; [discriminate|].
  unfold bind at 1. unfold bind at 1, gets at 1, call, bind, emit, modify.
  cbn [fst snd].
  destruct (release h (trace w) (snd kd)) as [[]|e0] eqn:Hr; cbn [fst snd].
  - apply IH.
  - intros He. inversion He; subst e0. eauto.
Qed.

Lemma async_abort_throw (h : Host) (e : string) (w : TaskListener) :
  fst (Async.abortRunningTasks h w) = Throw e ->
  runningTasks w <> [] /\ exists t d, release h t d = Throw e.
Proof.
  unfold Async.abortRunningTasks, bind at 1, gets.
  intros H. split; [intros Hnil; rewrite Hnil in H; discriminate|].
  revert H. generalize (runningTasks w) as l. intros l. revert w.
  induction l as [|state l IH]; intros w; cbn [forM_]; [discriminate|].
  unfold bind at 1. unfold bind at 1.
  assert (Hcall : fst (try_catch (abortHandler (runtime h) state)
                         (fun e => debug ("error aborting with worker-shutdown: " ++ e)%string)
                         w) = Ret tt).
  { unfold try_catch, abortHandler. destruct (handler state) as [hd|]; [|reflexivity].
    unfold call, bind, emit, modify, debug. cbn [fst snd].
    destruct (abort (runtime h) hd) as [[]|e0]; reflexivity. }
  destruct (try_catch _ _ w) as [r w1]. cbn [fst] in Hcall. subst r.
  destruct (Async.cleanupRunningState h (Some state) w1) as [[[]|e0] w2] eqn:Hc.
  - intros H. exact (IH w2 H).
  - cbn [fst]. intros He. inversion He; subst e0.
    apply (async_cleanup_throw h (Some state) e w1). now rewrite Hc.
Qed.

Lemma before_exit_not_shutdown (e : Event) : before_exit e -> not_shutdown e.
Proof. unfold before_exit, not_shutdown. intros H ->. discriminate. Qed.

Lemma async_abort_emits (h : Host) : emits before_exit (Async.abortRunningTasks h).
Proof.
  unfold Async.abortRunningTasks, abortHandler, debug, Async.cleanupRunningState.
  emits_auto.
Qed.

Lemma not_shutdown_In (evs : list Event) :
  Forall not_shutdown evs -> ~ In EHostShutdown evs.
Proof.
  intros H Hin. rewrite Forall_forall in H. exact (H _ Hin eq_refl).
Qed.

(** What a throwing exit leaves behind: either a [release()] of the abort
    loop has thrown, and the host has not been shut down, or the host's
    [shutdown()] has been called and has thrown. *)
Lemma async_immediateExit_throw (h : Host) (sched : list (list Step))
    (during after : list Step) (e : string) (w1 w2 : TaskListener) :
  Async.immediateExit h sched during after w1 = (Throw e, w2) ->
  (runningTasks w1 <> [] /\ (exists t d, release h t d = Throw e)
   /\ exists evs, trace w2 = trace w1 ++ evs /\ Forall not_shutdown evs)
  \/ (hostShutdown (runtime h) = Throw e
      /\ (exists evs, trace w2 = trace w1 ++ evs /\ In EHostShutdown evs)
      /\ paused w2 = true /\ capacity w2 = 0).
Proof.
  unfold Async.immediateExit. unfold bind at 1, count, emit, modify.
  set (wc := set_trace (trace w1 ++ [ECount "spotTermination" 1]) w1).
  unfold bind at 1.
  destruct (async_abort_emits h wc) as (ea & Hta & Hqa).
  destruct (Async.abortRunningTasks h wc) as [[[]|e0] wa] eqn:Ha; cbn [snd] in Hta.
  - unfold bind at 1.
    destruct (async_drain_run h sched wa) as (b & rounds & wd & Hd & Htd & _).
    rewrite Hd. destruct b; [|unfold ret; discriminate].
    destruct (async_shutdown_run h during after wd)
      as (meanwhile & later & w3 & Hs & Ht3 & _ & _ & Hp & Hc).
    unfold bind, ret. rewrite Hs.
    destruct (hostShutdown (runtime h)) as [[]|e1]; [discriminate|].
    intros H. inversion H; subst e1 w3. right.
    split; [reflexivity|]. split; [|split; assumption].
    eexists. split.
    + rewrite Ht3, Htd, Hta. unfold wc. cbn [trace set_trace].
      rewrite <- !app_assoc. reflexivity.
    + unfold shutdownEvents. rewrite ?in_app_iff. simpl. tauto.
  - intros H. inversion H; subst e0 wa. left.
    destruct (async_abort_throw h e wc) as [Hne Hrel]; [now rewrite Ha|].
    split; [exact Hne|]. split; [exact Hrel|].
    exists (ECount "spotTermination" 1 :: ea). split.
    + rewrite Hta. unfold wc. cbn [trace set_trace]. now rewrite <- app_assoc.
    + constructor; [discriminate|].
      eapply Forall_impl; [exact before_exit_not_shutdown|exact Hqa].
Qed.

Lemma async_gracefulExit_throw (h : Host) (during after : list Step) (e : string)
    (w1 w2 : TaskListener) :
  Async.gracefulExit h during after w1 = (Throw e, w2) ->
  hostShutdown (runtime h) = Throw e
  /\ (exists evs, trace w2 = trace w1 ++ evs /\ In EHostShutdown evs)
  /\ paused w2 = true /\ capacity w2 = 0.
Proof.
  unfold Async.gracefulExit. unfold bind at 1, modify at 1.
  unfold bind at 1, isIdle, bind at 1, gets, ret.
  destruct (Nat.eqb _ 0); [|unfold bind; discriminate].
  destruct (async_shutdown_run h during after (set_capacity 0 w1))
    as (meanwhile & later & w3 & Hs & Ht3 & _ & _ & Hp & Hc).
  unfold bind. rewrite Hs.
  destruct (hostShutdown (runtime h)) as [[]|e1]; [discriminate|].
  intros H. inversion H; subst e1 w3.
  split; [reflexivity|]. split; [|split; assumption].
  eexists. split; [exact Ht3|].
  unfold shutdownEvents. rewrite ?in_app_iff. simpl. tauto.
Qed.

Lemma async_poll_report_throw (h : Host) (got : Res unit) (sched : list (list Step))
    (during after : list Step) (w : TaskListener) (e : string) :
  reportAnswer h w = Throw e ->
  Async.taskPoll_rest h got sched during after w = (Throw e, atSwitch got w).
Proof.
  unfold reportAnswer. intros Hrep.
  unfold Async.taskPoll_rest, atSwitch, reportEvents.
  unfold bind at 1.
  destruct got as [[]|e0]; unfold ret, log, emit, modify;
    unfold bind at 1, isIdle, bind at 1, gets, ret;
    cbn [runningTasks set_trace]; unfold bind at 1;
    destruct (Nat.eqb (length (runningTasks w)) 0);
    unfold call, bind, emit, modify; rewrite Hrep; cbn [fst snd];
    f_equal; same_state.
Qed.

(** X3. What escapes the poll cycle once [getTasks] has settled.  An error
    of [onIdle()] or [onWorking()] escapes at once, and so does an error
    of [shouldExit()], nothing more having been done.  Apart from these,
    [taskPoll] throws only what a [release()] throws in the abort loop of
    an immediate exit, in which case the host is not shut down in this
    cycle, or what the host's [shutdown()] throws once it has been called,
    the listener being then paused with capacity 0.  The error of
    [getTasks], the errors of the handlers' aborts and those of the steps
    other activities take meanwhile never escape. *)
Theorem poll_error_sources (h : Host) (got : Res unit) (sched : list (list Step))
    (during after : list Step) (w : TaskListener) :
  let poll := Async.taskPoll_rest h got sched during after in
  let w' := exec poll w in
  (forall e, reportAnswer h w = Throw e -> poll w = (Throw e, atSwitch got w))
  /\ (forall e, reportAnswer h w = Ret tt -> exitRequest h = Throw e ->
        poll w = (Throw e, atSwitch got w))
  /\ (forall e, result poll w = Throw e ->
        reportAnswer h w = Throw e
        \/ exitRequest h = Throw e
        \/ (exitRequest h = Ret "immediate"
            /\ runningTasks w <> []
            /\ (exists t d, release h t d = Throw e)
            /\ ~ In EHostShutdown (events_since w w'))
        \/ (hostShutdown (runtime h) = Throw e
            /\ In EHostShutdown (events_since w w')
            /\ paused w' = true /\ capacity w' = 0)).
Proof.
  cbv zeta.
  split; [intros e; apply async_poll_report_throw|].
  split.
  { intros e Hrep Hexit. rewrite (async_poll_switch h got sched during after w Hrep).
    now rewrite Hexit. }
  intros e. unfold result, exec.
  destruct (reportAnswer h w) as [[]|e0] eqn:Hrep.
  2:{ rewrite (async_poll_report_throw h got sched during after w e0 Hrep).
      cbn [fst]. intros H. inversion H. now left. }
  rewrite (async_poll_switch h got sched during after w Hrep).
  assert (Hw1 : trace (atSwitch got w) = trace w ++ reportEvents got w) by reflexivity.
  pose proof (reportEvents_before_exit got w) as Hb0.
  destruct (exitRequest h) as [exit|e1].
  2:{ cbn [fst]. intros H. inversion H. right. now left. }
  destruct (String.eqb_spec exit "immediate") as [->|_].
  - destruct (Async.immediateExit h sched during after (atSwitch got w))
      as [r w2] eqn:Hrun. cbn [fst snd]. intros ->.
    destruct (async_immediateExit_throw h sched during after e _ _ Hrun)
      as [(Hne & Hrel & evs & Ht & Hq)|(Hh & (evs & Ht & Hin) & Hp & Hc)].
    + right. right. left. split; [reflexivity|]. split; [exact Hne|].
      split; [exact Hrel|].
      rewrite (events_since_trans w (atSwitch got w) w2 _ evs Hw1 Ht).
      apply not_shutdown_In. apply Forall_app. split; [|exact Hq].
      eapply Forall_impl; [exact before_exit_not_shutdown|exact Hb0].
    + right. right. right. split; [exact Hh|]. split; [|split; assumption].
      rewrite (events_since_trans w (atSwitch got w) w2 _ evs Hw1 Ht).
      apply in_or_app. now right.
  - destruct (String.eqb exit "graceful"); [|cbn [fst]; discriminate].
    destruct (Async.gracefulExit h during after (atSwitch got w))
      as [r w2] eqn:Hrun. cbn [fst snd]. intros ->.
    destruct (async_gracefulExit_throw h during after e _ _ Hrun)
      as (Hh & (evs & Ht & Hin) & Hp & Hc).
    right. right. right. split; [exact Hh|]. split; [|split; assumption].
    rewrite (events_since_trans w (atSwitch got w) w2 _ evs Hw1 Ht).
    apply in_or_app. now right.
Qed.

(** X3 where the host is unreachable: [getTasks] has thrown, which is only
    recorded; the graceful exit of the idle listener calls the host's
    [shutdown()], whose error escapes. *)
Lemma poll_error_sources_witness :
  let h := hostOf rtHostDown in
  let w := constructor 1 false 0 in
  let poll := Async.taskPoll_rest h (Throw "Error: queue down") [] [] [] in
  result poll w = Throw "Error: host unreachable"
  /\ In EHostShutdown (events_since w (exec poll w))
  /\ paused (exec poll w) = true /\ capacity (exec poll w) = 0.
Proof.
  cbv zeta.
  assert (Hthrow : result (Async.taskPoll_rest (hostOf rtHostDown)
                             (Throw "Error: queue down") [] [] [])
                     (constructor 1 false 0)
                   = Throw "Error: host unreachable") by (vm_compute; reflexivity).
  split; [exact Hthrow|].
  destruct (poll_error_sources (hostOf rtHostDown) (Throw "Error: queue down") [] [] []
              (constructor 1 false 0)) as (_ & _ & Hsrc).
  destruct (Hsrc _ Hthrow) as [H|[H|[(H & _)|(_ & Hin & Hp & Hc)]]];
    try discriminate H.
  auto.
Defined.

(** ** Graceful exit *)

Lemma other_calm (e : Event) : other_only e -> calm e.
Proof.
  unfold other_only, calm. destruct e; simpl; intros H; auto; discriminate.
Qed.

Lemma calm_count (evs : list Event) :
  Forall calm evs -> countOf "spotTermination" evs = 0.
Proof.
  induction 1 as [|e evs He _ IH]; simpl; [reflexivity|].
  destruct e; auto.
  unfold calm in He. simpl in He. apply negb_true_iff in He.
  rewrite He. exact IH.
Qed.

Lemma calm_no_abort (evs : list Event) (hd : Task) (reason : string) :
  Forall calm evs -> ~ In (EAbort hd reason) evs.
Proof.
  intros H Hin. rewrite Forall_forall in H. specialize (H _ Hin). discriminate.
Qed.

Lemma calm_no_sleep (evs : list Event) (ms : Z) :
  Forall calm evs -> ~ In (ESleep ms) evs.
Proof.
  intros H Hin. rewrite Forall_forall in H. specialize (H _ Hin). discriminate.
Qed.

Lemma reportEvents_calm (got : Res unit) (w : TaskListener) :
  Forall calm (reportEvents got w).
Proof.
  unfold reportEvents. apply Forall_app. split.
  - destruct got; repeat constructor.
  - destruct (Nat.eqb _ 0); repeat constructor.
Qed.

Lemma async_gracefulExit_run (h : Host) (during after : list Step)
    (w1 : TaskListener) :
  let run := Async.gracefulExit h during after w1 in
  (runningTasks w1 <> [] -> run = (Ret Returned, set_capacity 0 w1))
  /\ (runningTasks w1 = [] ->
        exists meanwhile later,
          trace (snd run) = trace w1 ++ meanwhile ++ shutdownEvents ++ later
          /\ Forall other_only meanwhile /\ Forall other_only later
          /\ paused (snd run) = true /\ capacity (snd run) = 0
          /\ fst run = match hostShutdown (runtime h) with
                       | Ret _ => Ret Returned
                       | Throw e => Throw e
                       end).
Proof.
  cbv zeta.
  assert (Hrun : Async.gracefulExit h during after w1
                 = if Nat.eqb (length (runningTasks w1)) 0
                   then (match fst (Async.shutdown h during after (set_capacity 0 w1)) with
                         | Ret _ => Ret Returned
                         | Throw e => Throw e
                         end,
                         snd (Async.shutdown h during after (set_capacity 0 w1)))
                   else (Ret Returned, set_capacity 0 w1)).
  { unfold Async.gracefulExit, isIdle, bind, gets, ret, modify.
    change (runningTasks (set_capacity 0 w1)) with (runningTasks w1).
    destruct (Nat.eqb (length (runningTasks w1)) 0); [|reflexivity].
    destruct (Async.shutdown h during after (set_capacity 0 w1)) as [[[]|e] w2];
      reflexivity. }
  rewrite Hrun. clear Hrun.
  destruct (runningTasks w1) as [|st rts] eqn:Hrts; cbn [length Nat.eqb].
  - split; [congruence|]. intros _.
    destruct (async_shutdown_run h during after (set_capacity 0 w1))
      as (meanwhile & later & w3 & Hs & Ht3 & Hq1 & Hq2 & Hp & Hc).
    exists meanwhile, later. rewrite Hs. cbn [fst snd].
    destruct (hostShutdown (runtime h)) as [[]|e]; auto 10.
  - split; [|discriminate]. intros _. reflexivity.
Qed.

(** X4. A graceful exit, from the point where [getTasks] has settled, the
    report to the shutdown manager having returned.  The capacity is set
    to zero; no handler is aborted, the spotTermination counter is not
    touched and nothing is waited for.  When the registry is occupied at
    the switch nothing else happens: the cycle returns with the registry
    and the pause flag as they were.  When it is empty the listener is
    paused and, after the steps other activities take during
    [await this.pause()], the shutdown sequence ends in the host's
    [shutdown()]: the host is shut down in this cycle exactly when the
    registry is empty at the switch. *)
Theorem graceful_exit (h : Host) (got : Res unit) (sched : list (list Step))
    (during after : list Step) (w : TaskListener) :
  exitRequest h = Ret "graceful" ->
  reportAnswer h w = Ret tt ->
  let poll := Async.taskPoll_rest h got sched during after in
  let w1 := atSwitch got w in
  let w' := exec poll w in
  capacity w' = 0
  /\ (forall hd reason, ~ In (EAbort hd reason) (events_since w w'))
  /\ countOf "spotTermination" (events_since w w') = 0
  /\ (forall ms, ~ In (ESleep ms) (events_since w w'))
  /\ (In EHostShutdown (events_since w w') <-> runningTasks w = [])
  /\ (runningTasks w <> [] -> poll w = (Ret Returned, set_capacity 0 w1))
  /\ (runningTasks w = [] ->
        exists meanwhile later,
          events_since w1 w' = meanwhile ++ shutdownEvents ++ later
          /\ Forall other_only meanwhile /\ Forall other_only later
          /\ paused w' = true
          /\ result poll w = match hostShutdown (runtime h) with
                             | Ret _ => Ret Returned
                             | Throw e => Throw e
                             end).
Proof.
  intros Hexit Hrep. cbv zeta. unfold exec, result.
  rewrite (async_poll_switch h got sched during after w Hrep), Hexit.
  cbn [String.eqb Ascii.eqb Bool.eqb].
  set (w1 := atSwitch got w).
  assert (Hw1 : trace w1 = trace w ++ reportEvents got w) by reflexivity.
  pose proof (reportEvents_calm got w) as Hc0.
  pose proof (reportEvents_before_exit got w) as Hb0.
  destruct (async_gracefulExit_run h during after w1) as [Hbusy Hidle].
  change (runningTasks w1) with (runningTasks w) in Hbusy, Hidle.
  destruct (runningTasks w) as [|st rts] eqn:Hrts.
  - destruct (Hidle eq_refl) as (meanwhile & later & Ht & Hq1 & Hq2 & Hp & Hc & Hr).
    assert (Hall : events_since w (snd (Async.gracefulExit h during after w1))
                   = reportEvents got w ++ meanwhile ++ shutdownEvents ++ later).
    { apply events_since_app. rewrite Ht, Hw1. now rewrite <- !app_assoc. }
    assert (Hcalm : Forall calm (reportEvents got w ++ meanwhile ++ shutdownEvents ++ later)).
    { apply Forall_app. split; [exact Hc0|].
      apply Forall_app. split; [eapply Forall_impl; [exact other_calm|exact Hq1]|].
      apply Forall_app. split; [repeat constructor|].
      eapply Forall_impl; [exact other_calm|exact Hq2]. }
    rewrite Hall.
    split; [exact Hc|].
    split; [intros hd reason; now apply calm_no_abort|].
    split; [now apply calm_count|].
    split; [intros ms; now apply calm_no_sleep|].
    split.
    { split; [reflexivity|]. intros _. rewrite !in_app_iff.
      unfold shutdownEvents. simpl. tauto. }
    split; [intros Hne; now contradiction Hne|].
    intros _. exists meanwhile, later.
    split; [now apply events_since_app|]. auto.
  - rewrite (Hbusy ltac:(discriminate)). cbn [fst snd].
    assert (Hall : events_since w (set_capacity 0 w1) = reportEvents got w).
    { apply events_since_app. exact Hw1. }
    rewrite Hall.
    split; [reflexivity|].
    split; [intros hd reason; now apply calm_no_abort|].
    split; [now apply calm_count|].
    split; [intros ms; now apply calm_no_sleep|].
    split.
    { split; [|discriminate]. intros Hin. exfalso.
      exact (before_exit_no_shutdown _ Hb0 Hin). }
    split; [reflexivity|discriminate].
Qed.

(** X4 on an idle listener whose poll has just launched the runner of A,
    suspended at its lease: the registry is empty at the switch, the
    runner is admitted while [shutdown] is suspended, and the host is shut
    down with A registered. *)
Lemma graceful_exit_witness :
  let h := hostOf rtS6 in
  let w := constructor 1 false 0 in
  let poll := Async.taskPoll_rest h (Ret tt) [] duringS7 [] in
  (exitRequest h = Ret "graceful" /\ reportAnswer h w = Ret tt)
  /\ capacity (exec poll w) = 0
  /\ In EHostShutdown (events_since w (exec poll w))
  /\ length (runningTasks (exec poll w)) = 1%nat.
Proof.
  cbv zeta.
  destruct (graceful_exit (hostOf rtS6) (Ret tt) [] duringS7 [] (constructor 1 false 0)
              eq_refl eq_refl)
    as (Hc & _ & _ & _ & Hiff & _).
  split; [split; reflexivity|].
  split; [exact Hc|].
  split; [apply Hiff; reflexivity|].
  vm_compute. reflexivity.
Defined.

(** ** The report to the shutdown manager *)

Lemma other_not_report (e : Event) : other_only e -> not_report e.
Proof.
  unfold other_only, not_report. destruct e; simpl; intros H; auto; discriminate.
Qed.

Lemma async_exits_not_report (h : Host) (sched : list (list Step))
    (during after : list Step) :
  emits not_report (Async.immediateExit h sched during after)
  /\ emits not_report (Async.gracefulExit h during after).
Proof.
  assert (Hyield : forall steps, emits not_report (Async.yield h steps)).
  { intros steps. exact (emits_weaken _ _ _ other_not_report (async_yield_emits h steps)). }
  assert (Hshut : emits not_report (Async.shutdown h during after)).
  { unfold Async.shutdown, pause, log, logEvent. emits_auto. }
  assert (Hdrain : emits not_report (Async.drain h sched)).
  { induction sched as [|round sched IH]; cbn [Async.drain]; unfold isIdle;
      emits_auto. }
  split.
  - unfold Async.immediateExit, Async.abortRunningTasks, abortHandler, debug, count,
      Async.cleanupRunningState.
    emits_auto.
  - unfold Async.gracefulExit, isIdle. emits_auto.
Qed.

(** The events of [taskPoll] from the point where [getTasks] has settled:
    the record of its error, the report, and then no other report. *)
Lemma async_poll_events (h : Host) (got : Res unit) (sched : list (list Step))
    (during after : list Step) (w : TaskListener) :
  exists rest,
    trace (snd (Async.taskPoll_rest h got sched during after w))
    = trace w ++ reportEvents got w ++ rest
    /\ Forall not_report rest.
Proof.
  assert (Hw1 : trace (atSwitch got w) = trace w ++ reportEvents got w) by reflexivity.
  destruct (async_exits_not_report h sched during after) as [Him Hgr].
  assert (Hstop : forall (r : Res PollEnd), exists rest,
            trace (snd (r, atSwitch got w)) = trace w ++ reportEvents got w ++ rest
            /\ Forall not_report rest).
  { intros r. exists []. rewrite app_nil_r. split; [exact Hw1|constructor]. }
  assert (Hrest : forall (m : M PollEnd), emits not_report m ->
            exists rest,
              trace (snd (m (atSwitch got w))) = trace w ++ reportEvents got w ++ rest
              /\ Forall not_report rest).
  { intros m Hm. destruct (Hm (atSwitch got w)) as (evs & Ht & Hq).
    exists evs. split; [rewrite Ht, Hw1; now rewrite app_assoc|exact Hq]. }
  destruct (reportAnswer h w) as [[]|e0] eqn:Hans.
  2:{ rewrite (async_poll_report_throw h got sched during after w e0 Hans).
      apply Hstop. }
  rewrite (async_poll_switch h got sched during after w Hans).
  destruct (exitRequest h) as [exit|e1]; [|apply Hstop].
  destruct (String.eqb exit "immediate"); [now apply Hrest|].
  destruct (String.eqb exit "graceful"); [now apply Hrest|].
  apply Hstop.
Qed.

(** X6. Every poll cycle reports to the shutdown manager exactly once,
    whatever [getTasks] has answered and whatever the report, the exit
    switch and the other activities do afterwards: [onIdle()] when the
    registry is empty at the point where [await this.getTasks()] has
    settled, [onWorking()] otherwise. *)
Theorem poll_reports_once (h : Host) (got : Res unit) (sched : list (list Step))
    (during after : list Step) (w : TaskListener) :
  reports (events_since w (exec (Async.taskPoll_rest h got sched during after) w))
  = [Nat.eqb (length (runningTasks w)) 0].
Proof.
  destruct (async_poll_events h got sched during after w) as (rest & Ht & Hq).
  unfold exec. rewrite (events_since_app _ _ _ Ht).
  rewrite !reports_app, (reports_none rest Hq), app_nil_r.
  unfold reportEvents. rewrite reports_app.
  destruct got; destruct (Nat.eqb _ 0); reflexivity.
Qed.

(** ** Invariants along the activities *)

Lemma perform_all_preserves (I : TaskListener -> Prop)
    (acts : list Activity) (w : TaskListener) :
  kept_by_writes I -> I w -> I (perform_all acts w).
Proof.
  intros Hkept. revert w. induction acts as [|a acts IH]; intros w H; [exact H|].
  cbn [perform_all]. apply IH.
  destruct a as [h got sched during after|h claims|h s]; cbn [perform]; unfold exec.
  - now apply preserves_async_taskPoll.
  - now apply (preserves_async_launch I (proj1 Hkept)).
  - now apply (preserves_async_step I (proj1 Hkept)).
Qed.

Lemma async_cancel_throw (h : Host) (message : Message) (r : Run) (e : string)
    (w : TaskListener) :
  handlers_set w ->
  index (m_runs message) (m_runId message) = Some r ->
  fst (Async.cancelTask h message w) = Throw e ->
  (exists t hd, cancel h t hd = Throw e) \/ (exists t d, release h t d = Throw e).
Proof.
  intros Hset Hidx. unfold Async.cancelTask. rewrite Hidx.
  destruct (negb (is_canceled (reasonResolved r))); [discriminate|].
  unfold bind at 1, gets at 1.
  destruct (find_by_handler_total (m_taskId message) (m_runId message) _ Hset)
    as (found & Hf).
  rewrite Hf. destruct found as [[state hd]|]; [|discriminate].
  unfold bind at 1, log at 1, emit at 1, modify at 1.
  unfold bind at 1, gets at 1.
  unfold bind at 1, call, bind at 1, emit at 1, modify at 1.
  cbn [trace set_trace fst snd].
  destruct (cancel h _ hd) as [[]|e0] eqn:Hc; cbn [fst snd].
  - intros H. right. exact (async_cleanup_throw h (Some state) e _ H).
  - intros H. inversion H; subst e0. left. eauto.
Qed.

(** X10. Every state in the registry has its handler.  The runner gives a
    state its handler before it admits it, so that, starting from a
    registry whose states all have one, along any sequence of poll cycles,
    launches and steps of runners and cancellations, whatever the
    collaborators answer: every registered
    state has a handler; [cancelTask], for a message whose referenced run
    exists, throws only what [handler.cancel()] or a [release()] throws;
    and the abort loop of an immediate exit, when no [release()] throws,
    calls [abort("worker-shutdown")] on the handler of every entry. *)
Theorem handlers_stay_set (h : Host) (acts : list Activity) (w : TaskListener) :
  handlers_set w ->
  let w' := perform_all acts w in
  (forall st, In st (runningTasks w') -> exists hd, handler st = Some hd)
  /\ (forall message r e,
        index (m_runs message) (m_runId message) = Some r ->
        result (Async.cancelTask h message) w' = Throw e ->
        (exists t hd, cancel h t hd = Throw e)
        \/ (exists t d, release h t d = Throw e))
  /\ (releases_return h ->
      forall st, In st (runningTasks w') ->
        exists hd, handler st = Some hd
                   /\ In (EAbort hd "worker-shutdown")
                        (events_since w' (exec (Async.abortRunningTasks h) w'))).
Proof.
  intros Hset. cbv zeta.
  pose proof (perform_all_preserves _ acts w handlers_kept Hset) as Hw'.
  set (w' := perform_all acts w) in *.
  assert (Hall : forall st, In st (runningTasks w') -> exists hd, handler st = Some hd).
  { intros st Hin. unfold handlers_set in Hw'. rewrite Forall_forall in Hw'.
    specialize (Hw' st Hin). destruct (handler st) as [hd|]; [eauto|contradiction]. }
  split; [exact Hall|].
  split; [intros message r e Hidx; now apply async_cancel_throw with (r := r)|].
  intros Hrel st Hin. destruct (Hall st Hin) as [hd Hh].
  exists hd. split; [exact Hh|].
  unfold exec. rewrite (async_abort_run h w' Hrel). cbn [snd].
  rewrite (events_since_app w' _ (abort_events h (runningTasks w'))) by reflexivity.
  now apply (abort_events_each h _ st hd).
Qed.

(** X10 at S7: after the runner of A has been admitted next to X, both
    have their handlers, and the abort loop aborts both. *)
Lemma handlers_stay_set_witness :
  let h := hostOf rtS5 in
  let w' := perform_all [DoStep h (SResume leasingA (Ret tt))] wS7 in
  handlers_set wS7
  /\ length (runningTasks w') = 2%nat
  /\ (forall st, In st (runningTasks w') -> exists hd, handler st = Some hd)
  /\ length (filter (fun e => match e with EAbort _ _ => true | _ => false end)
               (events_since w' (exec (Async.abortRunningTasks h) w'))) = 2%nat.
Proof.
  cbv zeta.
  assert (Hset : handlers_set wS7).
  { unfold handlers_set, wS7. cbn. repeat constructor; discriminate. }
  destruct (handlers_stay_set (hostOf rtS5)
              [DoStep (hostOf rtS5) (SResume leasingA (Ret tt))] wS7 Hset)
    as (Hall & _ & _).
  split; [exact Hset|]. split; [vm_compute; reflexivity|].
  split; [exact Hall|vm_compute; reflexivity].
Defined.

(** ** The poll timer *)

(** The host's [shutdown()] is called only by [shutdown], which has
    paused the listener before. *)
Lemma async_exits_shutdown (h : Host) (sched : list (list Step))
    (during after : list Step) (w1 : TaskListener) :
  (exists evs,
     trace (snd (Async.immediateExit h sched during after w1)) = trace w1 ++ evs
     /\ (In EHostShutdown evs ->
           paused (snd (Async.immediateExit h sched during after w1)) = true
           /\ fst (Async.immediateExit h sched during after w1) <> Ret StillWaiting))
  /\ (exists evs,
        trace (snd (Async.gracefulExit h during after w1)) = trace w1 ++ evs
        /\ (In EHostShutdown evs ->
              paused (snd (Async.gracefulExit h during after w1)) = true
              /\ fst (Async.gracefulExit h during after w1) <> Ret StillWaiting)).
Proof.
  split.
  - destruct (Async.immediateExit h sched during after w1) as [r w2] eqn:Hrun.
    cbn [fst snd].
    unfold Async.immediateExit in Hrun. unfold bind at 1, count, emit, modify in Hrun.
    set (wc := set_trace (trace w1 ++ [ECount "spotTermination" 1]) w1) in Hrun.
    unfold bind at 1 in Hrun.
    destruct (async_abort_emits h wc) as (ea & Hta & Hqa).
    destruct (Async.abortRunningTasks h wc) as [[[]|e0] wa] eqn:Ha; cbn [snd] in Hta.
    + unfold bind at 1 in Hrun.
      destruct (async_drain_run h sched wa) as (b & rounds & wd & Hd & Htd & Hq & _).
      rewrite Hd in Hrun. destruct b.
      * destruct (async_shutdown_run h during after wd)
          as (meanwhile & later & w3 & Hs & Ht3 & _ & _ & Hp & Hc).
        unfold bind, ret in Hrun. rewrite Hs in Hrun.
        eexists. split.
        -- assert (Hw : w2 = w3)
             by (destruct (hostShutdown (runtime h)) as [[]|e1]; now inversion Hrun).
           rewrite Hw, Ht3, Htd, Hta. unfold wc. cbn [trace set_trace].
           rewrite <- !app_assoc. reflexivity.
        -- intros _. destruct (hostShutdown (runtime h)) as [[]|e1];
             inversion Hrun; subst; split; auto; discriminate.
      * unfold ret in Hrun. inversion Hrun; subst r w2.
        exists (ECount "spotTermination" 1 :: ea ++ wait_events rounds). split.
        -- rewrite Htd, Hta. unfold wc. cbn [trace set_trace].
           rewrite <- !app_assoc. reflexivity.
        -- intros Hin. exfalso. destruct Hin as [Hin|Hin]; [discriminate|].
           apply in_app_or in Hin. destruct Hin as [Hin|Hin].
           ++ exact (before_exit_no_shutdown _ Hqa Hin).
           ++ exact (before_exit_no_shutdown _ (wait_events_before_exit _ Hq) Hin).
    + inversion Hrun; subst r w2.
      exists (ECount "spotTermination" 1 :: ea). split.
      * rewrite Hta. unfold wc. cbn [trace set_trace]. now rewrite <- app_assoc.
      * intros Hin. exfalso. destruct Hin as [Hin|Hin]; [discriminate|].
        exact (before_exit_no_shutdown _ Hqa Hin).
  - destruct (async_gracefulExit_run h during after w1) as [Hbusy Hidle].
    destruct (runningTasks w1) as [|st rts] eqn:Hrts.
    + destruct (Hidle eq_refl) as (meanwhile & later & Ht & _ & _ & Hp & _ & Hr).
      eexists. split; [exact Ht|]. intros _. split; [exact Hp|].
      rewrite Hr. destruct (hostShutdown (runtime h)); discriminate.
    + rewrite (Hbusy ltac:(discriminate)). cbn [fst snd].
      exists []. split; [now rewrite app_nil_r|]. intros [].
Qed.

Lemma async_poll_shutdown (h : Host) (got : Res unit) (sched : list (list Step))
    (during after : list Step) (w : TaskListener) :
  let run := Async.taskPoll_rest h got sched during after w in
  exists evs,
    trace (snd run) = trace w ++ evs
    /\ (In EHostShutdown evs -> paused (snd run) = true /\ fst run <> Ret StillWaiting).
Proof.
  cbv zeta.
  assert (Hw1 : trace (atSwitch got w) = trace w ++ reportEvents got w) by reflexivity.
  pose proof (reportEvents_before_exit got w) as Hb0.
  assert (Hstop : forall r, exists evs,
            trace (snd (r, atSwitch got w)) = trace w ++ evs
            /\ (In EHostShutdown evs ->
                  paused (snd (r, atSwitch got w)) = true
                  /\ fst (r, atSwitch got w) <> Ret StillWaiting)).
  { intros r. exists (reportEvents got w). split; [exact Hw1|].
    intros Hin. exfalso. exact (before_exit_no_shutdown _ Hb0 Hin). }
  assert (Hgo : forall (m : M PollEnd),
            (exists evs,
               trace (snd (m (atSwitch got w))) = trace (atSwitch got w) ++ evs
               /\ (In EHostShutdown evs ->
                     paused (snd (m (atSwitch got w))) = true
                     /\ fst (m (atSwitch got w)) <> Ret StillWaiting)) ->
            exists evs,
              trace (snd (m (atSwitch got w))) = trace w ++ evs
              /\ (In EHostShutdown evs ->
                    paused (snd (m (atSwitch got w))) = true
                    /\ fst (m (atSwitch got w)) <> Ret StillWaiting)).
  { intros m (evs & Ht & Hin). exists (reportEvents got w ++ evs). split.
    - rewrite Ht, Hw1. now rewrite app_assoc.
    - intros H. apply in_app_or in H. destruct H as [H|H]; [|auto].
      exfalso. exact (before_exit_no_shutdown _ Hb0 H). }
  destruct (reportAnswer h w) as [[]|e0] eqn:Hans.
  2:{ rewrite (async_poll_report_throw h got sched during after w e0 Hans).
      apply Hstop. }
  rewrite (async_poll_switch h got sched during after w Hans).
  destruct (async_exits_shutdown h sched during after (atSwitch got w)) as [Him Hgr].
  destruct (exitRequest h) as [exit|e1]; [|apply Hstop].
  destruct (String.eqb exit "immediate"); [now apply Hgo|].
  destruct (String.eqb exit "graceful"); [now apply Hgo|].
  apply Hstop.
Qed.

Lemma async_pollTimeout_eq (h : Host) (got : Res unit) (sched : list (list Step))
    (during after settled handled : list Step) (w : TaskListener) :
  Async.pollTimeout_rest h got sched during after settled handled w
  = let run := Async.taskPoll_rest h got sched during after w in
    match fst run with
    | Ret StillWaiting => (Ret None, snd run)
    | r =>
        (Async.yield h settled ;;
         match r with
         | Throw err => log "error polling tasks" [("message", VStr err)]
         | Ret _ => ret tt
         end ;;
         Async.yield h handled ;;
         armed <- scheduleTaskPoll ;;
         ret (Some armed)) (snd run)
    end.
Proof.
  unfold Async.pollTimeout_rest. unfold bind at 1, attempt. cbv zeta.
  destruct (Async.taskPoll_rest h got sched during after w) as [[[]|e] w1];
    reflexivity.
Qed.

(** X12. The callback of the poll timer, from the point where [getTasks]
    has settled.  It never throws.  While [taskPoll] has not settled (the
    wait loop still waiting) nothing is armed or logged.  Once it has, an
    error it has thrown is logged as "error polling tasks", and the next
    timer is armed exactly when the listener is not paused at that point,
    whatever the other activities have done meanwhile; after a cycle that
    has called the host's [shutdown()] no timer is armed. *)
Theorem pollTimeout_rearms (h : Host) (got : Res unit) (sched : list (list Step))
    (during after settled handled : list Step) (w : TaskListener) :
  let poll := Async.taskPoll_rest h got sched during after in
  let callback := Async.pollTimeout_rest h got sched during after settled handled in
  let w' := exec callback w in
  (exists r, result callback w = Ret r)
  /\ (result poll w = Ret StillWaiting ->
        callback w = (Ret None, exec poll w))
  /\ (result poll w <> Ret StillWaiting ->
        result callback w = Ret (Some (negb (paused w')))
        /\ paused w' = paused (exec poll w))
  /\ (forall e, result poll w = Throw e ->
        In (ELog "error polling tasks" [("message", VStr e)])
          (events_since (exec poll w) w'))
  /\ (In EHostShutdown (events_since w w') -> result callback w = Ret (Some false)).
Proof.
  cbv zeta.
  destruct (async_poll_shutdown h got sched during after w) as (ep & Htp & Hshut).
  cbv zeta in Hshut.
  unfold result, exec in *. rewrite async_pollTimeout_eq. cbv zeta.
  destruct (Async.taskPoll_rest h got sched during after w) as [r w1] eqn:Hpoll.
  cbn [fst snd] in *.
  destruct (async_yield_run h settled w1) as (w2 & e2 & Hy2 & Ht2 & Hq2).
  assert (Hp2 : paused w2 = paused w1).
  { pose proof (preserves_async_yield _ (paused_kept (paused w1)) h settled w1 eq_refl)
      as H. now rewrite Hy2 in H. }
  assert (Hsched : forall w0, scheduleTaskPoll w0 = (Ret (negb (paused w0)), w0)).
  { intros w0. unfold scheduleTaskPoll, bind, gets, ret. now destruct (paused w0). }
  assert (Hrest : forall (m : M unit) el,
            (forall w0, m w0 = (Ret tt, set_trace (trace w0 ++ el) w0)) ->
            exists w3 e3,
              (yield_settled <- Async.yield h settled ;;
               m ;; Async.yield h handled ;;
               armed <- scheduleTaskPoll ;; ret (Some armed)) w1
              = (Ret (Some (negb (paused w3))), w3)
              /\ paused w3 = paused w1
              /\ trace w3 = trace w1 ++ e2 ++ el ++ e3
              /\ Forall other_only e3).
  { intros m el Hm.
    destruct (async_yield_run h handled (set_trace (trace w2 ++ el) w2))
      as (w3 & e3 & Hy3 & Ht3 & Hq3).
    assert (Hp3 : paused w3 = paused w1).
    { pose proof (preserves_async_yield _ (paused_kept (paused w1)) h handled
                    (set_trace (trace w2 ++ el) w2)) as H.
      rewrite Hy3 in H. apply H. exact Hp2. }
    exists w3, e3. unfold bind. rewrite Hy2, Hm, Hy3, Hsched. unfold ret.
    split; [reflexivity|]. split; [exact Hp3|]. split; [|exact Hq3].
    rewrite Ht3. cbn [trace set_trace]. rewrite Ht2. now rewrite <- !app_assoc. }
  destruct r as [[]|e].
  - (* returned *)
    destruct (Hrest (ret tt) []) as (w3 & e3 & Hrun & Hp3 & Ht3 & Hq3).
    { intros w0. unfold ret. now rewrite app_nil_r, set_trace_id. }
    rewrite Hrun. cbn [fst snd].
    split; [eauto|]. split; [discriminate|].
    split; [intros _; split; [reflexivity|exact Hp3]|].
    split; [discriminate|].
    intros Hin.
    rewrite (events_since_trans w w1 w3 ep _ Htp Ht3) in Hin.
    assert (Hin' : In EHostShutdown ep).
    { apply in_app_or in Hin. destruct Hin as [Hin|Hin]; [exact Hin|].
      exfalso. cbn [app] in Hin. apply in_app_or in Hin. destruct Hin as [Hin|Hin].
      - exact (before_exit_no_shutdown _
                 (Forall_impl _ other_before_exit Hq2) Hin).
      - exact (before_exit_no_shutdown _
                 (Forall_impl _ other_before_exit Hq3) Hin). }
    destruct (Hshut Hin') as [Hp _]. now rewrite Hp3, Hp.
  - (* still waiting *)
    cbn [fst snd]. unfold ret.
    split; [eauto|]. split; [reflexivity|].
    split; [intros H; now contradiction H|].
    split; [discriminate|].
    intros Hin. rewrite (events_since_app _ _ _ Htp) in Hin.
    destruct (Hshut Hin) as [_ Hne]. now contradiction Hne.
  - (* thrown *)
    destruct (Hrest (log "error polling tasks" [("message", VStr e)])
                [ELog "error polling tasks" [("message", VStr e)]])
      as (w3 & e3 & Hrun & Hp3 & Ht3 & Hq3).
    { intros w0. reflexivity. }
    rewrite Hrun. cbn [fst snd].
    split; [eauto|]. split; [discriminate|].
    split; [intros _; split; [reflexivity|exact Hp3]|].
    split.
    { intros e' He. inversion He; subst e'.
      rewrite (events_since_app _ _ _ Ht3). rewrite !in_app_iff. simpl. tauto. }
    intros Hin.
    rewrite (events_since_trans w w1 w3 ep _ Htp Ht3) in Hin.
    assert (Hin' : In EHostShutdown ep).
    { apply in_app_or in Hin. destruct Hin as [Hin|Hin]; [exact Hin|].
      exfalso. apply in_app_or in Hin. destruct Hin as [Hin|Hin].
      - exact (before_exit_no_shutdown _
                 (Forall_impl _ other_before_exit Hq2) Hin).
      - destruct Hin as [Hin|Hin]; [discriminate|].
        exact (before_exit_no_shutdown _
                 (Forall_impl _ other_before_exit Hq3) Hin). }
    destruct (Hshut Hin') as [Hp _]. now rewrite Hp3, Hp.
Qed.

(** ** A failing gate *)

Lemma getTasks_gate_fails (rt : Runtime) (w : TaskListener) (e : string) :
  admissible rt w <> 0 -> gate_fails rt w e ->
  result (getTasks rt) w = Throw e.
Proof.
  intros Hv Hgate. unfold gate_fails in Hgate. cbv zeta in Hgate.
  unfold result.
  destruct (getTasks rt w) as [r w'] eqn:Hrun. cbn [fst].
  unfold getTasks in Hrun. unfold bind at 1 in Hrun.
  rewrite availableCapacity_run in Hrun.
  destruct (Z.eqb_spec (admissible rt w) 0) as [E|_]; [contradiction|].
  unfold bind at 1, gets at 1 in Hrun.
  cbn [runningTasks set_lastKnownCapacity set_trace] in Hrun.
  unfold bind at 1, call at 1, bind at 1, emit at 1, modify at 1 in Hrun.
  destruct Hgate as [Hsw|[[u Hsw] Hgate]]; rewrite Hsw in Hrun;
    [now inversion Hrun|].
  unfold bind at 1, call at 1, bind at 1, emit at 1, modify at 1 in Hrun.
  destruct Hgate as [Hd|[Hd Hgate]]; rewrite Hd in Hrun; [now inversion Hrun|].
  unfold bind at 1, call at 1, bind at 1, emit at 1, modify at 1 in Hrun.
  destruct Hgate as [Hc|[(c & claims & Hc) Hp]]; rewrite Hc in Hrun;
    [now inversion Hrun|].
  cbn [length Nat.eqb negb] in Hrun.
  unfold bind at 1, call at 1, bind at 1, emit at 1, modify at 1 in Hrun.
  rewrite Hp in Hrun. now inversion Hrun.
Qed.

(** X18. A failing gate costs the cycle, not the listener.  When there is
    capacity and the sweep, the disk probe, [claimWork] or [purgeCaches]
    throws, [getTasks] throws that error and has launched nothing: no
    [start()] has been called, no task error counted, and the registry is
    as it was, also when [purgeCaches] throws after [claimWork] has handed
    out claims, which are then dropped.  [taskPoll] then records the error
    as a task retrieval error and goes on to its report, whatever happens
    afterwards.  Conversely [getTasks] throws nothing but what one of
    these gates throws. *)
Theorem gate_failure_is_absorbed (rt : Runtime) (w : TaskListener) (e : string) :
  admissible rt w <> 0 ->
  gate_fails rt w e ->
  let full := Nat.eqb (length (runningTasks w)) 0 in
  let w0 := exec (getTasks rt) w in
  result (getTasks rt) w = Throw e
  /\ runningTasks w0 = runningTasks w
  /\ starts (events_since w w0) = []
  /\ countOf "task.error" (events_since w w0) = 0
  /\ (forall h sched during after,
        exists rest,
          events_since w0 (exec (Async.taskPoll_rest h (Throw e) sched during after) w0)
          = ELog "[alert-operator] task retrieval error" [("message", VStr e)]
            :: (if full then EOnIdle else EOnWorking) :: rest
          /\ Forall not_report rest)
  /\ (forall e', result (getTasks rt) w = Throw e' ->
        admissible rt w <> 0 /\ gate_fails rt w e').
Proof.
  intros Hv Hgate. cbv zeta.
  pose proof (getTasks_gate_fails rt w e Hv Hgate) as Hthrow.
  destruct (getTasks_throw rt w e Hthrow) as (Hreg & _ & _).
  pose proof (getTasks_accounts rt w) as Hacc. cbv zeta in Hacc, Hreg.
  rewrite Hthrow in Hacc. destruct Hacc as (Hs & Hc & _).
  split; [exact Hthrow|]. split; [exact Hreg|].
  split; [exact Hs|]. split; [exact Hc|].
  split.
  - intros h sched during after.
    destruct (async_poll_events h (Throw e) sched during after (exec (getTasks rt) w))
      as (rest & Ht & Hq).
    exists rest. split; [|exact Hq].
    unfold exec at 2. rewrite (events_since_app _ _ _ Ht).
    unfold reportEvents. rewrite Hreg. reflexivity.
  - intros e' He'. destruct (getTasks_throw rt w e' He') as (_ & Hv' & Hg).
    split; [exact Hv'|exact Hg].
Qed.

(** X18 where the cache purge fails after the queue has handed out claim
    A: the claim is dropped. *)
Lemma gate_failure_is_absorbed_witness :
  let w := constructor 2 false 0 in
  (admissible rtPurgeFails w <> 0 /\ gate_fails rtPurgeFails w "Error: purge failed")
  /\ result (getTasks rtPurgeFails) w = Throw "Error: purge failed"
  /\ runningTasks (exec (getTasks rtPurgeFails) w) = []
  /\ claimCalls (events_since w (exec (getTasks rtPurgeFails) w)) = [2].
Proof.
  cbv zeta.
  assert (Hv : admissible rtPurgeFails (constructor 2 false 0) <> 0)
    by (vm_compute; discriminate).
  assert (Hg : gate_fails rtPurgeFails (constructor 2 false 0) "Error: purge failed").
  { unfold gate_fails. cbv zeta. right. split; [exists tt; reflexivity|].
    right. split; [reflexivity|]. right. split; [|reflexivity].
    exists claimA, []. reflexivity. }
  destruct (gate_failure_is_absorbed rtPurgeFails _ _ Hv Hg)
    as (Hthrow & Hreg & _).
  split; [split; assumption|].
  split; [exact Hthrow|]. split; [exact Hreg|].
  vm_compute. reflexivity.
Defined.

(** ** Idle plus busy, starts and task errors *)

Lemma sum_clock_blind (c : Z) : clock_blind (fun w => idlePlusBusy w = c).
Proof. split; [|split]; intros ? ? H; exact H. Qed.

Lemma frame_clock_blind (w : TaskListener) :
  clock_blind (fun w0 => runningTasks w0 = runningTasks w
                         /\ lastKnownCapacity w0 = lastKnownCapacity w).
Proof. split; [|split]; intros ? ? [H1 H2]; split; assumption. Qed.

(** A removal hands back the slot it frees, also when a [release()]
    throws. *)
Lemma async_remove_sum (h : Host) (rs : RunningState) (w : TaskListener) :
  idlePlusBusy (snd (Async.removeRunningTask h rs w)) = idlePlusBusy w.
Proof.
  unfold Async.removeRunningTask. unfold bind at 1, gets at 1.
  destruct (findIndex (same_run rs) (runningTasks w)) as [i|] eqn:Hi.
  - apply findIndex_Some in Hi. destruct Hi as (Hi & _).
    unfold bind at 1.
    pose proof (kept_recordCapacity _ (frame_clock_blind w) (runtime h) w
                  (conj eq_refl eq_refl)) as H1.
    pose proof (kept_recordCapacity _ (sum_clock_blind (idlePlusBusy w)) (runtime h) w
                  eq_refl) as S1.
    destruct (recordCapacity (runtime h) w) as [[[]|e1] w1]; cbn [snd] in *;
      [|exact S1].
    unfold bind at 1.
    pose proof (kept_async_cleanup _ (frame_clock_blind w) h (Some rs) w1 H1) as H2.
    pose proof (kept_async_cleanup _ (sum_clock_blind (idlePlusBusy w)) h (Some rs) w1 S1)
      as S2.
    destruct (Async.cleanupRunningState h (Some rs) w1) as [[[]|e2] w2]; cbn [snd] in *;
      [|exact S2].
    destruct H2 as [Hr Hl]. clear S1 S2 H1.
    destruct w2 as [c0 r0 rts0 lkc0 trt0 lte0 p0 t0 tk0].
    cbn [runningTasks lastKnownCapacity] in Hr, Hl.
    assert (Hsum : idlePlusBusy w = lkc0 + Z.of_nat (length rts0))
      by (unfold idlePlusBusy; now rewrite Hr, Hl).
    rewrite Hsum. rewrite <- Hr in Hi. clear Hr Hl Hsum.
    unfold idlePlusBusy. mcbv. unfold splice1.
    rewrite length_app, length_firstn, length_skipn. lia.
  - unfold bind, log, emit, modify. cbn [fst snd].
    apply (kept_async_cleanup _ (sum_clock_blind (idlePlusBusy w)) h (Some rs)).
    reflexivity.
Qed.

Lemma catch_accounts (h : Host) (claim : Claim) (st : RunningState)
    (task : option TaskDef) (e : string) (w : TaskListener) :
  step_accounts claim w (Async.runTask_catch h claim st task e w).
Proof.
  unfold Async.runTask_catch.
  destruct (async_remove_emits h st w) as (evs & Ht & Hq).
  pose proof (async_remove_sum h st w) as Hs.
  unfold bind at 1.
  destruct (Async.removeRunningTask h st w) as [[[]|e0] w1]; cbn [snd] in *.
  - exists (evs ++ [catchLog claim task e; ECount "task.error" 1]).
    unfold catchLog, taskError.
    destruct task; unfold bind, log, count, emit, modify, ret; cbn [fst snd];
      (split; [cbn [trace set_trace]; rewrite Ht; now rewrite <- !app_assoc|]);
      (split; [unfold idlePlusBusy in *; cbn; lia|]);
      (split; [rewrite starts_app, (quiet_no_start _ Hq); reflexivity|]);
      rewrite countOf_app, (quiet_no_task_error _ Hq); reflexivity.
  - exists evs. cbn [fst snd]. split; [exact Ht|].
    split; [lia|]. split; [now apply quiet_no_start|now apply quiet_no_task_error].
Qed.

Lemma admit_accounts (h : Host) (claim : Claim) (task : TaskDef) (st : RunningState)
    (options : Options) (w : TaskListener) :
  step_accounts claim w (Async.admitTask h claim task st options w).
Proof.
  unfold Async.admitTask.
  destruct (newTask (runtime h) claim options) as [th|e]; [|apply catch_accounts].
  unfold bind at 1. rewrite addRunningTask_run.
  unfold step_accounts, idlePlusBusy.
  destruct w as [c0 r0 rts0 lkc0 trt0 lte0 p0 t0 tk0]. mcbv.
  eexists. split; [rewrite <- !app_assoc; reflexivity|].
  split; [rewrite length_app; cbn [length]; lia|].
  split; [reflexivity|]. split; reflexivity.
Qed.

Lemma leaseNext_accounts (h : Host) (claim : Claim) (task : TaskDef)
    (st : RunningState) (options : Options) (odevs : list (string * Device))
    (keys : list string) (w : TaskListener) :
  step_accounts claim w (Async.leaseNext h claim task st options odevs keys w).
Proof.
  destruct keys as [|device rest]; cbn [Async.leaseNext].
  - apply admit_accounts.
  - unfold bind, gets, emit, modify, ret. cbn [fst snd].
    exists [EGetDevice device]. cbn [trace set_trace].
    split; [reflexivity|]. split; [unfold idlePlusBusy; cbn; lia|].
    split; [reflexivity|]. split; reflexivity.
Qed.

(** A step taken after records that neither start a handler nor count a
    task error. *)
Lemma accounts_frame (claim : Claim) (w w0 : TaskListener) (pre : list Event)
    (run : Res Runner * TaskListener) :
  trace w0 = trace w ++ pre -> starts pre = [] -> countOf "task.error" pre = 0 ->
  idlePlusBusy w0 = idlePlusBusy w ->
  step_accounts claim w0 run -> step_accounts claim w run.
Proof.
  intros Ht Hs Hc Hi (evs & He & Hsum & Hst & Hcnt).
  exists (pre ++ evs). split; [rewrite He, Ht; now rewrite app_assoc|].
  rewrite starts_app, Hs, countOf_app, Hc. cbn [app]. rewrite <- Hi.
  split; [exact Hsum|]. split; [exact Hst|]. exact Hcnt.
Qed.

Lemma begin_accounts (h : Host) (claim : Claim) (w : TaskListener) :
  step_accounts claim w (Async.runTask_begin h claim w).
Proof.
  destruct (async_begin_cases h claim w) as (n & pre & k & Hq & Hr & _ & Hk & ->).
  apply (accounts_frame claim w (set_ticks n (set_trace (trace w ++ pre) w)) pre);
    [reflexivity|now apply quiet_no_start|now apply quiet_no_task_error|reflexivity|].
  destruct Hk.
  - apply catch_accounts.
  - apply admit_accounts.
  - apply leaseNext_accounts.
Qed.




(** The launch of the runners of some claims. *)
Lemma launch_accounts_async (h : Host) (claims : list Claim) (w : TaskListener) :
  exists runners evs w',
    Async.launch h claims w = (Ret runners, w')
    /\ trace w' = trace w ++ evs
    /\ Forall2 works_on claims runners
    /\ idlePlusBusy w' = idlePlusBusy w + Z.of_nat (length (started_handlers runners))
    /\ starts evs = started_handlers runners
    /\ 0 <= countOf "task.error" evs <= Z.of_nat (finished runners)
    /\ (releases_return h -> countOf "task.error" evs = Z.of_nat (finished runners)).
Proof.
  revert w. induction claims as [|claim claims IH]; intros w.
  - exists [], [], w. cbn. unfold ret. rewrite app_nil_r.
    repeat split; auto; try constructor; try lia.
  - cbn [Async.launch]. unfold bind at 1, attempt.
    destruct (begin_accounts h claim w) as (e1 & Ht1 & Hs1 & Hst1 & Hc1).
    pose proof (begin_outcome h claim w) as Hout.
    destruct (Async.runTask_begin h claim w) as [r w1]. cbn [fst snd] in *.
    destruct (IH w1) as (runners & e2 & w2 & Hrun & Ht2 & Hw & Hs2 & Hst2 & Hc2 & Hc2').
    unfold bind at 1. rewrite Hrun. unfold ret.
    exists (match r with Ret r' => r' | Throw _ => Finished end :: runners), (e1 ++ e2), w2.
    split; [reflexivity|].
    split; [rewrite Ht2, Ht1; now rewrite app_assoc|].
    rewrite starts_app, countOf_app, Hst1, Hst2, Hs2, Hs1.
    destruct r as [[c t rs o od dev ans rest|p|]|e];
      unfold started_handlers, finished in *; cbn [flat_map filter length app].
    + destruct Hc1 as [Hc1 Hwk]. rewrite Hc1.
      split; [constructor; assumption|]. repeat split; auto; lia.
    + destruct Hc1 as [Hc1 Hwk]. rewrite Hc1.
      split; [constructor; assumption|].
      repeat split; auto; lia.
    + rewrite Hc1. split; [constructor; [exact I|assumption]|].
      repeat split; try lia. intros Hrel. rewrite (Hc2' Hrel). lia.
    + rewrite Hc1. split; [constructor; [exact I|assumption]|].
      repeat split; try lia. intros Hrel. exfalso.
      destruct (Hout Hrel) as (evs & _ & Hf). exact Hf.
Qed.


(** X21. What a launch leaves.  [claims.map(claim => this.runTask(claim))]
    never throws and leaves one runner per claim, in the order of the
    claims, each working on its claim: suspended at [start()], suspended
    at the lease of a payload device, or over.  The handlers whose
    [start()] has been called are those of the runners suspended at
    [start()], in this order: no handler of a runner suspended at a lease
    has been started.  task.error has been counted at most once per
    runner that is over, and exactly once when no [release()] throws. *)
Theorem launch_starts_admitted (h : Host) (claims : list Claim) (w : TaskListener) :
  let w' := exec (Async.launch h claims) w in
  let evs := events_since w w' in
  exists runners,
    result (Async.launch h claims) w = Ret runners
    /\ Forall2 works_on claims runners
    /\ starts evs = started_handlers runners
    /\ 0 <= countOf "task.error" evs <= Z.of_nat (finished runners)
    /\ (releases_return h -> countOf "task.error" evs = Z.of_nat (finished runners)).
Proof.
  cbv zeta.
  destruct (launch_accounts_async h claims w)
    as (runners & evs & w' & Hrun & Ht & Hw & Hs & Hst & Hc & Hc').
  exists runners. unfold result, exec. rewrite Hrun. cbn [fst snd].
  rewrite (events_since_app _ _ _ Ht).
  split; [reflexivity|]. split; [exact Hw|]. split; [exact Hst|].
  split; assumption.
Qed.

(** ** A runner alone *)

Lemma removal_events_no_lease (h : Host) (rs : RunningState) (w : TaskListener) :
  Forall no_lease (removal_events h rs w).
Proof.
  unfold removal_events.
  assert (Hrel : Forall no_lease (map ERelease (held_devices rs))).
  { apply Forall_forall. intros e He. apply in_map_iff in He.
    destruct He as (d & <- & _). exact I. }
  destruct (findIndex _ _).
  - apply Forall_app. split; [repeat constructor|exact Hrel].
  - constructor; [exact I|exact Hrel].
Qed.

(** The end of a runner: what its state holds is released, and no lease
    is taken. *)
Lemma end_alone (h : Host) (t0 : list Event) (st : RunningState)
    (w w' : TaskListener) (pre post : list Event) :
  setup_tracked h t0 st w ->
  trace w' = trace w ++ pre ++ removal_events h st w ++ post ->
  Forall no_lease pre -> device_releases pre = [] ->
  Forall no_lease post -> device_releases post = [] ->
  released_held h t0 w'.
Proof.
  intros (evs & Ht & Hr & Hd) Ht' Hp1 Hp2 Hq1 Hq2.
  exists (evs ++ pre ++ removal_events h st w ++ post). split.
  - rewrite Ht', Ht. now rewrite <- !app_assoc.
  - rewrite !device_releases_app, Hr, Hp2, Hq2, removal_events_releases.
    rewrite leasedIn_app.
    rewrite (leasedIn_none h _ (pre ++ removal_events h st w ++ post)).
    + rewrite !app_nil_r. cbn [app]. unfold held_devices. now rewrite Hd.
    + repeat (apply Forall_app; split); auto. apply removal_events_no_lease.
Qed.

Lemma catch_alone (h : Host) (t0 : list Event) (claim : Claim) (st : RunningState)
    (task : option TaskDef) (e : string) (w : TaskListener) :
  releases_return h -> setup_tracked h t0 st w ->
  exists r,
    fst (Async.runTask_catch h claim st task e w) = Ret r
    /\ alone h t0 r (snd (Async.runTask_catch h claim st task e w))
    /\ rank r = 0%nat.
Proof.
  intros Hrel Hst. rewrite (async_catch_run h claim st task e w Hrel).
  exists Finished. cbn [fst snd alone rank]. split; [reflexivity|]. split; [|reflexivity].
  apply (end_alone h t0 st w _ [] [catchLog claim task e; ECount "task.error" 1] Hst).
  - cbn [trace set_trace app]. rewrite retired_trace. now rewrite <- app_assoc.
  - constructor.
  - reflexivity.
  - unfold catchLog, taskError. destruct task; repeat constructor.
  - unfold catchLog, taskError. destruct task; reflexivity.
Qed.

Lemma async_admit_run (h : Host) (claim : Claim) (task : TaskDef)
    (st : RunningState) (options : Options) (th : Task) (w : TaskListener) :
  newTask (runtime h) claim options = Ret th ->
  Async.admitTask h claim task st options w
  = (Ret (Started {| p_claim := claim; p_task := task;
                     p_state := set_handler th st; p_handler := th |}),
     set_trace
       (trace w ++ recordEvents (runtime h) w
        ++ [ELogEvent "taskQueue" (Some th) (Some (created task));
            ELogEvent "taskStart" (Some th) None; EStart th])
       (set_runningTasks (runningTasks w ++ [set_handler th st])
          (set_lastTaskEvent (clock (runtime h) (S (ticks w)))
             (set_ticks (S (S (ticks w))) w)))).
Proof.
  intros Hnew. unfold Async.admitTask. rewrite Hnew.
  unfold bind at 1. rewrite addRunningTask_run.
  unfold recordEvents, capacityCounters.
  destruct w as [c0 r0 rts0 lkc0 trt0 lte0 p0 t0 tk0]. mcbv.
  f_equal. f_equal. now rewrite <- !app_assoc.
Qed.

Lemma admit_alone (h : Host) (t0 : list Event) (claim : Claim) (task : TaskDef)
    (st : RunningState) (options : Options) (w : TaskListener) :
  releases_return h -> setup_tracked h t0 st w ->
  exists r,
    fst (Async.admitTask h claim task st options w) = Ret r
    /\ alone h t0 r (snd (Async.admitTask h claim task st options w))
    /\ (rank r <= 1)%nat.
Proof.
  intros Hrel Hst.
  destruct (newTask (runtime h) claim options) as [th|e] eqn:Hnew.
  2:{ unfold Async.admitTask. rewrite Hnew.
      destruct (catch_alone h t0 claim st (Some task) e w Hrel Hst) as (r & H1 & H2 & H3).
      exists r. split; [exact H1|]. split; [exact H2|lia]. }
  rewrite (async_admit_run h claim task st options th w Hnew).
  eexists. split; [reflexivity|]. split; [|cbn [rank]; lia].
  cbn [snd alone p_state]. destruct Hst as (evs & Ht & Hr & Hd).
  exists (evs ++ recordEvents (runtime h) w
          ++ [ELogEvent "taskQueue" (Some th) (Some (created task));
              ELogEvent "taskStart" (Some th) None; EStart th]).
  cbn [trace set_trace]. split; [rewrite Ht; now rewrite <- !app_assoc|].
  split; [rewrite !device_releases_app, Hr; reflexivity|].
  cbn [devices set_handler]. rewrite leasedIn_app.
  rewrite (leasedIn_none h _ (recordEvents _ _ ++ _)) by (repeat constructor).
  now rewrite app_nil_r.
Qed.

Lemma leaseNext_alone (h : Host) (t0 : list Event) (claim : Claim) (task : TaskDef)
    (st : RunningState) (options : Options) (odevs : list (string * Device))
    (keys : list string) (w : TaskListener) :
  releases_return h -> setup_tracked h t0 st w ->
  exists r,
    fst (Async.leaseNext h claim task st options odevs keys w) = Ret r
    /\ alone h t0 r (snd (Async.leaseNext h claim task st options odevs keys w))
    /\ (rank r <= S (length keys))%nat.
Proof.
  intros Hrel Hst. destruct keys as [|device rest]; cbn [Async.leaseNext].
  - destruct (admit_alone h t0 claim task st
                {| cpusetCpus := cpusetCpus options; opt_devices := Some odevs |} w Hrel Hst)
      as (r & H1 & H2 & H3).
    exists r. split; [exact H1|]. split; [exact H2|cbn [length]; lia].
  - unfold bind, gets, emit, modify, ret. cbn [fst snd].
    eexists. split; [reflexivity|]. split; [|cbn [rank length]; lia].
    cbn [alone]. destruct Hst as (evs & Ht & Hr & Hd).
    exists evs. cbn [trace set_trace]. rewrite Ht.
    split; [now rewrite <- app_assoc|]. auto.
Qed.

Lemma settle_alone (h : Host) (t0 : list Event) (p : Pending) (started : Res unit)
    (w : TaskListener) :
  releases_return h -> setup_tracked h t0 (p_state p) w ->
  fst (Async.runTask_settle h p started w) = Ret Finished
  /\ released_held h t0 (snd (Async.runTask_settle h p started w)).
Proof.
  intros Hrel Hst. split; [now rewrite (async_settle_run h p started w Hrel)|].
  apply (end_alone h t0 (p_state p) w _
           [ELogEvent "taskFinish" (Some (p_handler p)) None]
           (resumeTail p started) Hst).
  - fold (exec (Async.runTask_settle h p started) w).
    rewrite (async_settle_events h p started w Hrel). reflexivity.
  - repeat constructor.
  - reflexivity.
  - unfold resumeTail, taskError. destruct started; repeat constructor.
  - unfold resumeTail, taskError. destruct started; reflexivity.
Qed.

Lemma resume_alone (h : Host) (t0 : list Event) (r : Runner) (started : Res unit)
    (w : TaskListener) :
  releases_return h -> alone h t0 r w -> r <> Finished ->
  exists r',
    fst (Async.resumeRunner h r started w) = Ret r'
    /\ alone h t0 r' (snd (Async.resumeRunner h r started w))
    /\ (rank r' < rank r)%nat.
Proof.
  intros Hrel Hal Hne.
  destruct r as [claim task rs options odevs device answer rest|p|];
    [| |contradiction]; cbn [Async.resumeRunner alone rank] in *.
  - destruct Hal as (evs & Ht & Hr & Hd & Hans).
    destruct answer as [d|e].
    + assert (Hst : setup_tracked h t0 (set_device device d rs) w).
      { exists (evs ++ [EGetDevice device]). split; [exact Ht|].
        split; [rewrite device_releases_app, Hr; reflexivity|].
        cbn [devices set_device]. rewrite leasedIn_app. cbn [leasedIn].
        rewrite <- Hans, app_nil_r. unfold held. rewrite fold_left_app.
        cbn [fold_left fst snd]. fold (held (leasedIn h t0 evs) []).
        now rewrite Hd. }
      destruct (leaseNext_alone h t0 claim task _ options (obj_set device d odevs) rest w
                  Hrel Hst) as (r' & H1 & H2 & H3).
      exists r'. split; [exact H1|]. split; [exact H2|lia].
    + assert (Hst : setup_tracked h t0 rs w).
      { exists (evs ++ [EGetDevice device]). split; [exact Ht|].
        split; [rewrite device_releases_app, Hr; reflexivity|].
        rewrite leasedIn_app. cbn [leasedIn]. rewrite <- Hans, !app_nil_r. exact Hd. }
      destruct (catch_alone h t0 claim rs (Some task) e w Hrel Hst) as (r' & H1 & H2 & H3).
      exists r'. split; [exact H1|]. split; [exact H2|lia].
  - destruct (settle_alone h t0 p started w Hrel Hal) as [H1 H2].
    exists Finished. split; [exact H1|]. split; [exact H2|cbn [rank]; lia].
Qed.

Lemma runAlone_finishes (h : Host) (t0 : list Event) (started : Res unit)
    (fuel : nat) (r : Runner) (w : TaskListener) :
  releases_return h -> alone h t0 r w -> (rank r <= fuel)%nat ->
  fst (runAlone h fuel r started w) = Ret Finished
  /\ released_held h t0 (snd (runAlone h fuel r started w)).
Proof.
  intros Hrel. revert r w. induction fuel as [|fuel IH]; intros r w Hal Hrank.
  - destruct r; cbn [rank] in Hrank; try lia. cbn. auto.
  - assert (Hfin : r = Finished \/ r <> Finished)
      by (destruct r; [right|right|left]; congruence).
    destruct Hfin as [->|Hne]; [cbn; auto|].
    destruct (resume_alone h t0 r started w Hrel Hal Hne) as (r' & H1 & H2 & H3).
    assert (Hrun : runAlone h (S fuel) r started w
                   = runAlone h fuel r' started
                       (snd (Async.resumeRunner h r started w))).
    { destruct r; [| |contradiction]; cbn [runAlone]; unfold bind;
        destruct (Async.resumeRunner h _ started w) as [res w1];
        cbn [fst snd] in *; subst res; reflexivity. }
    rewrite Hrun. apply IH; [exact H2|lia].
Qed.

Lemma begin_alone (h : Host) (claim : Claim) (w : TaskListener) :
  releases_return h ->
  exists r,
    fst (Async.runTask_begin h claim w) = Ret r
    /\ alone h (trace w) r (snd (Async.runTask_begin h claim w))
    /\ (rank r <= S (length (payloadKeys claim)))%nat.
Proof.
  intros Hrel.
  destruct (async_begin_cases h claim w) as (n & pre & k & Hq & Hr & Hd & Hk & ->).
  assert (Hst : setup_tracked h (trace w) (built h (Begin claim) w)
                  (set_ticks n (set_trace (trace w ++ pre) w))).
  { exists pre. auto. }
  destruct Hk.
  - destruct (catch_alone h (trace w) claim _ task e _ Hrel Hst) as (r & H1 & H2 & H3).
    exists r. split; [exact H1|]. split; [exact H2|lia].
  - destruct (admit_alone h (trace w) claim task _ options _ Hrel Hst)
      as (r & H1 & H2 & H3).
    exists r. split; [exact H1|]. split; [exact H2|lia].
  - apply leaseNext_alone; assumption.
Qed.

(** X19. The devices a runner releases are those its state holds at the
    end: for each key, the handle of the latest lease under that key.  A
    [runTask] that runs alone, no [release()] throwing, comes to its end
    whatever the leases, [new Task] and [start()] answer, and releases
    exactly the handles its state then holds, each once, in the order of
    [Object.keys]; it releases nothing before.  When its leases are all
    under different keys, every handle it has been given is released
    once; when a key is leased twice (the "cpu" key of a worker that
    restricts the CPUs, also named by the task's capabilities), the
    handle given first has been replaced in the state and is not
    released: the runner releases fewer handles than it has been given. *)
Theorem releases_are_latest_leases (h : Host) (claim : Claim)
    (started : Res unit) (w : TaskListener) :
  releases_return h ->
  let run := runTaskAlone h claim started in
  let evs := events_since w (exec run w) in
  let leased := leasedIn h (trace w) evs in
  result run w = Ret Finished
  /\ device_releases evs = map snd (own_entries (held leased []))
  /\ (length (device_releases evs) <= length leased)%nat
  /\ (NoDup (map fst leased) -> Permutation (device_releases evs) (map snd leased))
  /\ (~ NoDup (map fst leased) -> (length (device_releases evs) < length leased)%nat).
Proof.
  intros Hrel. cbv zeta.
  destruct (begin_alone h claim w Hrel) as (r & Hb & Hal & Hrank).
  assert (Hrun : runTaskAlone h claim started w
                 = runAlone h (S (length (payloadKeys claim))) r started
                     (snd (Async.runTask_begin h claim w))).
  { unfold runTaskAlone, bind.
    destruct (Async.runTask_begin h claim w) as [res w1]. cbn [fst snd] in *.
    now subst res. }
  destruct (runAlone_finishes h (trace w) started _ r _ Hrel Hal Hrank)
    as [Hres (evs & Ht & Hrels)].
  unfold result, exec. rewrite Hrun.
  rewrite (events_since_app _ _ _ Ht).
  split; [exact Hres|]. split; [exact Hrels|].
  rewrite Hrels.
  assert (Hlen : length (map snd (own_entries (held (leasedIn h (trace w) evs) [])))
                 = length (held (leasedIn h (trace w) evs) [])).
  { rewrite length_map. apply Permutation_length, own_entries_perm. }
  destruct (held_length (leasedIn h (trace w) evs)) as (Hle & Heq & Hlt).
  split; [rewrite Hlen; exact Hle|].
  split.
  - intros Hnd. rewrite (Heq Hnd). apply Permutation_map, own_entries_perm.
  - intros Hnd. rewrite Hlen. exact (Hlt Hnd).
Qed.

(** X19 where the task names a device "7" on a worker that restricts the
    CPUs: "cpu" is leased first and "7" second, and they are released in
    the order of [Object.keys], "7" first. *)
Lemma releases_are_latest_leases_witness :
  let h := hostOf rtS1 in
  let evs := events_since wS8 (exec (runTaskAlone h claim7 (Ret tt)) wS8) in
  releases_return h
  /\ leasedIn h (trace wS8) evs = [("cpu", {| dev_id := 1 |}); ("7", {| dev_id := 2 |})]
  /\ device_releases evs = [{| dev_id := 2 |}; {| dev_id := 1 |}]
  /\ Permutation (device_releases evs) (map snd (leasedIn h (trace wS8) evs)).
Proof.
  cbv zeta.
  assert (Hrel : releases_return (hostOf rtS1)) by (intros t d; reflexivity).
  destruct (releases_are_latest_leases (hostOf rtS1) claim7 (Ret tt) wS8 Hrel)
    as (_ & _ & _ & Hperm & _).
  assert (Hleased : leasedIn (hostOf rtS1) (trace wS8)
                      (events_since wS8 (exec (runTaskAlone (hostOf rtS1) claim7 (Ret tt)) wS8))
                    = [("cpu", {| dev_id := 1 |}); ("7", {| dev_id := 2 |})])
    by (vm_compute; reflexivity).
  split; [exact Hrel|]. split; [exact Hleased|].
  split; [vm_compute; reflexivity|].
  apply Hperm. rewrite Hleased. cbn [map fst].
  repeat constructor; cbn; intuition discriminate.
Defined.
